(** * Functionless: the Amazon States Language lowering engine

    A shallow embedding of the parts of
    [packages/@functionless/asl/src/asl.ts] that build Choice-rule
    conditions, route thrown errors, lower [+], unary [-], [try]/[catch]
    and [array.filter], and allocate state names, together with the
    properties the specification states about them. *)

From Stdlib Require Import ZArith Bool Ascii String List Lia.
From stdpp Require Import base decidable option list strings gmap pretty.

#[local] Set Warnings "-register-all".

Local Open Scope Z_scope.
Local Open Scope string_scope.
Local Open Scope list_scope.

(** ** Host values *)

(** A JavaScript number as far as the lowering looks at it: [NaN] or a
    finite value.  Finite values are integers here; no function below
    inspects a fraction. *)
Inductive number : Type :=
| NaN
| Num (z : Z).

(** A literal value carried by an [ASLGraph.LiteralValue]: JSON plus
    JavaScript's [undefined]. *)
Inductive Value : Type :=
| VUndefined
| VNull
| VBool (b : bool)
| VNumber (n : number)
| VString (s : string)
| VArray (items : list Value)
| VObject (fields : list (string * Value)).

(** [typeof v], as a tag. *)
Inductive TypeOf : Type :=
| TyUndefined | TyObject | TyBoolean | TyNumber | TyString.

Definition typeof (v : Value) : TypeOf :=
  match v with
  | VUndefined => TyUndefined
  | VNull => TyObject
  | VBool _ => TyBoolean
  | VNumber _ => TyNumber
  | VString _ => TyString
  | VArray _ => TyObject
  | VObject _ => TyObject
  end.

#[global] Instance number_eq_dec : EqDecision number.
Proof. solve_decision. Defined.

(** ** Host conversions

    The conversions of JavaScript the engine applies to literal values
    while it compiles, on the values of [Value]. *)

Module Host.

(** [-n]. *)
Definition neg (n : number) : number :=
  match n with
  | NaN => NaN
  | Num z => Num (- z)
  end.

(** [n + m], on the integers that JavaScript adds without rounding (see
    [summable] below). *)
Definition add (n m : number) : number :=
  match n, m with
  | Num a, Num b => Num (a + b)
  | _, _ => NaN
  end.

(** [Number.isNaN(v)]: true of the number [NaN] only; a value of
    another type is not converted first. *)
Definition Number_isNaN (v : Value) : bool :=
  match v with
  | VNumber NaN => true
  | _ => false
  end.

Definition digit (c : ascii) : option Z :=
  let n := Z.of_nat (nat_of_ascii c) in
  if ((48 <=? n) && (n <=? 57))%Z then Some (n - 48) else None.

Fixpoint digits (s : string) (acc : Z) : option Z :=
  match s with
  | EmptyString => Some acc
  | String c s' =>
      match digit c with
      | Some d => digits s' (10 * acc + d)
      | None => None
      end
  end.

(** [Number(s)] for a string: the empty string is 0, a decimal integer
    numeral with an optional sign is its value, and a string that is no
    numeral is [NaN].  Numerals with a fraction or an exponent, and
    surrounding white space, are outside the finite values of [number]
    and are not recognised: the strings on which this is JavaScript's
    [Number] are those of [reads] below. *)
Definition Number_of_string (s : string) : number :=
  match s with
  | EmptyString => Num 0
  | String "-" (String c s' as ds) =>
      match digits ds 0 with Some z => Num (- z) | None => NaN end
  | String "+" (String c s' as ds) =>
      match digits ds 0 with Some z => Num z | None => NaN end
  | _ => match digits s 0 with Some z => Num z | None => NaN end
  end.

Definition join (separator : string) (parts : list string) : string :=
  match parts with
  | [] => ""
  | p :: rest => fold_left (fun acc q => acc +:+ separator +:+ q) rest p
  end.

(** [String(v)], which is also what a template literal prints.  A
    number is printed by its digits, which is JavaScript's form below
    [1e21]: the values on which this is JavaScript's [String] are those
    of [prints] below. *)
Fixpoint String_ (v : Value) : string :=
  match v with
  | VUndefined => "undefined"
  | VNull => "null"
  | VBool true => "true"
  | VBool false => "false"
  | VNumber NaN => "NaN"
  | VNumber (Num z) => pretty z
  | VString s => s
  | VArray items =>
      join ","
        (map (fun item =>
                match item with
                | VUndefined | VNull => ""
                | _ => String_ item
                end) items)
  | VObject _ => "[object Object]"
  end.

(** [Number(v)]. *)
Definition Number (v : Value) : number :=
  match v with
  | VUndefined => NaN
  | VNull => Num 0
  | VBool true => Num 1
  | VBool false => Num 0
  | VNumber n => n
  | VString s => Number_of_string s
  | VArray _ => Number_of_string (String_ v)
  | VObject _ => NaN
  end.

(** [!!v]. *)
Definition truthy (v : Value) : bool :=
  match v with
  | VUndefined | VNull => false
  | VBool b => b
  | VNumber NaN => false
  | VNumber (Num z) => negb (z =? 0)%Z
  | VString s => negb (bool_decide (s = ""))
  | VArray _ | VObject _ => true
  end.

(** *** Where the conversions are exact

    [Num z] stands for a JavaScript number when [z] is an integer the
    host holds exactly, and the conversions above are JavaScript's on
    the values described here. *)

(** [Number.isSafeInteger(n)], or [n] is [NaN]. *)
Definition safe (n : number) : bool :=
  match n with
  | NaN => true
  | Num z => (Z.abs z <? 2 ^ 53)%Z
  end.


(** A character of the numeric strings of JavaScript
    ([StringNumericLiteral]): white space, a sign, a digit, the point,
    the exponent mark, a letter of [Infinity], the marks and digits of
    binary, octal and hexadecimal numerals; a character beyond ASCII
    may be white space. *)
Definition numericCharacter (c : ascii) : bool :=
  let n := nat_of_ascii c in
  ((128 <=? n) || (9 <=? n) && (n <=? 13) || (n =? 32)
   || (48 <=? n) && (n <=? 57)
   || existsb (fun d => bool_decide (c = d))
        (list_ascii_of_string "+-.eEInfinityxXoObBaAcCdDfF"))%nat.

(** Some character of the string occurs in no numeric string. *)
Fixpoint foreign (s : string) : bool :=
  match s with
  | EmptyString => false
  | String c rest => negb (numericCharacter c) || foreign rest
  end.

(** The strings [Number_of_string] converts as JavaScript does: the
    empty string, a decimal integer numeral with an optional sign whose
    value is safe, and a string with a character that no numeric string
    holds, which is [NaN]. *)
Definition reads (s : string) : bool :=
  match s with
  | EmptyString => true
  | _ =>
      match Number_of_string s with
      | Num z => safe (Num z)
      | NaN => foreign s
      end
  end.

(** The values [String_] prints as JavaScript does: every value whose
    numbers are safe. *)
Fixpoint prints (v : Value) : bool :=
  match v with
  | VNumber n => safe n
  | VArray items => forallb prints items
  | _ => true
  end.

(** The values [Number] converts as JavaScript does. *)
Definition converts (v : Value) : bool :=
  match v with
  | VNumber n => safe n
  | VString s => reads s
  | VArray _ => prints v && reads (String_ v)
  | _ => true
  end.

(** [s.replace(/'/g, "\\'")]. *)
Fixpoint escapeQuotes (s : string) : string :=
  match s with
  | EmptyString => EmptyString
  | String c s' =>
      if bool_decide (c = "'"%char)
      then String "\" (String "'" (escapeQuotes s'))
      else String c (escapeQuotes s')
  end.

End Host.

(** ** The condition builder: [namespace ASL] *)

Module ASL.

(** The comparison atoms of [ASL.VALUE_COMPARISONS]; the key of the
    produced object is the constructor's name. *)
Inductive Comparison : Type :=
| StringEquals | BooleanEquals | NumericEquals
| StringLessThan | NumericLessThan
| StringLessThanEquals | NumericLessThanEquals
| StringGreaterThan | NumericGreaterThan
| StringGreaterThanEquals | NumericGreaterThanEquals.

(** [Condition] of [./states]: an object with a [Variable] and one
    test, or one of the combinators.  [Compare v k x] is
    [{Variable: v, [k]: x}] and [ComparePath v k p] is
    [{Variable: v, [k + "Path"]: p}]. *)
Inductive Condition : Type :=
| And (conds : list Condition)
| Or (conds : list Condition)
| Not (cond : Condition)
| IsPresent (b : bool) (variable : string)
| IsNull (b : bool) (variable : string)
| IsBoolean (b : bool) (variable : string)
| IsString (b : bool) (variable : string)
| IsNumeric (b : bool) (variable : string)
| Compare (variable : string) (key : Comparison) (value : Value)
| ComparePath (variable : string) (key : Comparison) (path : string).

Definition isNull (variable : string) : Condition := IsNull true variable.
Definition isNotNull (variable : string) : Condition := IsNull false variable.

Definition falseCondition : Condition := isNull "$$.Execution.Id".
Definition trueCondition : Condition := isNotNull "$$.Execution.Id".

(** [cond.filter((c) => !!c)]: a condition is an object, hence truthy;
    only [undefined] arguments are dropped. *)
Definition defined (cond : list (option Condition)) : list Condition :=
  omap id cond.

Definition and (cond : list (option Condition)) : Condition :=
  let conds := defined cond in
  if (1 <? length conds)%nat then And conds
  else if (length conds =? 0)%nat then trueCondition
  else match conds with c :: _ => c | [] => trueCondition end.

Definition or (cond : list (option Condition)) : Condition :=
  let conds := defined cond in
  if (1 <? length conds)%nat then Or conds
  else if (length conds =? 0)%nat then falseCondition
  else match conds with c :: _ => c | [] => falseCondition end.

Definition not (cond : Condition) : Condition := Not cond.

Definition isPresent (variable : string) : Condition := IsPresent true variable.
Definition isNotPresent (variable : string) : Condition := IsPresent false variable.
Definition isBoolean (variable : string) : Condition := IsBoolean true variable.
Definition isString (variable : string) : Condition := IsString true variable.
Definition isNumeric (variable : string) : Condition := IsNumeric true variable.

Definition isPresentAndNotNull (variable : string) : Condition :=
  and [Some (isPresent variable); Some (isNotNull variable)].

Definition stringEqualsPath (variable path : string) : Condition :=
  And [isString variable; ComparePath variable StringEquals path].

Definition stringEquals (variable s : string) : Condition :=
  And [isString variable; Compare variable StringEquals (VString s)].

Definition numericEqualsPath (variable path : string) : Condition :=
  And [isNumeric variable; ComparePath variable NumericEquals path].

Definition numericEquals (variable : string) (n : number) : Condition :=
  And [isNumeric variable; Compare variable NumericEquals (VNumber n)].

Definition numericLessThan (variable : string) (n : number) : Condition :=
  Compare variable NumericLessThan (VNumber n).

Definition numericLessThanPath (variable path : string) : Condition :=
  ComparePath variable NumericLessThan path.

Definition numericGreaterThanEquals (variable : string) (n : number) : Condition :=
  Compare variable NumericGreaterThanEquals (VNumber n).

Definition booleanEqualsPath (variable path : string) : Condition :=
  ComparePath variable BooleanEquals path.

Definition booleanEquals (variable : string) (value : bool) : Condition :=
  Compare variable BooleanEquals (VBool value).

Definition isTruthy (v : string) : Condition :=
  and [ Some (isPresentAndNotNull v);
        Some (or [ Some (and [Some (isString v); Some (not (stringEquals v ""))]);
                   Some (and [Some (isNumeric v); Some (not (numericEquals v (Num 0)))]);
                   Some (and [Some (isBoolean v); Some (booleanEquals v true)]);
                   Some (not (or [Some (isBoolean v); Some (isNumeric v); Some (isString v)])) ]) ].

(** [ValueComparisonOperators]. *)
Inductive ValueComparisonOperator : Type :=
| OpEqEqEq | OpEqEq | OpGt | OpGe | OpLe | OpLt | OpNe | OpNeEq.

(** The three runtime types [VALUE_COMPARISONS] is keyed by. *)
Inductive ComparedType : Type := string_t | boolean_t | number_t.

Definition VALUE_COMPARISONS (operation : ValueComparisonOperator)
    (type : ComparedType) : option Comparison :=
  match operation, type with
  | OpEqEq, string_t => Some StringEquals
  | OpEqEq, boolean_t => Some BooleanEquals
  | OpEqEq, number_t => Some NumericEquals
  | OpEqEqEq, string_t => Some StringEquals
  | OpEqEqEq, boolean_t => Some BooleanEquals
  | OpEqEqEq, number_t => Some NumericEquals
  | OpLt, string_t => Some StringLessThan
  | OpLt, boolean_t => None
  | OpLt, number_t => Some NumericLessThan
  | OpLe, string_t => Some StringLessThanEquals
  | OpLe, boolean_t => None
  | OpLe, number_t => Some NumericLessThanEquals
  | OpGt, string_t => Some StringGreaterThan
  | OpGt, boolean_t => None
  | OpGt, number_t => Some NumericGreaterThan
  | OpGe, string_t => Some StringGreaterThanEquals
  | OpGe, boolean_t => None
  | OpGe, number_t => Some NumericGreaterThanEquals
  | OpNe, _ => None
  | OpNeEq, _ => None
  end.

(** The [value: string | number | boolean] argument of
    [compareValueOfType]. *)
Inductive Comparable : Type :=
| CString (s : string)
| CNumber (n : number)
| CBoolean (b : bool).

Definition comparable_type (value : Comparable) : ComparedType :=
  match value with
  | CString _ => string_t
  | CNumber _ => number_t
  | CBoolean _ => boolean_t
  end.

Definition comparable_value (value : Comparable) : Value :=
  match value with
  | CString s => VString s
  | CNumber n => VNumber n
  | CBoolean b => VBool b
  end.

Definition compareValueOfType (variable : string)
    (operation : ValueComparisonOperator) (value : Comparable) : Condition :=
  match VALUE_COMPARISONS operation (comparable_type value) with
  | None => falseCondition
  | Some comparison => Compare variable comparison (comparable_value value)
  end.

Definition comparePathOfType (variable : string)
    (operation : ValueComparisonOperator) (path : string)
    (type : ComparedType) : Condition :=
  match VALUE_COMPARISONS operation type with
  | None => falseCondition
  | Some comparison => ComparePath variable comparison path
  end.

End ASL.

(** ** Evaluation of a Choice rule

    How Step Functions decides a rule against the state, after the
    Amazon States Language reference: [env] maps a path to the value
    stored there ([None] when the path selects nothing); a test on a
    missing path is a runtime failure ([None]), except [IsPresent];
    [And] and [Or] stop at the first operand that decides them; a
    comparison against a value of another type is false. *)

Module ChoiceRule.
Import ASL.

Definition Env : Type := string -> option Value.

Definition compare_values (key : Comparison) (x y : Value) : bool :=
  match key, x, y with
  | StringEquals, VString a, VString b => bool_decide (a = b)
  | StringLessThan, VString a, VString b => String.ltb a b
  | StringLessThanEquals, VString a, VString b => String.leb a b
  | StringGreaterThan, VString a, VString b => String.ltb b a
  | StringGreaterThanEquals, VString a, VString b => String.leb b a
  | BooleanEquals, VBool a, VBool b => Bool.eqb a b
  | NumericEquals, VNumber (Num a), VNumber (Num b) => (a =? b)%Z
  | NumericLessThan, VNumber (Num a), VNumber (Num b) => (a <? b)%Z
  | NumericLessThanEquals, VNumber (Num a), VNumber (Num b) => (a <=? b)%Z
  | NumericGreaterThan, VNumber (Num a), VNumber (Num b) => (b <? a)%Z
  | NumericGreaterThanEquals, VNumber (Num a), VNumber (Num b) => (b <=? a)%Z
  | _, _, _ => false
  end.

Definition is_null (x : Value) : bool :=
  match x with VNull => true | _ => false end.
Definition is_boolean (x : Value) : bool :=
  match x with VBool _ => true | _ => false end.
Definition is_string (x : Value) : bool :=
  match x with VString _ => true | _ => false end.
Definition is_numeric (x : Value) : bool :=
  match x with VNumber _ => true | _ => false end.

Definition test (env : Env) (variable : string) (b : bool)
    (p : Value -> bool) : option bool :=
  match env variable with
  | None => None
  | Some x => Some (Bool.eqb (p x) b)
  end.

Fixpoint eval (env : Env) (c : Condition) : option bool :=
  match c with
  | And conds =>
      (fix all (cs : list Condition) : option bool :=
         match cs with
         | [] => Some true
         | c :: cs' =>
             match eval env c with
             | Some true => all cs'
             | r => r
             end
         end) conds
  | Or conds =>
      (fix any (cs : list Condition) : option bool :=
         match cs with
         | [] => Some false
         | c :: cs' =>
             match eval env c with
             | Some false => any cs'
             | r => r
             end
         end) conds
  | Not cond => negb <$> eval env cond
  | IsPresent b v => Some (Bool.eqb (bool_decide (is_Some (env v))) b)
  | IsNull b v => test env v b is_null
  | IsBoolean b v => test env v b is_boolean
  | IsString b v => test env v b is_string
  | IsNumeric b v => test env v b is_numeric
  | Compare v key value =>
      match env v with
      | None => None
      | Some x => Some (compare_values key x value)
      end
  | ComparePath v key path =>
      match env v, env path with
      | Some x, Some y => Some (compare_values key x y)
      | _, _ => None
      end
  end.

(** JavaScript truthiness of what a path holds; a missing path reads
    as [undefined]. *)
Definition truthy (x : option Value) : bool :=
  from_option Host.truthy false x.

End ChoiceRule.

(** ** The graph model: [namespace ASLGraph]

    The types of [./asl-graph] follow their uses in [asl.ts]; the
    helpers of that module whose bodies matter below are modelled from
    the specification and say so. *)

Module ASLGraph.

(** [ASLGraph.Output]. *)
Inductive Output : Type :=
| JsonPath (jsonPath : string)
| LiteralValue (value : Value) (containsJsonPath : bool)
| ConditionOutput (condition : ASL.Condition).

Definition isJsonPath (o : Output) : bool :=
  match o with JsonPath _ => true | _ => false end.
Definition isLiteralValue (o : Output) : bool :=
  match o with LiteralValue _ _ => true | _ => false end.
Definition isLiteralString (o : Output) : bool :=
  match o with LiteralValue (VString _) _ => true | _ => false end.
Definition isLiteralNumber (o : Output) : bool :=
  match o with LiteralValue (VNumber _) _ => true | _ => false end.
Definition isLiteralNull (o : Output) : bool :=
  match o with LiteralValue VNull _ => true | _ => false end.
Definition isConditionOutput (o : Output) : bool :=
  match o with ConditionOutput _ => true | _ => false end.

Definition literalValue (value : Value) : Output := LiteralValue value false.

(** [ASLGraph.jsonPath(base, property)]. *)
Definition jsonPath (base property : string) : Output :=
  JsonPath (base +:+ "." +:+ property).

(** An intrinsic function call, before [renderIntrinsicFunction]
    prints it: an argument is a path, a literal or another call. *)
Inductive Intrinsic : Type :=
| IPath (jsonPath : string)
| ILiteral (value : Value)
| ICall (name : string) (args : list Intrinsic).

Definition intrinsicFormat (format : string) (args : list Intrinsic) : Intrinsic :=
  ICall "States.Format" (ILiteral (VString format) :: args).
Definition intrinsicStringSplit (value separator : Intrinsic) : Intrinsic :=
  ICall "States.StringSplit" [value; separator].
Definition intrinsicStringToJson (value : Intrinsic) : Intrinsic :=
  ICall "States.StringToJson" [value].
Definition intrinsicJsonToString (value : Intrinsic) : Intrinsic :=
  ICall "States.JsonToString" [value].
Definition intrinsicArrayGetItem (array : Intrinsic) (index : Z) : Intrinsic :=
  ICall "States.ArrayGetItem" [array; ILiteral (VNumber (Num index))].
Definition intrinsicMathAdd (left right : Intrinsic) : Intrinsic :=
  ICall "States.MathAdd" [left; right].

(** The value of a [Next] or [Default] field: the deferred-next
    sentinel or a label. *)
Inductive Target : Type :=
| DeferNext
| Name (label : string).

(** A string the host computes when the state is built. *)
Inductive HostString : Type :=
| Text (s : string)
| JSON_stringify (value : Value).

(** A [Parameters] object: keys ending in [.$] with the path or
    intrinsic they hold, or a literal with embedded paths that
    [passWithInput] turns into such an object. *)
Inductive Params : Type :=
| Fields (fields : list (string * Intrinsic))
| OfLiteral (value : Value).

(** The fields of a [Pass] state.  [ResultPath] is absent ([None]),
    [null] ([Some None]) or a path. *)
Record Pass : Type := {
  InputPath : option string;
  Parameters : option Params;
  Result : option Value;
  ResultPath : option (option string);
  Next : option Target;
  End_ : bool;
}.

(** [ASLGraph.NodeState], for the state types built below.  The
    back-reference [node], used only to name states, is left out. *)
Inductive NodeState : Type :=
| PassState (fields : Pass)
| FailState (Error : string) (Cause : HostString)
| ChoiceState (Choices : list (ASL.Condition * Target)) (Default : Target).

(** A state or an [ASLGraph.SubState]; [states] keeps the insertion
    order of the object's keys. *)
Inductive Graph : Type :=
| Node (state : NodeState)
| SubState (startState : string) (states : list (string * Graph)).

(** [ASLGraph.NodeResults]: a bare output, or states with an output. *)
Inductive NodeResults : Type :=
| Bare (output : Output)
| WithOutput (graph : Graph) (output : Output).

Definition getAslStateOutput (r : NodeResults) : Output :=
  match r with Bare o => o | WithOutput _ o => o end.

Definition statesOf (r : NodeResults) : option Graph :=
  match r with Bare _ => None | WithOutput g _ => Some g end.

(** Modelled from the spec: what [updateDeferredNextStates] does to one
    [Next] or [Default]. *)
Definition retarget (next : string) (t : Target) : Target :=
  match t with DeferNext => Name next | Name l => Name l end.

(** Modelled from the spec: [updateDeferredNextStates] on one state. *)
Definition updateDeferredNextState (next : string) (s : NodeState) : NodeState :=
  match s with
  | PassState f =>
      PassState {| InputPath := InputPath f; Parameters := Parameters f;
                   Result := Result f; ResultPath := ResultPath f;
                   Next := retarget next <$> Next f; End_ := End_ f |}
  | FailState e c => FailState e c
  | ChoiceState choices default =>
      ChoiceState (map (fun c => (fst c, retarget next (snd c))) choices)
                  (retarget next default)
  end.

(** Modelled from the spec: [updateDeferredNextStates] of
    [./asl-graph], called with [{Next: next}]: "replaces every sentinel
    Next in sub with target". *)
Fixpoint updateDeferredNextStates (next : string) (g : Graph) : Graph :=
  match g with
  | Node s => Node (updateDeferredNextState next s)
  | SubState start states =>
      SubState start
        (map (fun entry => (fst entry, updateDeferredNextStates next (snd entry)))
             states)
  end.

(** Modelled from the spec: the parts of [joinSubStates], each but the
    last rewired to the label of the next. *)
Fixpoint chain (i : nat) (subs : list Graph) : list (string * Graph) :=
  match subs with
  | [] => []
  | [g] => [(pretty i, g)]
  | g :: rest =>
      (pretty i, updateDeferredNextStates (pretty (S i)) g) :: chain (S i) rest
  end.

(** Modelled from the spec: [joinSubStates] of [./asl-graph]:
    "concatenates ordered sub-states into one; each's deferred-next is
    rewired to the next's startState; the last one's deferred-next is
    left deferred".  [undefined] arguments are skipped, nothing joined
    is [undefined], one sub-state is itself; in the joined sub-state the
    parts are labelled by their position. *)
Definition joinSubStates (subStates : list (option Graph)) : option Graph :=
  match omap id subStates with
  | [] => None
  | [g] => Some g
  | subs => Some (SubState "0" (chain 0 subs))
  end.

(** [assignJsonPathOrIntrinsic], after its description in [asl.ts]: a
    [Pass] whose [Parameters] hold the path or intrinsic under
    [propertyName + ".$"], written to [tempHeap]; its output is
    [tempHeap.propertyName]. *)
Definition assignJsonPathOrIntrinsic (jsonPathOrIntrinsic : Intrinsic)
    (tempHeap propertyName : string) (next : Target) : NodeResults :=
  WithOutput
    (Node (PassState {| InputPath := None;
                        Parameters :=
                          Some (Fields [(propertyName +:+ ".$",
                                         jsonPathOrIntrinsic)]);
                        Result := None;
                        ResultPath := Some (Some tempHeap);
                        Next := Some next;
                        End_ := false |}))
    (jsonPath tempHeap propertyName).

(** Modelled from the spec: [passWithInput] of [./asl-graph]: "fills
    a Pass state's InputPath (for paths) or Result/Parameters (for
    literals), preserving the containsJsonPath bit (literals with
    embedded paths must use Parameters)".  A condition is never passed
    in; the state is then left as it is. *)
Definition passWithInput (pass : Pass) (value : Output) : Pass :=
  match value with
  | JsonPath p =>
      {| InputPath := Some p; Parameters := Parameters pass;
         Result := Result pass; ResultPath := ResultPath pass;
         Next := Next pass; End_ := End_ pass |}
  | LiteralValue v false =>
      {| InputPath := InputPath pass; Parameters := Parameters pass;
         Result := Some v; ResultPath := ResultPath pass;
         Next := Next pass; End_ := End_ pass |}
  | LiteralValue v true =>
      {| InputPath := InputPath pass; Parameters := Some (OfLiteral v);
         Result := Result pass; ResultPath := ResultPath pass;
         Next := Next pass; End_ := End_ pass |}
  | ConditionOutput _ => pass
  end.

End ASLGraph.

(** ** The lowering engine: [class ASL] *)

Module Engine.
Import ASLGraph.

(** The members of [ErrorCodes] (of [@functionless/error-code]) named
    by the functions below. *)
Inductive ErrorCode : Type :=
| Unsupported_Feature
| Invalid_Input
| Unexpected_Error
| StepFunctions_error_cause_must_be_a_constant
| StepFunction_Throw_must_be_Error_or_StepFunctionError_class
| StepFunctions_Invalid_collection_access
| Step_Functions_does_not_support_undefined.

(** What a compile-time [throw] raises: a [SynthError] with its code
    and optional message, or a plain [Error] / [ReferenceError] with a
    message only. *)
Inductive Rejection : Type :=
| SynthError (code : ErrorCode) (message : option string)
| Error (message : string)
| ReferenceError (message : string).

(** [err.message]. *)
Definition message_of (err : Rejection) : option string :=
  match err with
  | SynthError _ m => m
  | Error m => Some m
  | ReferenceError m => Some m
  end.

(** A method of the compiler: it reads and advances [heapCounter] and
    either returns or throws. *)
Definition M (A : Type) : Type := nat -> Rejection + (A * nat).

Definition ret {A} (a : A) : M A := fun heapCounter => inr (a, heapCounter).
Definition reject {A} (err : Rejection) : M A := fun _ => inl err.
Definition bind {A B} (m : M A) (k : A -> M B) : M B :=
  fun heapCounter =>
    match m heapCounter with
    | inl err => inl err
    | inr (a, heapCounter') => k a heapCounter'
    end.

Notation "'let*' x ':=' m 'in' k" := (bind m (fun x => k))
  (at level 10, x name, m at level 100, k at level 200).
Notation "'let*' ' p ':=' m 'in' k" := (bind m (fun x => let 'p := x in k))
  (at level 10, p pattern, m at level 100, k at level 200).


(** [try { m } catch (err) { throw handler(err) }]. *)
Definition rethrow {A} (m : M A) (handler : Rejection -> Rejection) : M A :=
  fun heapCounter =>
    match m heapCounter with
    | inl err => inl (handler err)
    | r => r
    end.

Definition newHeapVariableName : M string :=
  fun heapCounter => inr ("heap" +:+ pretty heapCounter, S heapCounter).

Definition newHeapVariable : M string :=
  let* name := newHeapVariableName in ret ("$." +:+ name).

Definition ContinueNext : string := "__ContinueNext".
Definition BreakNext : string := "__BreakNext".
Definition CatchState : string := "__catch".

(** [FUNCTIONLESS_CONTEXT_JSON_PATH + ".null"], the constructed null
    of the specification's reserved identifiers. *)
Definition context_null : string := "$.fnl_context.null".

Definition pass (Next : option Target) : Pass :=
  {| InputPath := None; Parameters := None; Result := None;
     ResultPath := None; Next := Next; End_ := false |}.

(** [assignValue] on an output that is not a condition. *)
Definition assignPlain (value : Output) (targetJsonPath : option string)
    : M (Graph * string) :=
  let* target := match targetJsonPath with
                  | Some t => ret t
                  | None => newHeapVariable
                  end in
  ret (Node (PassState
               (passWithInput
                  {| InputPath := None; Parameters := None; Result := None;
                     ResultPath := Some (Some target);
                     Next := Some DeferNext; End_ := false |}
                  value)),
       target).

(** [conditionState], over the [assignValue] it calls on the outputs
    of its branches.  The callers below hand it states with an output or
    nothing; each branch is those states joined with the assignment of
    their output to [tempHeap]. *)
Definition conditionStateWith
    (assign : Output -> option string -> M (Graph * string))
    (cond : ASL.Condition) (trueState falseState : option NodeResults)
    (outputJsonPath : option string) : M (Graph * string) :=
  let trueOutput := match trueState with
                    | Some r => getAslStateOutput r
                    | None => LiteralValue (VBool true) false
                    end in
  let falseOutput := match falseState with
                     | Some r => getAslStateOutput r
                     | None => LiteralValue (VBool false) false
                     end in
  let* tempHeap := match outputJsonPath with
                    | Some t => ret t
                    | None => newHeapVariable
                    end in
  let assigned (output : Output) : M Graph :=
    let* a := assign output (Some tempHeap) in ret (fst a) in
  let branch (state : option NodeResults) (output : Output) : M Graph :=
    let* last := match output with
                 | JsonPath p =>
                     if bool_decide (p = tempHeap)
                     then ret (Node (PassState (pass (Some DeferNext))))
                     else assigned output
                 | _ => assigned output
                 end in
    ret (default last (joinSubStates [state ≫= statesOf; Some last])) in
  let* whenTrue := branch trueState trueOutput in
  let* whenFalse := branch falseState falseOutput in
  ret (SubState "default"
         [ ("default", Node (ChoiceState [(cond, Name "true")] (Name "false")));
           ("true", whenTrue);
           ("false", whenFalse) ],
       tempHeap).

Definition assignValue (value : Output) (targetJsonPath : option string)
    : M (Graph * string) :=
  match value with
  | ConditionOutput condition =>
      conditionStateWith assignPlain condition None None targetJsonPath
  | _ => assignPlain value targetJsonPath
  end.

Definition conditionState := conditionStateWith assignValue.

(** *** The error router *)

(** What [ASL.throw] reads of the function-like node around a throwing
    node, [node.findParent(isFunctionLike)]: each field is the answer of
    the AST ([@functionless/ast]) to one query of the source. *)
Record Closure : Type := {
  parent_isArgument : bool;
    (* isArgument(closure.parent) *)
  call_isCallExpr : bool;
    (* isCallExpr(closure.parent.parent) *)
  callee_isPropAccessExpr : bool;
    (* isPropAccessExpr(closure.parent.parent.expr) *)
  callee_name : string;
    (* closure.parent.parent.expr.name.name *)
  receiver_isReferenceExpr : bool;
    (* isReferenceExpr(closure.parent.parent.expr.expr) *)
  contains_handler : bool;
    (* closure.contains(catchOrFinally) *)
}.

(** The node [node.throw()] returns: a catch clause or a block, with
    what [ASL.throw] asks of it.  [generatedName] is
    [generatedNames.generateOrGet] of that node. *)
Inductive Handler : Type :=
| ToCatchClause (variableDecl : bool) (generatedName : string)
| ToBlockStmt (isFinallyBlock : bool)
    (parent_catchClause_canThrow : option bool)
    (isTerminal : bool) (generatedName : string).

Record ThrowingNode : Type := {
  mapOrParallelClosure : option Closure;
  catchOrFinally : option Handler;
}.

Record Transition : Type := {
  transition_Next : string;
  transition_ResultPath : option string;
}.

(** The callback of [map], [filter] or [forEach] called on something
    that is not a reference. *)
Definition isArrayMethodCallback (c : Closure) : bool :=
  parent_isArgument c && call_isCallExpr c && callee_isPropAccessExpr c
  && (bool_decide (callee_name c = "map")
      || bool_decide (callee_name c = "filter")
      || bool_decide (callee_name c = "forEach"))
  && negb (receiver_isReferenceExpr c).

Definition throw_ResultPath (h : Handler) : option string :=
  match h with
  | ToCatchClause true name => Some ("$." +:+ name)
  | ToBlockStmt true (Some true) false name => Some ("$." +:+ name)
  | _ => None
  end.

Definition throw (node : ThrowingNode) : option Transition :=
  match catchOrFinally node with
  | None => None
  | Some h =>
      if match mapOrParallelClosure node with
         | None => true
         | Some c => isArrayMethodCallback c || contains_handler c
         end
      then Some {| transition_Next := CatchState;
                   transition_ResultPath := throw_ResultPath h |}
      else None
  end.

(** *** Statements *)

(** An expression handed to [eval]: what [eval] returns for it, or
    the rejection it raises.  The heap slots that lowering the expression
    itself takes are not counted by [evalExpr]: the counter of a method
    that lowers such an expression counts the slots of the method only.
    Where the order of the slots matters (the template literal), the
    expression is a [Templates.Lowering], which counts them. *)
Record EvaluatedExpr : Type := {
  isUndefinedLiteralExpr : bool;
  evaluated : Rejection + NodeResults;
}.

Definition evalExpr (e : EvaluatedExpr) : M NodeResults :=
  fun heapCounter =>
    match evaluated e with
    | inl err => inl err
    | inr r => inr (r, heapCounter)
    end.


(** What [eval] raises for an expression of a kind it does not lower;
    [kindName] is [expr.kindName]. *)
Definition unknownExpression (kindName : string) : Rejection :=
  Error ("cannot eval expression kind '" +:+ kindName +:+ "'").

(** What [getIdentifierName] raises for an identifier that resolves to
    no declaration; [name] is [identifier.name]. *)
Definition notDefined (name : string) : Rejection :=
  ReferenceError (name +:+ " is not defined").

(** The callee of the thrown call, as [errorClassName] reads it. *)
Inductive Callee : Type :=
| StepFunctionErrorConstructor
| ReferenceOrIdentifier (name : string)
| PropAccess (name : string)
| OtherCallee.

Inductive ThrownExprKind : Type :=
| NewExpr | CallExpr | CallReferencePattern | OtherExpr.

Record Thrown : Type := {
  thrown_kind : ThrownExprKind;
  thrown_callee : Callee;
  thrown_args : list EvaluatedExpr;
  thrown_node : ThrowingNode;
}.

(** [returnPass]: the fields of the [Pass] a [return] ends in. *)
Record ReturnPass : Type := {
  return_ResultPath : option (option string);
  return_Next : option Target;
  return_End : bool;
}.

Record CatchClause : Type := {
  variableDecl : option (Rejection + option Graph);
    (* the declared variable, with what evalDecl returns for it *)
  catch_generatedName : string;
  catch_canThrow : bool;
}.

Record FinallyBlock : Type := {
  finally_isTerminal : bool;
  finally_generatedName : string;
  finally_node : ThrowingNode;
}.

(** The statements [evalStmt] is followed through; [OtherStmt] stands
    for every other kind, with the result of lowering it. *)
Inductive Stmt : Type :=
| BlockStmt (statements : list Stmt)
| BreakStmt (loop : bool)
| ContinueStmt (loop : bool)
| ReturnStmt (expr : EvaluatedExpr)
| ThrowStmt (thrown : Thrown)
| TryStmt (tryBlock : Stmt) (tryFlow_hasTask : bool)
    (catchClause : option (CatchClause * Stmt))
    (finallyBlock : option (FinallyBlock * Stmt))
| DebuggerStmt
| EmptyStmt
| LabelledStmt (stmt : Stmt)
| WithStmt
| SwitchStmt
| OtherStmt (lowered : Rejection + option Graph).

(** [errorClassName] of the [throw] case; [StepFunctionError.kind] is
    the name the source compares it with, ["StepFunctionError"]. *)
Definition errorClassName (callee : Callee) : option string :=
  match callee with
  | StepFunctionErrorConstructor => Some "StepFunctionError"
  | ReferenceOrIdentifier name => Some name
  | PropAccess name => Some name
  | OtherCallee => None
  end.

Definition typeof_name (v : Value) : string :=
  match typeof v with
  | TyUndefined => "undefined"
  | TyObject => "object"
  | TyBoolean => "boolean"
  | TyNumber => "number"
  | TyString => "string"
  end.

(** [toJson] of the [throw] case; it also records, as [evalExpr] of
    [evalContext] does, the states of the expression. *)
Definition toJson (expr : EvaluatedExpr) : M (list Graph * Value) :=
  let* val := evalExpr expr in
  match getAslStateOutput val with
  | LiteralValue value false =>
      ret (option_list (statesOf val), value)
  | _ => reject (SynthError StepFunctions_error_cause_must_be_a_constant None)
  end.

Definition resolveErrorNameAndCause (updated : Thrown)
    : M (list Graph * string * Value) :=
  match errorClassName (thrown_callee updated) with
  | Some "Error" =>
      match thrown_args updated with
      | [] => ret ([], "Error", VObject [("message", VNull)])
      | errorMessage :: _ =>
          if isUndefinedLiteralExpr errorMessage
          then ret ([], "Error", VObject [("message", VNull)])
          else
            let* '(states, message) := toJson errorMessage in
            ret (states, "Error", VObject [("message", message)])
      end
  | Some "StepFunctionError" =>
      match thrown_args updated with
      | error :: cause :: _ =>
          let* '(states, errorName) := toJson error in
          match errorName with
          | VString errorName =>
              let* '(states', causeJson) :=
                rethrow (toJson cause)
                  (fun err =>
                     SynthError StepFunctions_error_cause_must_be_a_constant
                       (message_of err)) in
              ret (states ++ states', errorName, causeJson)
          | other =>
              reject (SynthError Unexpected_Error
                        (Some ("Expected 'error' parameter in StepFunctionError to be of type string, but got "
                               +:+ typeof_name other)))
          end
      | _ =>
          reject (SynthError Unexpected_Error
                    (Some "Expected 'error' and 'cause' parameter in StepFunctionError"))
      end
  | _ =>
      reject (SynthError StepFunction_Throw_must_be_Error_or_StepFunctionError_class
                None)
  end.

(** The state the handler of the [throw] case returns. *)
Definition throwState (errorName : string) (causeJson : Value)
    (node : ThrowingNode) : NodeState :=
  match throw node with
  | None => FailState errorName (JSON_stringify causeJson)
  | Some throwTransition =>
      PassState {| InputPath := None; Parameters := None;
                   Result := Some causeJson;
                   ResultPath := Some (transition_ResultPath throwTransition);
                   Next := Some (Name (transition_Next throwTransition));
                   End_ := false |}
  end.

Definition evalThrowStmt (thrown : Thrown) : M (option Graph) :=
  match thrown_kind thrown with
  | OtherExpr =>
      reject (Error "the expr of a ThrowStmt must be a NewExpr or CallExpr")
  | _ =>
      let* '(states, errorName, causeJson) := resolveErrorNameAndCause thrown in
      ret (joinSubStates
             (map Some states
              ++ [Some (Node (throwState errorName causeJson (thrown_node thrown)))]))
  end.

Definition normalizeOutputToJsonPathOrLiteralValue (output : Output)
    : M (option Graph * Output) :=
  match output with
  | ConditionOutput condition =>
      let* '(states, tempHeap) := conditionState condition None None None in
      ret (Some states, JsonPath tempHeap)
  | _ => ret (None, output)
  end.

Definition lift {A} (r : Rejection + A) : M A :=
  fun heapCounter =>
    match r with
    | inl err => inl err
    | inr a => inr (a, heapCounter)
    end.

(** The pre-amble of a catch clause, [tryFlowStates] of the [try]
    case. *)
Definition tryFlowStates (tryFlow_hasTask : bool)
    (catchClause : option CatchClause) : option Graph :=
  match catchClause with
  | Some clause =>
      if tryFlow_hasTask && bool_decide (is_Some (variableDecl clause))
      then
        let errorVariableName := catch_generatedName clause in
        joinSubStates
          [ statesOf
              (assignJsonPathOrIntrinsic
                 (intrinsicStringToJson
                    (IPath ("$." +:+ errorVariableName +:+ ".Cause")))
                 ("$." +:+ errorVariableName) "0_ParsedError" DeferNext);
            Some (Node (PassState
                          {| InputPath := Some ("$." +:+ errorVariableName
                                                +:+ ".0_ParsedError");
                             Parameters := None; Result := None;
                             ResultPath := Some (Some ("$." +:+ errorVariableName));
                             Next := Some DeferNext; End_ := false |})) ]
      else None
  | None => None
  end.

(** The tail of a [finally] block that re-throws what the catch
    clause threw. *)
Definition finallyExit (finallyBlock : FinallyBlock) : Graph :=
  let throwTarget := throw (finally_node finallyBlock) in
  let errVariable := "$." +:+ finally_generatedName finallyBlock in
  SubState "exit"
    [ ("exit", Node (ChoiceState [(ASL.IsPresent true errVariable, Name "throw")]
                                 DeferNext));
      ("throw",
       Node match throwTarget with
            | Some target =>
                PassState {| InputPath := Some errVariable; Parameters := None;
                             Result := None;
                             ResultPath := Some (transition_ResultPath target);
                             Next := Some (Name (transition_Next target));
                             End_ := false |}
            | None =>
                FailState "ReThrowFromFinally"
                  (Text "an error was re-thrown from a finally block which is unsupported by Step Functions")
            end) ].

Definition deferredPass (ResultPath : option (option string)) : Graph :=
  Node (PassState {| InputPath := None; Parameters := None; Result := None;
                     ResultPath := ResultPath; Next := Some DeferNext;
                     End_ := false |}).

Fixpoint evalStmt (stmt : Stmt) (returnPass : ReturnPass) : M (option Graph) :=
  match stmt with
  | BlockStmt statements =>
      let* states :=
        (fix each (l : list Stmt) : M (list (option Graph)) :=
           match l with
           | [] => ret []
           | s :: l' =>
               let* g := evalStmt s returnPass in
               let* gs := each l' in
               ret (g :: gs)
           end) statements in
      ret (joinSubStates states)
  | BreakStmt loop =>
      if loop
      then ret (Some (Node (PassState (pass (Some (Name BreakNext))))))
      else reject (Error "Stack Underflow")
  | ContinueStmt loop =>
      if loop
      then ret (Some (Node (PassState
                              {| InputPath := None; Parameters := None;
                                 Result := None; ResultPath := Some None;
                                 Next := Some (Name ContinueNext);
                                 End_ := false |})))
      else reject (Error "Stack Underflow")
  | ReturnStmt expr =>
      let* state := evalExpr expr in
      let* '(normalizedState, normalizedOutput) :=
        normalizeOutputToJsonPathOrLiteralValue (getAslStateOutput state) in
      ret (joinSubStates
             [ statesOf state;
               normalizedState;
               Some (Node (PassState
                             (passWithInput
                                {| InputPath := None; Parameters := None;
                                   Result := None;
                                   ResultPath := return_ResultPath returnPass;
                                   Next := return_Next returnPass;
                                   End_ := return_End returnPass |}
                                normalizedOutput))) ])
  | ThrowStmt thrown => evalThrowStmt thrown
  | TryStmt tryBlock tryFlow_hasTask catchClause finallyBlock =>
      let* tryStates := evalStmt tryBlock returnPass in
      let tryState :=
        SubState "try"
          (("try", default (deferredPass (Some None)) tryStates)
           :: match catchClause with
              | Some _ => [(CatchState, Node (PassState (pass (Some (Name "catch")))))]
              | None => []
              end) in
      let* catchClauseState :=
        match catchClause with
        | Some (clause, block) =>
            let* _catch := evalStmt block returnPass in
            let* initialize :=
              match variableDecl clause with
              | Some decl => lift decl
              | None => ret None
              end in
            let clauseStates :=
              joinSubStates
                [initialize; Some (default (deferredPass None) _catch)] in
            ret (Some
                   (SubState "catch"
                      (("catch",
                        default (deferredPass None)
                          (joinSubStates
                             [ tryFlowStates tryFlow_hasTask (Some clause);
                               clauseStates ]))
                       :: match finallyBlock with
                          | Some _ =>
                              [(CatchState,
                                Node (PassState (pass (Some (Name "finally")))))]
                          | None => []
                          end)))
        | None => ret None
        end in
      let* finallyState :=
        match finallyBlock with
        | Some (info, block) =>
            let* finallyStates := evalStmt block returnPass in
            ret (joinSubStates
                   [ Some (default (deferredPass (Some None)) finallyStates);
                     match catchClause with
                     | Some (clause, _) =>
                         if catch_canThrow clause
                         then if finally_isTerminal info then None
                              else Some (finallyExit info)
                         else None
                     | None => None
                     end ])
        | None => ret None
        end in
      let toFinally (g : Graph) : Graph :=
        match finallyState with
        | Some _ => updateDeferredNextStates "finally" g
        | None => g
        end in
      ret (Some
             (SubState "try"
                (("try", toFinally tryState)
                 :: match catchClauseState with
                    | Some c => [("catch", toFinally c)]
                    | None => []
                    end
                 ++ match finallyState with
                    | Some f => [("finally", f)]
                    | None => []
                    end)))
  | DebuggerStmt | EmptyStmt => ret None
  | LabelledStmt stmt => evalStmt stmt returnPass
  | WithStmt =>
      reject (SynthError Unsupported_Feature
                (Some "with statements are not yet supported by ASL"))
  | SwitchStmt =>
      reject (SynthError Unsupported_Feature
                (Some "switch statements are not yet supported in Step Functions, see https://github.com/functionless/functionless/issues/306"))
  | OtherStmt lowered => lift lowered
  end.

End Engine.

(** Induction over statements, reaching the statements of a block and
    the blocks of a [try]. *)
Section StmtInduction.
Import Engine.
Variable P : Stmt -> Prop.
Hypothesis HBlock : forall statements, Forall P statements -> P (BlockStmt statements).
Hypothesis HBreak : forall loop, P (BreakStmt loop).
Hypothesis HContinue : forall loop, P (ContinueStmt loop).
Hypothesis HReturn : forall expr, P (ReturnStmt expr).
Hypothesis HThrow : forall thrown, P (ThrowStmt thrown).
Hypothesis HTry : forall tryBlock hasTask catchClause finallyBlock,
  P tryBlock ->
  match catchClause with Some (_, block) => P block | None => True end ->
  match finallyBlock with Some (_, block) => P block | None => True end ->
  P (TryStmt tryBlock hasTask catchClause finallyBlock).
Hypothesis HDebugger : P DebuggerStmt.
Hypothesis HEmpty : P EmptyStmt.
Hypothesis HLabelled : forall stmt, P stmt -> P (LabelledStmt stmt).
Hypothesis HWith : P WithStmt.
Hypothesis HSwitch : P SwitchStmt.
Hypothesis HOther : forall lowered, P (OtherStmt lowered).


End StmtInduction.

(** ** The engine's operators: [+], unary [-] and the coercions *)

Module Operators.
Import ASLGraph Engine.

(** [ASLGraph.JsonPath | ASLGraph.LiteralValue], the type of the
    operands of [plus] and of [negateJsonPathOrLiteralValue]. *)
Inductive PathOrLiteral : Type :=
| Path (jsonPath : string)
| Literal (value : Value) (containsJsonPath : bool).

Definition toOutput (o : PathOrLiteral) : Output :=
  match o with
  | Path p => JsonPath p
  | Literal v c => LiteralValue v c
  end.

Definition isLiteral (o : PathOrLiteral) : bool := isLiteralValue (toOutput o).
Definition isLiteralStr (o : PathOrLiteral) : bool := isLiteralString (toOutput o).

Definition orDefined {A} (given : option A) (fresh : M A) : M A :=
  match given with
  | Some a => ret a
  | None => fresh
  end.

Definition jsonPathValueToString (jsonPath : string) (resultPath : option string)
    : M (Graph * string) :=
  let* heap := orDefined resultPath newHeapVariable in
  let format :=
    assignJsonPathOrIntrinsic (intrinsicJsonToString (IPath jsonPath))
      heap "str" DeferNext in
  ret (SubState "checkString"
            [ ("checkString",
               Node (ChoiceState [(ASL.isString jsonPath, Name "assign")]
                                 (Name "format")));
              ("format", default (deferredPass None) (statesOf format));
              ("assign",
               Node (PassState
                       {| InputPath := Some jsonPath; Parameters := None;
                          Result := None;
                          ResultPath := Some (Some (heap +:+ ".str"));
                          Next := Some DeferNext; End_ := false |})) ],
       heap +:+ ".str").

Definition jsonPathValueToNumber (jsonPath : string) (resultPath : option string)
    : M (Graph * string) :=
  let* heap := orDefined resultPath newHeapVariable in
  let num := heap +:+ ".num" in
  let format :=
    assignJsonPathOrIntrinsic (intrinsicStringToJson (IPath jsonPath))
      heap "num" (Name "checkStringOutput") in
  let* '(assign, _) := assignValue (JsonPath jsonPath) (Some num) in
  let* '(one, _) := assignValue (literalValue (VNumber (Num 1))) (Some num) in
  let* '(zero, _) := assignValue (literalValue (VNumber (Num 0))) (Some num) in
  let* '(null, _) := assignValue (JsonPath context_null) (Some num) in
  ret (SubState "check"
            [ ("check",
               Node (ChoiceState
                       [ (ASL.isNotPresent jsonPath, Name "null");
                         (ASL.and [Some (ASL.isString jsonPath);
                                   Some (ASL.stringEquals jsonPath "")],
                          Name "zero");
                         (ASL.isNull jsonPath, Name "zero");
                         (ASL.isString jsonPath, Name "format");
                         (ASL.isNumeric jsonPath, Name "assign");
                         (ASL.and [Some (ASL.isBoolean jsonPath);
                                   Some (ASL.booleanEquals jsonPath true)],
                          Name "one");
                         (ASL.and [Some (ASL.isBoolean jsonPath);
                                   Some (ASL.booleanEquals jsonPath false)],
                          Name "zero") ]
                       (Name "null")));
              ("format", default (deferredPass None) (statesOf format));
              ("checkStringOutput",
               Node (ChoiceState [(ASL.isNumeric num, DeferNext)] (Name "null")));
              ("assign", assign);
              ("one", one);
              ("zero", zero);
              ("null", null) ],
       heap +:+ ".num").

(** An operand as the argument of an intrinsic: the literal converted
    by the host, or the path where the coercion wrote its result. *)
Definition operand (convert : Value -> Value) (heap slot : string)
    (o : PathOrLiteral) : Intrinsic :=
  match o with
  | Literal v _ => ILiteral (convert v)
  | Path _ => IPath (heap +:+ "." +:+ slot)
  end.

Definition coerced (coerce : string -> option string -> M (Graph * string))
    (resultPath : string) (o : PathOrLiteral) : M (option Graph) :=
  match o with
  | Literal _ _ => ret None
  | Path p => let* r := coerce p (Some resultPath) in ret (Some (fst r))
  end.

Definition numericAdd (leftOut rightOut : PathOrLiteral) : M NodeResults :=
  let* heap := newHeapVariable in
  match leftOut, rightOut with
  | Literal l _, Literal r _ =>
      ret (Bare (literalValue (VNumber (Host.add (Host.Number l) (Host.Number r)))))
  | _, _ =>
      let* left := coerced jsonPathValueToNumber (heap +:+ ".str.left") leftOut in
      let* right := coerced jsonPathValueToNumber (heap +:+ ".str.right") rightOut in
      let add :=
        assignJsonPathOrIntrinsic
          (intrinsicMathAdd
             (operand (fun v => VNumber (Host.Number v)) heap "str.left.num" leftOut)
             (operand (fun v => VNumber (Host.Number v)) heap "str.right.num" rightOut))
          heap "str" DeferNext in
      ret (WithOutput
             (default (deferredPass None)
                (joinSubStates [left; right; statesOf add]))
             (jsonPath heap "str"))
  end.

Definition stringConcat (leftOut rightOut : PathOrLiteral) : M NodeResults :=
  let* heap := newHeapVariable in
  match leftOut, rightOut with
  | Literal l _, Literal r _ =>
      ret (Bare (literalValue (VString (Host.String_ l +:+ Host.String_ r))))
  | _, _ =>
      let* left := coerced jsonPathValueToString (heap +:+ ".str.left") leftOut in
      let* right := coerced jsonPathValueToString (heap +:+ ".str.right") rightOut in
      let concat :=
        assignJsonPathOrIntrinsic
          (intrinsicFormat "{}{}"
             [ operand (fun v => VString (Host.String_ v)) heap "str.left.str" leftOut;
               operand (fun v => VString (Host.String_ v)) heap "str.right.str" rightOut ])
          heap "str" DeferNext in
      ret (WithOutput
             (default (deferredPass None)
                (joinSubStates [left; right; statesOf concat]))
             (jsonPath heap "str"))
  end.

Definition isStringIfPath (o : PathOrLiteral) : option ASL.Condition :=
  match o with
  | Path p => Some (ASL.isString p)
  | Literal _ _ => None
  end.

Definition plus (leftOut rightOut : PathOrLiteral) : M NodeResults :=
  if isLiteralStr leftOut || isLiteralStr rightOut
  then stringConcat leftOut rightOut
  else if isLiteral leftOut && isLiteral rightOut
  then numericAdd leftOut rightOut
  else
    let cond := ASL.or [isStringIfPath leftOut; isStringIfPath rightOut] in
    let* concat := stringConcat leftOut rightOut in
    let* add := numericAdd leftOut rightOut in
    let* '(states, tempHeap) := conditionState cond (Some concat) (Some add) None in
    ret (WithOutput states (JsonPath tempHeap)).

(** [normalizeOutputToJsonPathOrLiteralValue], with the type of its
    result. *)
Definition normalizeToPathOrLiteral (output : Output)
    : M (option Graph * PathOrLiteral) :=
  match output with
  | JsonPath p => ret (None, Path p)
  | LiteralValue v c => ret (None, Literal v c)
  | ConditionOutput condition =>
      let* '(states, tempHeap) := conditionState condition None None None in
      ret (Some states, Path tempHeap)
  end.

(** [evalExprToJsonPathOrLiteral] of [evalContext]: the states of the
    expression and of its normalisation, and the normalised output. *)
Definition evalExprToJsonPathOrLiteral (expr : EvaluatedExpr)
    : M (list (option Graph) * PathOrLiteral) :=
  let* state := evalExpr expr in
  let* '(normalizedStates, normalizedOutput) :=
    normalizeToPathOrLiteral (getAslStateOutput state) in
  ret ([statesOf state; normalizedStates], normalizedOutput).

(** [evalContext]: the states pushed by the handler are joined with
    the handler's result, whose output is kept. *)
Definition withStates (states : list (option Graph)) (handlerState : NodeResults)
    : NodeResults :=
  match joinSubStates (states ++ [statesOf handlerState]) with
  | Some joined => WithOutput joined (getAslStateOutput handlerState)
  | None => Bare (getAslStateOutput handlerState)
  end.

(** [eval] on a binary expression with operator [+].  [constant] is
    what [evalToConstant] (of [@functionless/ast]) returns for the
    expression, and [parentName] is [toStateName(expr.parent)].  [eval]
    asks for the constant first; the second test, in the branch for
    binary expressions, repeats the call. *)
Definition evalPlus (constant : option Value) (allowUndefined : bool)
    (parentName : string) (left right : EvaluatedExpr) : M NodeResults :=
  match constant with
  | Some value =>
      match value with
      | VUndefined =>
          if allowUndefined then ret (Bare (LiteralValue value false))
          else reject (SynthError Step_Functions_does_not_support_undefined
                         (Some ("Undefined literal is not supported: "
                                +:+ parentName)))
      | VNull => ret (Bare (JsonPath context_null))
      | _ => ret (Bare (LiteralValue value false))
      end
  | None =>
      match constant with
      | Some value =>
          ret (Bare (LiteralValue (VObject [("constant", value)]) false))
      | None =>
          let* '(leftStates, leftOut) := evalExprToJsonPathOrLiteral left in
          let* '(rightStates, rightOut) := evalExprToJsonPathOrLiteral right in
          let* result := plus leftOut rightOut in
          ret (withStates (leftStates ++ rightStates) result)
      end
  end.

(** The [Pass] of [evalToNumber] that writes 1 or 0 for a condition. *)
Definition resultPass (n : Z) (temp : string) : NodeResults :=
  WithOutput
    (Node (PassState
             {| InputPath := None; Parameters := None;
                Result := Some (VNumber (Num n));
                ResultPath := Some (Some temp);
                Next := Some DeferNext; End_ := false |}))
    (JsonPath temp).

(** The literal case of [evalToNumber]:
    [typeof value === "number" ? value
     : Number.isNaN(value) ? null : Number(value)]. *)
Definition literalToNumber (value : Value) : Value :=
  match value with
  | VNumber n => VNumber n
  | _ => if Host.Number_isNaN value then VNull else VNumber (Host.Number value)
  end.

(** [evalToNumber(expr)]: the states of the expression and of the
    coercion, and the coerced output. *)
Definition evalToNumber (expr : option EvaluatedExpr)
    : M (option Graph * PathOrLiteral) :=
  match expr with
  | None => ret (None, Literal (VNumber (Num 0)) false)
  | Some expr =>
      let* state := evalExpr expr in
      let* '(exprState, output) :=
        match getAslStateOutput state with
        | ConditionOutput condition =>
            let* temp := newHeapVariable in
            let* '(states, tempHeap) :=
              conditionState condition (Some (resultPass 1 temp))
                (Some (resultPass 0 temp)) (Some temp) in
            ret (Some states, Path tempHeap)
        | JsonPath p =>
            let* '(states, num) := jsonPathValueToNumber p None in
            ret (Some states, Path num)
        | LiteralValue value _ =>
            ret (None, Literal (literalToNumber value) false)
        end in
      ret (joinSubStates [statesOf state; exprState], output)
  end.

Definition negateJsonPathOrLiteralValue (output : PathOrLiteral) : M NodeResults :=
  match output with
  | Literal VNull c => ret (Bare (LiteralValue VNull c))
  | Literal value _ =>
      ret (Bare (literalValue (VNumber (Host.neg (Host.Number value)))))
  | Path p =>
      let* heap := newHeapVariable in
      let* '(whenNaN, _) :=
        assignValue (JsonPath context_null) (Some (heap +:+ ".num")) in
      let split :=
        assignJsonPathOrIntrinsic
          (intrinsicStringSplit (intrinsicFormat "{}" [IPath p])
             (ILiteral (VString "-")))
          heap "num" DeferNext in
      let parse :=
        assignJsonPathOrIntrinsic
          (intrinsicStringToJson
             (intrinsicArrayGetItem (IPath (heap +:+ ".num")) 0))
          heap "num" DeferNext in
      let positive :=
        assignJsonPathOrIntrinsic
          (intrinsicStringToJson (intrinsicFormat "-{}" [IPath p]))
          heap "num" DeferNext in
      ret (WithOutput
             (SubState "check"
                [ ("check",
                   Node (ChoiceState
                           [ (ASL.isNull p, Name "NaN");
                             (ASL.numericLessThan p (Num 0), Name "negative") ]
                           (Name "positive")));
                  ("NaN", whenNaN);
                  ("negative",
                   default (deferredPass None)
                     (joinSubStates [statesOf split; statesOf parse]));
                  ("positive", default (deferredPass None) (statesOf positive)) ])
             (jsonPath heap "num"))
  end.

Definition negateExpr (expr : EvaluatedExpr) : M NodeResults :=
  let* '(number, numberOutput) := evalToNumber (Some expr) in
  let* negated := negateJsonPathOrLiteralValue numberOutput in
  ret (withStates [number] negated).

End Operators.

(** ** [array.filter] as a JSON Path filter expression *)

Module ArrayFilter.
Import ASLGraph Engine.

(** A parameter or binding element an identifier of the predicate
    resolves to, as [resolveRef] climbs it: [arrayIndex] is the position
    of the element when its pattern is an array binding, and [propName]
    is the name the source computes for it otherwise. *)
Inductive Binding : Type :=
| ParameterDecl (isFirstParameter : bool)
| BindingElem (parent : Binding) (arrayIndex : option nat)
    (propName : option Value).

(** [expr.lookup()] of an identifier: nothing, a parameter or binding
    element of the predicate, or a declaration outside of it. *)
Inductive Lookup : Type :=
| Unresolved
| InPredicate (ref : Binding)
| Elsewhere.

(** The expressions [toFilterCondition] tells apart.  [Constant c] is
    any expression for which [evalToConstant] returns [{constant: c}]. *)
Inductive Expr : Type :=
| Constant (constant : Value)
| BinaryExpr (left : Expr) (op : string) (right : Expr)
| UnaryExpr (op : string) (expr : Expr)
| Identifier (name : string) (lookup : Lookup)
| PropAccessExpr (expr : Expr) (name : string)
| ElementAccessExpr (expr : Expr) (element : EvaluatedExpr)
| UnsupportedExpr.

Inductive PredicateStmt : Type :=
| Return (expr : option Expr)
| NotReturn.

(** The first argument of [filter]. *)
Inductive Predicate : Type :=
| NoArgument
| NotAFunction (kindName : string)
| FunctionLike (statements : list PredicateStmt).

(** [s ? k(s) : undefined] for a string that may be [undefined]. *)
Definition whenTruthy (s : option string) (k : string -> option string)
    : option string :=
  match s with
  | Some (String _ _ as v) => k v
  | _ => None
  end.

Fixpoint resolveRef (ref : Binding) : option string :=
  match ref with
  | ParameterDecl isFirstParameter => if isFirstParameter then Some "@" else None
  | BindingElem parent arrayIndex propName =>
      match resolveRef parent with
      | Some (String _ _ as value) =>
          match arrayIndex with
          | Some i => Some (value +:+ "[" +:+ pretty i +:+ "]")
          | None =>
              match propName with
              | Some name =>
                  if Host.truthy name
                  then Some (value +:+ "['" +:+ Host.String_ name +:+ "']")
                  else None
              | None => None
              end
          end
      | value => value
      end
  end.

Definition getElementAccessConstant (value : Output) : Rejection + Value :=
  match value with
  | LiteralValue (VString s) false => inr (VString s)
  | LiteralValue (VNumber n) false => inr (VNumber n)
  | _ => inl (SynthError StepFunctions_Invalid_collection_access
                (Some "Collection element accessor must be a constant string or number"))
  end.

Definition renderOp (op : string) : string :=
  if bool_decide (op = "===") then "=="
  else if bool_decide (op = "!==") then "!="
  else op.

Definition renderConstant (constant : Value) : option string :=
  match constant with
  | VString s => Some ("'" +:+ Host.escapeQuotes s +:+ "'")
  | VArray _ | VObject _ => None
  | _ => Some (Host.String_ constant)
  end.

Fixpoint toFilterCondition (expr : Expr) : Rejection + option string :=
  match expr with
  | Constant constant => inr (renderConstant constant)
  | BinaryExpr leftExpr op rightExpr =>
      match toFilterCondition leftExpr with
      | inl err => inl err
      | inr l =>
          match toFilterCondition rightExpr with
          | inl err => inl err
          | inr r =>
              inr (whenTruthy l (fun l =>
                   whenTruthy r (fun r => Some (l +:+ renderOp op +:+ r))))
          end
      end
  | UnaryExpr op expr =>
      match toFilterCondition expr with
      | inl err => inl err
      | inr r => inr (whenTruthy r (fun r => Some (op +:+ r)))
      end
  | Identifier name lookup =>
      match lookup with
      | Unresolved => inr None
      | InPredicate ref => inr (resolveRef ref)
      | Elsewhere => inr (Some ("$." +:+ name))
      end
  | PropAccessExpr expr name =>
      match toFilterCondition expr with
      | inl err => inl err
      | inr value => inr (whenTruthy value (fun value => Some (value +:+ "." +:+ name)))
      end
  | ElementAccessExpr expr element =>
      match evaluated element with
      | inl err => inl err
      | inr state =>
          match getElementAccessConstant (getAslStateOutput state) with
          | inl err => inl err
          | inr field =>
              match toFilterCondition expr with
              | inl err => inl err
              | inr value =>
                  inr (whenTruthy value (fun value =>
                       Some (value +:+ "["
                             +:+ match field with
                                 | VNumber _ => Host.String_ field
                                 | _ => "'" +:+ Host.String_ field +:+ "'"
                                 end
                             +:+ "]")))
              end
          end
      end
  | UnsupportedExpr => inr None
  end.

Definition filterToJsonPath (valueJsonPath : string)
    (statements : list PredicateStmt) : Rejection + option string :=
  match statements with
  | [Return expr] =>
      match toFilterCondition (default (Constant VNull) expr) with
      | inl err => inl err
      | inr expression =>
          inr (whenTruthy expression (fun expression =>
               Some (valueJsonPath +:+ "[?(" +:+ expression +:+ ")]")))
      end
  | _ => inr None
  end.

(** [filterToStateOutput].  [array] is the expression [filter] is
    called on; [filterToASLGraph], the iteration skeleton
    ([iterateArrayMethod]), is taken as given. *)
Definition filterToStateOutput
    (filterToASLGraph : string -> list PredicateStmt -> M NodeResults)
    (array : EvaluatedExpr) (predicate : Predicate) : M NodeResults :=
  match predicate with
  | NoArgument =>
      reject (SynthError Invalid_Input
                (Some "the 'predicate' argument of filter must be a function or arrow expression, found: undefined"))
  | NotAFunction kindName =>
      reject (SynthError Invalid_Input
                (Some ("the 'predicate' argument of filter must be a function or arrow expression, found: "
                       +:+ kindName)))
  | FunctionLike statements =>
      let* state := evalExpr array in
      let* '(normalized, leftOutput) :=
        match getAslStateOutput state with
        | JsonPath p => ret (None, p)
        | output =>
            let* '(states, target) := assignValue output None in
            ret (Some states, target)
        end in
      let* exprState :=
        let* filtered := lift (filterToJsonPath leftOutput statements) in
        match filtered with
        | Some jsonPath => ret (Bare (JsonPath jsonPath))
        | None => filterToASLGraph leftOutput statements
        end in
      ret (Operators.withStates [statesOf state; normalized] exprState)
  end.

End ArrayFilter.

(** ** The state-name allocator *)

Module NameAllocator.

(** A JavaScript string as the sequence of its UTF-16 code units,
    which is what [length] counts and [slice] cuts. *)
Definition JsString : Type := list N.

(** A string of ASCII characters as a JavaScript string. *)
Definition ofAscii (s : string) : JsString :=
  N_of_ascii <$> list_ascii_of_string s.

(** [(name, n) => `${name} ${n}`], the format given to
    [stateNamesGenerator]. *)
Definition formatName (name : JsString) (n : nat) : JsString :=
  name ++ ofAscii (" " +:+ pretty n).

(** The first [m >= n] whose formatted name is not in [names], looking
    at [fuel] candidates at most. *)
Fixpoint firstUnused (names : gset JsString) (name : JsString) (fuel n : nat)
    : nat :=
  match fuel with
  | O => n
  | S fuel' =>
      if decide (formatName name n ∈ names)
      then firstUnused names name fuel' (S n)
      else n
  end.

(** Modelled from the spec: [UniqueNameGenerator.getUnique] of
    [@functionless/ast], whose state is the set of names it has seen:
    "if unseen, register; else append [ N] (separator space) with the
    smallest unused N.  The truncated form and all suffixed forms are
    memoized to avoid re-collision."  Numbering starts at 1, as in the
    example of [getDeclarationName]; [size names + 1] candidates always
    hold an unused one. *)
Definition getUnique (name : JsString) (names : gset JsString)
    : JsString * gset JsString :=
  if decide (name ∈ names)
  then
    let unique := formatName name (firstUnused names name (S (size names)) 1) in
    (unique, {[unique]} ∪ names)
  else (name, {[name]} ∪ names).

(** [stateName.length > 75 ? stateName.slice(0, 75) : stateName]. *)
Definition truncate (stateName : JsString) : JsString :=
  if (75 <? length stateName)%nat
  then take 75 stateName
  else stateName.

Definition createUniqueStateName (stateName : JsString) (names : gset JsString)
    : JsString * gset JsString :=
  getUnique (truncate stateName) names.

(** The names returned for a sequence of requests during one
    compilation. *)
Fixpoint allocate (requests : list JsString) (names : gset JsString)
    : list JsString :=
  match requests with
  | [] => []
  | stateName :: rest =>
      let '(unique, names') := createUniqueStateName stateName names in
      unique :: allocate rest names'
  end.

End NameAllocator.

(** ** The rules of the specification, in its own words

    Stated next to the engine so that the two can be compared. *)

Module Spec.
Import ASLGraph Engine Operators ArrayFilter.

(** "[ResultPath] equal to [$.<generated-name-for-clause>] when the
    catch declares a variable and null otherwise". *)
Definition catch_ResultPath (h : Handler) : option string :=
  match h with
  | ToCatchClause true name => Some ("$." +:+ name)
  | _ => None
  end.

(** The [Pass] that routes a thrown cause to the nearest handler. *)
Definition routed (causeJson : Value) (ResultPath : option string) : NodeState :=
  PassState {| InputPath := None; Parameters := None;
               Result := Some causeJson;
               ResultPath := Some ResultPath;
               Next := Some (Name "__catch");
               End_ := false |}.

(** The terminal [Fail] of a throw nothing handles. *)
Definition terminal (errorName : string) (causeJson : Value) : NodeState :=
  FailState errorName (JSON_stringify causeJson).

(** The handler lies in the closure of the throwing node: there is no
    function-like node around it, or the one around it contains the
    handler. *)
Definition sameClosure (node : ThrowingNode) : bool :=
  match mapOrParallelClosure node with
  | None => true
  | Some c => contains_handler c
  end.

(** "A pre-amble that parses [$.<generated-name>.Cause] from a JSON
    string into an object (via [States.StringToJson]) and overwrites the
    error variable with the parsed value": first the parse, written under
    the error variable, then the overwrite. *)
Definition preamble (errorVariableName : string) : Graph :=
  SubState "0"
    [ ("0", Node (PassState
                    {| InputPath := None;
                       Parameters :=
                         Some (Fields
                                 [("0_ParsedError.$",
                                   ICall "States.StringToJson"
                                     [IPath ("$." +:+ errorVariableName +:+ ".Cause")])]);
                       Result := None;
                       ResultPath := Some (Some ("$." +:+ errorVariableName));
                       Next := Some (Name "1"); End_ := false |}));
      ("1", Node (PassState
                    {| InputPath := Some ("$." +:+ errorVariableName +:+ ".0_ParsedError");
                       Parameters := None; Result := None;
                       ResultPath := Some (Some ("$." +:+ errorVariableName));
                       Next := Some DeferNext; End_ := false |})) ].

(** The catch clause declares a variable and the flow analysis of the
    try block finds a task state. *)
Definition needsPreamble (tryFlow_hasTask : bool) (clause : CatchClause) : bool :=
  tryFlow_hasTask && bool_decide (is_Some (variableDecl clause)).





(** The last of the parts of a joined sub-state (a state alone is its
    own last part). *)
Definition lastJoined (g : Graph) : option Graph :=
  match g with
  | Node _ => Some g
  | SubState _ states => snd <$> last states
  end.

(** The [Pass] that computes the intrinsic [name(args)] into the heap
    slot numbered [n], under the key [str]. *)
Definition compute (prefix : string) (n : nat) (name : string)
    (args : list Intrinsic) : Graph :=
  Node (PassState
          {| InputPath := None;
             Parameters := Some (Fields [("str.$", ICall name args)]);
             Result := None;
             ResultPath := Some (Some (prefix +:+ pretty n));
             Next := Some DeferNext; End_ := false |}).








(** [x => x === "a"]. *)
Definition equalsA : list PredicateStmt :=
  [Return (Some (BinaryExpr (Identifier "x" (InPredicate (ParameterDecl true)))
                   "===" (Constant (VString "a"))))].



(** What [isTruthy v] says of the value [x] stored at [v], spelled as
    the conjunction of C4. *)
Definition truthy_formula (x : option Value) : bool :=
  match x with
  | None => false
  | Some x =>
      negb (ChoiceRule.is_null x)
      && ((ChoiceRule.is_string x
             && negb (ChoiceRule.compare_values ASL.StringEquals x (VString "")))
          || (ChoiceRule.is_numeric x
                && negb (ChoiceRule.compare_values ASL.NumericEquals x (VNumber (Num 0))))
          || (ChoiceRule.is_boolean x
                && ChoiceRule.compare_values ASL.BooleanEquals x (VBool true))
          || negb (ChoiceRule.is_boolean x || ChoiceRule.is_numeric x
                   || ChoiceRule.is_string x))
  end.

(** The operator and type pairs [VALUE_COMPARISONS] leaves
    [undefined]. *)
Definition no_comparison_atom (operation : ASL.ValueComparisonOperator)
    (type : ASL.ComparedType) : bool :=
  match operation, type with
  | (ASL.OpNe | ASL.OpNeEq), _ => true
  | (ASL.OpLt | ASL.OpLe | ASL.OpGt | ASL.OpGe), ASL.boolean_t => true
  | _, _ => false
  end.

End Spec.

(** ** Sample programs *)

Module Sample.
Import ASLGraph Engine.

(** The [returnPass] of the function body: [{End: true, ResultPath: "$"}]. *)
Definition topLevel : ReturnPass :=
  {| return_ResultPath := Some (Some "$"); return_Next := None;
     return_End := true |}.

Definition literal (v : Value) : EvaluatedExpr :=
  {| isUndefinedLiteralExpr := false;
     evaluated := inr (Bare (LiteralValue v false)) |}.

Definition path (p : string) : EvaluatedExpr :=
  {| isUndefinedLiteralExpr := false; evaluated := inr (Bare (JsonPath p)) |}.

(** [throw new Error("boom")] at a node with the given surroundings. *)
Definition boom (node : ThrowingNode) : Thrown :=
  {| thrown_kind := NewExpr;
     thrown_callee := ReferenceOrIdentifier "Error";
     thrown_args := [literal (VString "boom")];
     thrown_node := node |}.

Definition boomCause : Value := VObject [("message", VString "boom")].

(** No handler and no closure around the node. *)
Definition unhandled : ThrowingNode :=
  {| mapOrParallelClosure := None; catchOrFinally := None |}.

(** Directly inside [try { ... } catch (e) { ... }]. *)
Definition inTry (name : string) : ThrowingNode :=
  {| mapOrParallelClosure := None;
     catchOrFinally := Some (ToCatchClause true name) |}.

(** Inside the catch clause of
    [try { ... } catch { throw ... } finally { ... }], whose finally
    block does not always return or throw. *)
Definition inCatchBeforeFinally (name : string) : ThrowingNode :=
  {| mapOrParallelClosure := None;
     catchOrFinally := Some (ToBlockStmt true (Some true) false name) |}.

(** A closure that is the callback [f] of [callee(f)] with the handler
    outside of it. *)
Definition callback (name : string) (onReference : bool) : Closure :=
  {| parent_isArgument := true; call_isCallExpr := true;
     callee_isPropAccessExpr := true; callee_name := name;
     receiver_isReferenceExpr := onReference; contains_handler := false |}.

(** Inside [xs.forEach(x => { throw ... })] within a [try] around the call. *)
Definition inForEachCallback (name : string) : ThrowingNode :=
  {| mapOrParallelClosure := Some (callback "forEach" false);
     catchOrFinally := Some (ToCatchClause true name) |}.

(** Inside the worker of [$SFN.map(xs, x => { throw ... })] within a
    [try] around the call. *)
Definition inMapWorker (name : string) : ThrowingNode :=
  {| mapOrParallelClosure := Some (callback "map" true);
     catchOrFinally := Some (ToCatchClause true name) |}.

(** A statement lowered to one task-like state writing to [$.heap0]. *)
Definition callTask : Stmt := OtherStmt (inr (Some (deferredPass (Some (Some "$.heap0"))))).

(** [catch (e)], with the state that binds [e] to the routed error. *)
Definition catchE : CatchClause :=
  {| variableDecl :=
       Some (inr (Some (Node (PassState
                                {| InputPath := Some "$.fnl_tmp_0";
                                   Parameters := None; Result := None;
                                   ResultPath := Some (Some "$.e");
                                   Next := Some DeferNext; End_ := false |}))));
     catch_generatedName := "fnl_tmp_0";
     catch_canThrow := false |}.

(** [return e.message]. *)
Definition returnMessage : Stmt := ReturnStmt (path "$.e.message").

(** What [catchE { return e.message }] lowers to by itself. *)
Definition catchEStates : Graph :=
  SubState "0"
    [ ("0", Node (PassState
                    {| InputPath := Some "$.fnl_tmp_0";
                       Parameters := None; Result := None;
                       ResultPath := Some (Some "$.e");
                       Next := Some (Name "1"); End_ := false |}));
      ("1", Node (PassState
                    {| InputPath := Some "$.e.message";
                       Parameters := None; Result := None;
                       ResultPath := Some (Some "$");
                       Next := None; End_ := true |})) ].

End Sample.

(** * More of the lowering engine *)

(** ** Run-time reading of a [Choice] state *)

Module Runtime.
Import ASL ASLGraph.

(** A [Choice] state at run time, after the Amazon States Language
    reference: the rules are tried in order, the first that holds gives
    the next state, [Default] is taken when none holds, and a rule that
    fails fails the state ([None]). *)
Fixpoint choose (env : ChoiceRule.Env) (Choices : list (Condition * Target))
    (Default : Target) : option Target :=
  match Choices with
  | [] => Some Default
  | (rule, next) :: rest =>
      match ChoiceRule.eval env rule with
      | Some true => Some next
      | Some false => choose env rest Default
      | None => None
      end
  end.

(** The state a label names among the states of a sub-state. *)
Fixpoint stateNamed (name : string) (states : list (string * Graph))
    : option Graph :=
  match states with
  | [] => None
  | (label, state) :: rest =>
      if bool_decide (label = name) then Some state else stateNamed name rest
  end.

End Runtime.

(** ** More of the expression lowerer *)

Module Expressions.
Import ASLGraph Engine Operators.

(** An output as the argument of an intrinsic function; a condition
    is never one. *)
Definition argument (o : Output) : Intrinsic :=
  match o with
  | JsonPath p => IPath p
  | LiteralValue v _ => ILiteral v
  | ConditionOutput _ => ILiteral VUndefined
  end.

(** [assignJsonPathOrIntrinsic] of the class: the [Pass] of
    [ASLGraph.assignJsonPathOrIntrinsic] on a fresh heap slot.
    [propertyName] defaults to ["out"] and [next] to the deferred
    next. *)
Definition assignJsonPathOrIntrinsic (jsonPathOrIntrinsic : Intrinsic)
    (propertyName : option string) (next : option Target) : M NodeResults :=
  let* tempHeap := newHeapVariable in
  ret (ASLGraph.assignJsonPathOrIntrinsic jsonPathOrIntrinsic tempHeap
         (default "out" propertyName) (default DeferNext next)).

(** [normalizeOutputToJsonPath]: the states that turn the output into
    a path, and the path. *)
Definition normalizeOutputToJsonPath (output : Output) : M (option Graph * string) :=
  match output with
  | JsonPath p => ret (None, p)
  | _ =>
      let* '(states, target) := assignValue output None in
      ret (Some states, target)
  end.

(** [evalExpr(expr, handler)]: the handler is given the output of the
    expression and returns, with its result, the states it added through
    its context; they are joined after the states of the expression and
    before those of the result. *)
Definition evalExprWith (expr : EvaluatedExpr)
    (handler : Output -> M (list (option Graph) * NodeResults)) : M NodeResults :=
  let* state := evalExpr expr in
  let* '(added, exprState) := handler (getAslStateOutput state) in
  ret (withStates (statesOf state :: added) exprState).

(** [evalExprToJsonPath(expr, handler)]. *)
Definition evalExprToJsonPathWith (expr : EvaluatedExpr)
    (handler : string -> M (list (option Graph) * NodeResults)) : M NodeResults :=
  evalExprWith expr (fun output =>
    let* '(normalized, jsonPath) := normalizeOutputToJsonPath output in
    let* '(added, result) := handler jsonPath in
    ret (normalized :: added, result)).

(** [evalExprToJsonPathOrLiteral(expr, handler)]; the handler is also
    given the output before it was normalised, which is what the
    [normalizeOutputToJsonPath()] of its context works on. *)
Definition evalExprToJsonPathOrLiteralWith (expr : EvaluatedExpr)
    (handler : Output -> PathOrLiteral -> M (list (option Graph) * NodeResults))
    : M NodeResults :=
  evalExprWith expr (fun output =>
    let* '(normalizedState, newOutput) := normalizeToPathOrLiteral output in
    let* '(added, result) := handler output newOutput in
    ret (normalizedState :: added, result)).

(** [evalContext(node, handler)]. *)
Definition evalContext (handler : M (list (option Graph) * NodeResults))
    : M NodeResults :=
  let* '(states, handlerState) := handler in
  ret (withStates states handlerState).

(** The operand of [minus] as a number: the literal converted while
    compiling, or the states of [jsonPathValueToNumber] and where they
    write. *)
Definition numberOf (out : PathOrLiteral) : M (option Graph * PathOrLiteral) :=
  match out with
  | Literal v _ => ret (None, Literal (VNumber (Host.Number v)) false)
  | Path p =>
      let* '(states, num) := jsonPathValueToNumber p None in
      ret (Some states, Path num)
  end.

Definition minus (leftOut rightOut : PathOrLiteral) : M NodeResults :=
  evalContext
    (let* '(leftNumber, leftNumberOut) := numberOf leftOut in
     match leftNumberOut with
     | Literal (VNumber NaN) _ => ret ([], Bare (literalValue VNull))
     | _ =>
         let* '(rightNumber, rightNumberOut) := numberOf rightOut in
         let* negatedRight := negateJsonPathOrLiteralValue rightNumberOut in
         let states := [leftNumber; rightNumber; statesOf negatedRight] in
         match getAslStateOutput negatedRight with
         | LiteralValue VNull c => ret (states, Bare (LiteralValue VNull c))
         | negatedRightOut =>
             let* sum :=
               assignJsonPathOrIntrinsic
                 (intrinsicMathAdd (argument (toOutput leftNumberOut))
                    (argument negatedRightOut))
                 None None in
             ret (states, sum)
         end
     end).

(** [evalToString(expr)]. *)
Definition evalToString (expr : option EvaluatedExpr) : M NodeResults :=
  match expr with
  | None => ret (Bare (LiteralValue (VString "") false))
  | Some expr =>
      evalExprToJsonPathOrLiteralWith expr (fun original output =>
        match output with
        | Path _ =>
            let* '(normalized, jsonPath) := normalizeOutputToJsonPath original in
            let* '(states, str) := jsonPathValueToString jsonPath None in
            ret ([normalized], WithOutput states (JsonPath str))
        | Literal value _ =>
            ret ([], Bare (LiteralValue (VString (Host.String_ value)) false))
        end)
  end.

(** [eval] on a call of [Boolean]. *)
Definition evalBoolean (arg : option EvaluatedExpr) : M NodeResults :=
  match arg with
  | None => ret (Bare (LiteralValue (VBool false) false))
  | Some arg =>
      evalExprWith arg (fun argOutput =>
        match argOutput with
        | JsonPath p => ret ([], Bare (ConditionOutput (ASL.isTruthy p)))
        | ConditionOutput _ => ret ([], Bare argOutput)
        | LiteralValue value _ =>
            ret ([], Bare (LiteralValue (VBool (Host.truthy value)) false))
        end)
  end.

(** The [Pass] of a branch of [typeof]. *)
Definition typeOfBranch (type tempHeap : string) : Graph :=
  Node (PassState {| InputPath := None; Parameters := None;
                     Result := Some (VString type);
                     ResultPath := Some (Some tempHeap);
                     Next := Some DeferNext; End_ := false |}).

(** [eval] on a [typeof] expression. *)
Definition evalTypeOf (expr : EvaluatedExpr) : M NodeResults :=
  evalExprWith expr (fun exprOutput =>
    match exprOutput with
    | LiteralValue value _ =>
        ret ([], Bare (LiteralValue (VString (typeof_name value)) false))
    | ConditionOutput _ =>
        ret ([], Bare (LiteralValue (VString "boolean") false))
    | JsonPath p =>
        let* tempHeap := newHeapVariable in
        ret ([],
             WithOutput
               (SubState "choose"
                  [ ("choose",
                     Node (ChoiceState
                             [ (ASL.and [Some (ASL.isPresent p); Some (ASL.isString p)],
                                Name "string");
                               (ASL.and [Some (ASL.isPresent p); Some (ASL.isBoolean p)],
                                Name "boolean");
                               (ASL.and [Some (ASL.isPresent p); Some (ASL.isNumeric p)],
                                Name "number");
                               (ASL.isPresent p, Name "object") ]
                             (Name "undefined")));
                    ("string", typeOfBranch "string" tempHeap);
                    ("boolean", typeOfBranch "boolean" tempHeap);
                    ("number", typeOfBranch "number" tempHeap);
                    ("object", typeOfBranch "object" tempHeap);
                    ("undefined", typeOfBranch "undefined" tempHeap) ])
               (JsonPath tempHeap))
    end).

(** The operators [&&], [||] and [??]. *)
Inductive LogicalOp : Type := AndAnd | OrOr | Nullish.

(** The host's [left && right], [left || right] and [left ?? right]
    on literal values. *)
Definition logical (op : LogicalOp) (left right : Value) : Value :=
  match op with
  | AndAnd => if Host.truthy left then right else left
  | OrOr => if Host.truthy left then left else right
  | Nullish =>
      match left with
      | VNull | VUndefined => right
      | _ => left
      end
  end.

(** [eval] on a binary expression whose operator is [&&], [||] or
    [??]. *)
Definition evalLogical (op : LogicalOp) (left right : EvaluatedExpr)
    : M NodeResults :=
  let* leftState := evalExpr left in
  let leftOutput := getAslStateOutput leftState in
  let* right := evalExpr right in
  let* handlerState :=
    match leftOutput with
    | LiteralValue leftValue _ =>
        match right with
        | Bare (LiteralValue rightValue _) =>
            ret (Bare (LiteralValue (logical op leftValue rightValue) false))
        | _ =>
            match op with
            | AndAnd =>
                ret (if negb (Host.truthy leftValue) then Bare leftOutput else right)
            | OrOr =>
                ret (if Host.truthy leftValue then Bare leftOutput else right)
            | Nullish =>
                ret match leftValue with
                    | VNull | VUndefined => right
                    | _ => Bare leftOutput
                    end
            end
        end
    | JsonPath p =>
        let* '(states, tempHeap) :=
          conditionState
            match op with
            | Nullish => ASL.isPresentAndNotNull p
            | AndAnd => ASL.not (ASL.isTruthy p)
            | OrOr => ASL.isTruthy p
            end
            (Some (Bare leftOutput)) (Some right) None in
        ret (WithOutput states (JsonPath tempHeap))
    | ConditionOutput leftCondition =>
        match right, op with
        | Bare (ConditionOutput rightCondition), AndAnd =>
            ret (Bare (ConditionOutput
                         (ASL.and [Some leftCondition; Some rightCondition])))
        | Bare (ConditionOutput rightCondition), OrOr =>
            ret (Bare (ConditionOutput
                         (ASL.or [Some leftCondition; Some rightCondition])))
        | _, Nullish => ret (Bare leftOutput)
        | _, _ =>
            let* '(states, tempHeap) :=
              conditionState
                match op with
                | AndAnd => ASL.not leftCondition
                | _ => leftCondition
                end
                (Some (Bare leftOutput)) (Some right) None in
            ret (WithOutput states (JsonPath tempHeap))
        end
    end in
  ret (withStates [statesOf leftState] handlerState).

End Expressions.

(** ** More of the statement lowerer *)

Module Statements.
Import ASLGraph Engine Operators Expressions.

(** An [if] statement with what follows its [else]: nothing, another
    [if], or any other statement. *)
Inductive IfStmt : Type :=
| If (when : EvaluatedExpr) (then_ : Stmt) (_else : ElseBranch)
with ElseBranch : Type :=
| NoElse
| ElseIf (stmt : IfStmt)
| Else (stmt : Stmt).

Definition when (stmt : IfStmt) : EvaluatedExpr :=
  match stmt with If when _ _ => when end.
Definition then_ (stmt : IfStmt) : Stmt :=
  match stmt with If _ then_ _ => then_ end.

(** [collect] of the [if] case: the [if]s of the chain, and its last
    [else]. *)
Fixpoint collect (curr : IfStmt) : list IfStmt * option Stmt :=
  match curr with
  | If _ _ NoElse => ([curr], None)
  | If _ _ (ElseIf next) =>
      let '(ifs, el) := collect next in (curr :: ifs, el)
  | If _ _ (Else stmt) => ([curr], Some stmt)
  end.

(** [obj[key] = value] on the entries of an object, which are kept in
    the order the keys were first set.  (The keys set below are no
    array indices, which a JavaScript object would move to the front.) *)
Fixpoint setKey {A} (key : string) (value : A) (entries : list (string * A))
    : list (string * A) :=
  match entries with
  | [] => [(key, value)]
  | (k, v) :: rest =>
      if bool_decide (k = key) then (k, value) :: rest
      else (k, v) :: setKey key value rest
  end.

(** [Object.fromEntries(entries)]. *)
Definition fromEntries {A} (entries : list (string * A)) : list (string * A) :=
  fold_left (fun object entry => setKey (fst entry) (snd entry) object) entries [].

(** [i === 0 ? "if" : `if_${i}`]. *)
Definition ifStateName (i : nat) : string :=
  match i with
  | O => "if"
  | _ => "if_" +:+ pretty i
  end.

(** [evalExprToSubState(expr, handler)]: the states of the
    expression, those the handler added, and the handler's. *)
Definition evalExprToSubState (expr : EvaluatedExpr)
    (handler : Output -> M (list (option Graph) * option Graph)) : M (option Graph) :=
  let* state := evalExpr expr in
  let* '(added, exprState) := handler (getAslStateOutput state) in
  ret (joinSubStates (statesOf state :: added ++ [exprState])).

Section Truthiness.

(** [ASLGraph.isTruthyOutput] of [./asl-graph], the condition under
    which an output is truthy, as a function of the output. *)
Variable isTruthyOutput : Output -> ASL.Condition.

(** [ifs.map((_if, i) => ...)] of the [if] case, from position [i]
    on; [count] is [ifs.length]. *)
Fixpoint ifEntries (count : nat) (els : option Stmt) (returnPass : ReturnPass)
    (i : nat) (ifs : list IfStmt) : M (list (string * Graph)) :=
  match ifs with
  | [] => ret []
  | _if :: rest =>
      let stateName := ifStateName i in
      let next :=
        if (i + 1 <? count)%nat then Name ("if_" +:+ pretty (i + 1)%nat)
        else if bool_decide (is_Some els) then Name "else"
        else DeferNext in
      let* condition := evalExpr (when _if) in
      let conditionOutput := getAslStateOutput condition in
      let* stmtStates := evalStmt (then_ _if) returnPass in
      let entry :=
        (stateName,
         SubState "condition"
           [ ("condition",
              let choice :=
                Node (ChoiceState [(isTruthyOutput conditionOutput, Name "body")]
                                  next) in
              default choice (joinSubStates [statesOf condition; Some choice]));
             ("body", default (Node (PassState (pass (Some DeferNext)))) stmtStates) ]) in
      let* entries := ifEntries count els returnPass (S i) rest in
      ret (entry :: entries)
  end.

(** [evalStmt] on an [if] statement. *)
Definition evalIfStmt (stmt : IfStmt) (returnPass : ReturnPass) : M (option Graph) :=
  let '(ifs, els) := collect stmt in
  let* ifStates := ifEntries (length ifs) els returnPass 0 ifs in
  let* elsState :=
    match els with
    | Some els => evalStmt els returnPass
    | None => ret None
    end in
  ret (Some (SubState "if"
               (setKey "else"
                  (default (Node (PassState (pass (Some DeferNext)))) elsState)
                  (fromEntries ifStates)))).

(** [evalStmt] on a [while] or [do] statement; [kindName] is the
    [kindName] of the statement. *)
Definition evalWhileOrDoStmt (kindName : string) (condition : EvaluatedExpr)
    (stmt : Stmt) (returnPass : ReturnPass) : M (option Graph) :=
  let* blockState := evalStmt stmt returnPass in
  match blockState with
  | None =>
      reject (SynthError Unexpected_Error
                (Some ("a " +:+ kindName +:+ " block must have at least one Stmt")))
  | Some blockState =>
      evalExprToSubState condition (fun conditionOutput =>
        ret ([],
             Some (SubState "check"
                     [ ("check",
                        Node (ChoiceState
                                [(isTruthyOutput conditionOutput, Name "whenTrue")]
                                DeferNext));
                       ("whenTrue", updateDeferredNextStates "check" blockState);
                       (ContinueNext, Node (PassState (pass (Some (Name "check")))));
                       (BreakNext, Node (PassState (pass (Some DeferNext)))) ])))
  end.

End Truthiness.

End Statements.

(** ** Host operations on strings and arrays *)

Module HostArrays.

(** The integer an index argument of [slice] stands for, relative to
    an array of [len] items: absent it is [otherwise], NaN is 0, a
    negative index counts from the end. *)
Definition relativeIndex (len : Z) (index : option number) (otherwise : Z) : Z :=
  match index with
  | None => otherwise
  | Some NaN => 0
  | Some (Num z) => if (z <? 0)%Z then Z.max (len + z) 0 else Z.min z len
  end.

(** [array.slice(start, end)]. *)
Definition slice {A} (array : list A) (start end_ : option number) : list A :=
  let len := Z.of_nat (length array) in
  let k := relativeIndex len start 0 in
  let final := relativeIndex len end_ len in
  take (Z.to_nat (final - k)) (drop (Z.to_nat k) array).

(** The pieces of [s] between the occurrences of a separator that is
    not empty, looked for from left to right: [skip] characters of an
    occurrence just found are still to be passed over, and [piece] is
    the piece read so far. *)
Fixpoint pieces (separator : string) (skip : nat) (piece s : string)
    : list string :=
  match s with
  | EmptyString => [piece]
  | String c s' =>
      match skip with
      | S skip' => pieces separator skip' piece s'
      | O =>
          if String.prefix separator s
          then piece :: pieces separator (String.length separator - 1) "" s'
          else pieces separator 0 (piece +:+ String c "") s'
      end
  end.

(** [s.split(separator)] for a string separator and no limit: the
    characters of [s] for the empty separator. *)
Definition split (s separator : string) : list string :=
  match separator with
  | EmptyString => (fun c => String c "") <$> list_ascii_of_string s
  | _ => pieces separator 0 "" s
  end.

(** [array.join(separator)]: null and undefined items are printed as
    the empty string. *)
Definition join (array : list Value) (separator : string) : string :=
  Host.join separator
    ((fun item => match item with
                  | VUndefined | VNull => ""
                  | _ => Host.String_ item
                  end) <$> array).

End HostArrays.

(** ** Array and string methods *)

Module Methods.
Import ASLGraph Engine Operators Expressions.

Definition isLiteralNum (o : PathOrLiteral) : bool := isLiteralNumber (toOutput o).

Definition intrinsicArrayLength (array : Intrinsic) : Intrinsic :=
  ICall "States.ArrayLength" [array].
Definition intrinsicArrayRange (start end_ step : Intrinsic) : Intrinsic :=
  ICall "States.ArrayRange" [start; end_; step].
Definition intrinsicArrayGetItemAt (array index : Intrinsic) : Intrinsic :=
  ICall "States.ArrayGetItem" [array; index].

(** An optional argument lowered by [evalExprToJsonPathOrLiteral]. *)
Definition evalOptional (expr : option EvaluatedExpr)
    : M (list (option Graph) * option PathOrLiteral) :=
  match expr with
  | Some expr =>
      let* '(states, out) := evalExprToJsonPathOrLiteral expr in
      ret (states, Some out)
  | None => ret ([], None)
  end.

(** [!out || ASLGraph.isLiteralUndefined(out) ? undefined : out]. *)
Definition unlessUndefined (out : option PathOrLiteral) : option PathOrLiteral :=
  match out with
  | Some (Literal VUndefined _) => None
  | _ => out
  end.

(** The number a literal bound of [subArray] holds. *)
Definition boundValue (out : option PathOrLiteral) : option number :=
  match out with
  | Some (Literal (VNumber n) _) => Some n
  | _ => None
  end.

(** A bound as an argument of an intrinsic, with what stands for a
    bound that is not given. *)
Definition boundOr (out : option PathOrLiteral) (otherwise : Intrinsic) : Intrinsic :=
  match out with
  | Some out => argument (toOutput out)
  | None => otherwise
  end.

(** The states of [subArray] that slice a reference when the machine
    runs.  In a [Parameters] object a key that does not end in [.$] holds
    a literal. *)
Definition subArrayStates (workingSpace : string) (normArrayOut : string)
    (startOut endOut : option PathOrLiteral) : Graph :=
  SubState "init"
    [ ("init",
       Node (PassState
               {| InputPath := None;
                  Parameters :=
                    Some (Fields
                      [ ("indices.$",
                         intrinsicArrayRange
                           (boundOr startOut (ILiteral (VNumber (Num 0))))
                           (intrinsicMathAdd
                              (boundOr endOut
                                 (intrinsicArrayLength (IPath normArrayOut)))
                              (ILiteral (VNumber (Num (-1)))))
                           (ILiteral (VNumber (Num 1))));
                        ("str", ILiteral (VString "[null")) ]);
                  Result := None;
                  ResultPath := Some (Some workingSpace);
                  Next := Some (Name "checkRange"); End_ := false |}));
      ("checkRange",
       Node (ChoiceState
               [(ASL.isPresent (workingSpace +:+ ".indices[0]"), Name "assignAndTail")]
               (Name "final")));
      ("assignAndTail",
       Node (PassState
               {| InputPath := None;
                  Parameters :=
                    Some (Fields
                      [ ("indices.$", IPath (workingSpace +:+ ".indices[1:]"));
                        ("str.$",
                         intrinsicFormat "{},{}"
                           [ IPath (workingSpace +:+ ".str");
                             intrinsicJsonToString
                               (intrinsicArrayGetItemAt (IPath normArrayOut)
                                  (IPath (workingSpace +:+ ".indices[0]"))) ]) ]);
                  Result := None;
                  ResultPath := Some (Some workingSpace);
                  Next := Some (Name "checkRange"); End_ := false |}));
      ("final",
       default (deferredPass None)
         (statesOf
            (ASLGraph.assignJsonPathOrIntrinsic
               (intrinsicStringToJson
                  (intrinsicFormat "{}]" [IPath (workingSpace +:+ ".str")]))
               workingSpace "arr" DeferNext))) ].

(** What [subArray] slices: an array literal or a reference. *)
Inductive ArrayOperand : Type :=
| ArrayLiteral (items : list Value)
| ArrayReference (jsonPath : string).

Definition arrayOperand (out : PathOrLiteral) : option ArrayOperand :=
  match out with
  | Literal (VArray items) _ => Some (ArrayLiteral items)
  | Literal _ _ => None
  | Path p => Some (ArrayReference p)
  end.

(** A bound that is a literal but no number. *)
Definition literalNotNumber (out : option PathOrLiteral) : bool :=
  match out with
  | Some out => isLiteral out && negb (isLiteralNum out)
  | None => false
  end.

(** A bound that is absent or a literal. *)
Definition literalOrAbsent (out : option PathOrLiteral) : bool :=
  match out with
  | Some out => isLiteral out
  | None => true
  end.

(** [`${n}`] for a number. *)
Definition printNumber (n : number) : string := Host.String_ (VNumber n).

(** [subArray(node, array, start, end)]. *)
Definition subArray (array : EvaluatedExpr) (start end_ : option EvaluatedExpr)
    : M NodeResults :=
  evalContext
    (let* '(arrayStates, arrayOut) := evalExprToJsonPathOrLiteral array in
     let* '(startStates, startOutTemp) := evalOptional start in
     let startOut := unlessUndefined startOutTemp in
     let* '(endStates, endOutTemp) := evalOptional end_ in
     let endOut := unlessUndefined endOutTemp in
     let states := arrayStates ++ startStates ++ endStates in
     match arrayOperand arrayOut with
     | None =>
         reject (SynthError Invalid_Input
                   (Some "Expected subArray array to be an array literal or a reference"))
     | Some operand =>
         if literalNotNumber startOut
         then reject (SynthError Invalid_Input
                        (Some "Expected subArray start to be an number or a reference"))
         else if literalNotNumber endOut
         then reject (SynthError Invalid_Input
                        (Some "Expected subArray end to be an number or a reference"))
         else if literalOrAbsent startOut && literalOrAbsent endOut
         then
           ret (states,
                Bare match operand with
                     | ArrayLiteral items =>
                         LiteralValue
                           (VArray (HostArrays.slice items (boundValue startOut)
                                      (boundValue endOut)))
                           false
                     | ArrayReference p =>
                         JsonPath
                           match boundValue startOut, boundValue endOut with
                           | Some s, Some e =>
                               p +:+ "[" +:+ printNumber s +:+ ":"
                                 +:+ printNumber e +:+ "]"
                           | Some s, None => p +:+ "[" +:+ printNumber s +:+ ":]"
                           | None, Some e => p +:+ "[:" +:+ printNumber e +:+ "]"
                           | None, None => p
                           end
                     end)
         else
           let* '(normalized, normArrayOut) :=
             normalizeOutputToJsonPath (toOutput arrayOut) in
           let* workingSpace := newHeapVariable in
           ret (states ++ [normalized],
                WithOutput (subArrayStates workingSpace normArrayOut startOut endOut)
                  (jsonPath workingSpace "arr[1:]"))
     end).

(** [eval] on a call of [split] on a string. *)
Definition evalSplit (value : EvaluatedExpr) (splitter limit : option EvaluatedExpr)
    : M NodeResults :=
  match splitter with
  | None =>
      reject (SynthError Invalid_Input
                (Some "Step Functions String Split splitter argument is required"))
  | Some splitter =>
      evalContext
        (let* '(valueStates, valueOut) := evalExprToJsonPathOrLiteral value in
         let* '(splitterStates, splitterOut) := evalExprToJsonPathOrLiteral splitter in
         if isLiteral valueOut && negb (isLiteralStr valueOut)
         then reject (SynthError Invalid_Input
                        (Some "Step Functions String Split must be on a reference or string literal."))
         else if isLiteral splitterOut && negb (isLiteralStr splitterOut)
         then reject (SynthError Invalid_Input
                        (Some "Step Functions String Split splitter argument must be a reference or string literal."))
         else
           match valueOut, splitterOut with
           | Literal (VString s) _, Literal (VString separator) _ =>
               let* '(limitStates, limitOut) := evalOptional limit in
               match limitOut with
               | Some limitOut =>
                   if negb (isLiteralNum limitOut)
                   then reject (SynthError Unsupported_Feature
                                  (Some "Step Function String Split limit must be a constant number"))
                   else reject (SynthError Unsupported_Feature
                                  (Some "String Split limit argument is not supported Step Functions"))
               | None =>
                   ret (valueStates ++ splitterStates ++ limitStates,
                        Bare (literalValue
                                (VArray (VString <$> HostArrays.split s separator))))
               end
           | _, _ =>
               let* split :=
                 assignJsonPathOrIntrinsic
                   (intrinsicStringSplit (argument (toOutput valueOut))
                      (argument (toOutput splitterOut)))
                   None None in
               ret (valueStates ++ splitterStates, split)
           end)
  end.

(** [joinToStateOutput]; [joinAtRunTime] stands for the states that
    join a reference when the machine runs, which hold a [Map] state. *)
Definition joinToStateOutput
    (joinAtRunTime : string -> PathOrLiteral -> M NodeResults)
    (value : EvaluatedExpr) (separatorArg : option EvaluatedExpr) : M NodeResults :=
  evalContext
    (let* valueState := evalExpr value in
     let valueOutput := getAslStateOutput valueState in
     let* '(separatorStates, separatorOutput) := evalOptional separatorArg in
     let separator :=
       match separatorOutput with
       | Some (Literal VUndefined _) | None => Literal (VString ",") false
       | Some out => out
       end in
     let states := statesOf valueState :: separatorStates in
     if match valueOutput with
        | ConditionOutput _ => true
        | LiteralValue (VArray _) _ => false
        | LiteralValue _ _ => true
        | JsonPath _ => false
        end
     then reject (SynthError Unexpected_Error
                    (Some "Expected join to be performed on a variable or array constant"))
     else if isLiteral separator && negb (isLiteralStr separator)
     then reject (SynthError Unexpected_Error
                    (Some "Expected join separator to be missing, undefined, a string, or a variable"))
     else
       match valueOutput, separator with
       | LiteralValue (VArray items) _, Literal (VString s) _ =>
           ret (states,
                Bare (LiteralValue (VString (HostArrays.join items s)) false))
       | _, _ =>
           let* '(normalized, valueJsonPath) := normalizeOutputToJsonPath valueOutput in
           let* joined := joinAtRunTime valueJsonPath separator in
           ret (states ++ [normalized], joined)
       end).

(** The operators [++] and [--]. *)
Inductive UpdateOp : Type := PlusPlus | MinusMinus.

(** [eval] on a prefix ([isUnaryExpr]) or postfix [++] or [--];
    [isVariableReference] is what the guard of that name says of the
    operand. *)
Definition evalUpdate (op : UpdateOp) (isUnaryExpr isVariableReference : bool)
    (operand : EvaluatedExpr) : M NodeResults :=
  if negb isVariableReference
  then reject (SynthError Unexpected_Error
                 (Some "Expected left side of assignment to be a variable."))
  else
    evalExprWith operand (fun output =>
      match output with
      | JsonPath p =>
          let* mutateResult :=
            assignJsonPathOrIntrinsic
              (intrinsicMathAdd (IPath p)
                 (ILiteral (VNumber (Num match op with
                                         | PlusPlus => 1
                                         | MinusMinus => -1
                                         end))))
              None None in
          if isUnaryExpr
          then
            let* '(update, _) :=
              assignValue (getAslStateOutput mutateResult) (Some p) in
            ret ([],
                 WithOutput
                   (default update
                      (joinSubStates [statesOf mutateResult; Some update]))
                   (getAslStateOutput mutateResult))
          else
            let* '(assignResult, saved) := assignValue output None in
            let* '(update, _) :=
              assignValue (getAslStateOutput mutateResult) (Some p) in
            ret ([],
                 WithOutput
                   (default update
                      (joinSubStates
                         [Some assignResult; statesOf mutateResult; Some update]))
                   (JsonPath saved))
      | LiteralValue value _ =>
          reject (SynthError Unexpected_Error
                    (Some ("Expected assignment to target a variable, found: "
                           +:+ Host.String_ value)))
      | ConditionOutput _ =>
          reject (SynthError Unexpected_Error
                    (Some "Expected assignment to target a variable, found: boolean"))
      end).

End Methods.

(** ** Template literals *)

Module Templates.
Import ASLGraph Engine Operators Expressions.



(** The expression of a span as [this.eval] lowers it: a method of
    the compiler, which may take heap slots of its own before it returns
    or throws. *)
Definition Lowering : Type := M NodeResults.





Section Escape.

(** [ASLGraph.escapeFormatLiteral] of [./asl-graph]: how a literal is
    written into the format string of [States.Format]. *)
Variable escapeFormatLiteral : Output -> string.


End Escape.

End Templates.

(** ** The variable-name allocator *)

Module VariableNames.

(** [(name, n) => `${name}__${n}`], the format given to
    [variableNamesGenerator]. *)
Definition formatName (name : string) (n : nat) : string :=
  name +:+ "__" +:+ pretty n.

(** The first [m >= n] whose formatted name is not in [names], looking
    at [fuel] candidates at most. *)
Fixpoint firstUnused (names : gset string) (name : string) (fuel n : nat) : nat :=
  match fuel with
  | O => n
  | S fuel' =>
      if decide (formatName name n ∈ names)
      then firstUnused names name fuel' (S n)
      else n
  end.

(** Modelled from the spec: [UniqueNameGenerator.getUnique] of
    [@functionless/ast] with the format of variable names: "on first
    sight of a declaration, use the identifier verbatim; on collision,
    append [__N]" ([name], [name__1], [name__2], ...), every name handed
    out being registered. *)
Definition getUnique (name : string) (names : gset string) : string * gset string :=
  if decide (name ∈ names)
  then
    let unique := formatName name (firstUnused names name (S (size names)) 1) in
    (unique, {[unique]} ∪ names)
  else (name, {[name]} ∪ names).

(** The state of the allocator: the names [variableNamesGenerator] has
    handed out, and [variableNamesMap], keyed by the identity of the
    declaration node. *)
Record Names : Type := {
  generated : gset string;
  variableNamesMap : gmap nat string;
}.

Definition initial : Names := {| generated := ∅; variableNamesMap := ∅ |}.

(** A declaration: the identity of its node and [binding.name.name]. *)
Record Declaration : Type := {
  node : nat;
  name : string;
}.

(** [getDeclarationName(binding)]: the name kept for the declaration
    when there is one that is not the empty string, else a new unique
    name, kept from now on. *)
Definition getDeclarationName (binding : Declaration) (names : Names)
    : option string * Names :=
  let names' :=
    match variableNamesMap names !! node binding with
    | Some (String _ _) => names
    | _ =>
        let '(unique, generated') := getUnique (name binding) (generated names) in
        {| generated := generated';
           variableNamesMap := <[node binding := unique]> (variableNamesMap names) |}
    end in
  (variableNamesMap names' !! node binding, names').

(** What [identifier.lookup()] finds. *)
Inductive Reference : Type :=
| NotFound
| NamedDeclaration (decl : Declaration)
    (* a binding element, parameter or variable declaration whose name
       is an identifier *)
| OtherNode.

(** [getIdentifierName(identifier)]; [identifierName] is
    [identifier.name]. *)
Definition getIdentifierName (identifierName : string) (ref : Reference)
    (names : Names) : Engine.Rejection + (option string * Names) :=
  match ref with
  | NamedDeclaration decl => inr (getDeclarationName decl names)
  | _ => inl (Engine.ReferenceError (identifierName +:+ " is not defined"))
  end.

(** The names returned for a sequence of requests during one
    compilation. *)
Fixpoint declare (bindings : list Declaration) (names : Names)
    : list (option string) :=
  match bindings with
  | [] => []
  | binding :: rest =>
      let '(unique, names') := getDeclarationName binding names in
      unique :: declare rest names'
  end.

(** What the allocator keeps true of [variableNamesMap]: the names it
    holds were handed out by the generator, no two declarations hold the
    same name, and no name is empty. *)
Definition consistent (names : Names) : Prop :=
  (forall k n, variableNamesMap names !! k = Some n -> n ∈ generated names)
  /\ (forall k1 k2 n, variableNamesMap names !! k1 = Some n ->
                      variableNamesMap names !! k2 = Some n -> k1 = k2)
  /\ (forall k n, variableNamesMap names !! k = Some n -> n <> "").

End VariableNames.

(** ** The binding resolver *)

Module Bindings.
Import ASLGraph Engine Operators Expressions.

(** The members of [ErrorCodes] that the binding resolver alone
    raises. *)
Inductive BindingCode : Type :=
| StepFunctions_does_not_support_destructuring_object_with_rest
| StepFunctions_property_names_must_be_constant.

(** What the binding resolver raises: what the engine raises, or a
    [SynthError] with one of its own codes and no message. *)
Inductive BindingRejection : Type :=
| Raised (err : Rejection)
| SynthErrorOf (code : BindingCode).

(** A method of the binding resolver. *)
Definition B (A : Type) : Type := nat -> BindingRejection + (A * nat).

Definition retB {A} (a : A) : B A := fun heapCounter => inr (a, heapCounter).
Definition rejectB {A} (err : BindingRejection) : B A := fun _ => inl err.
Definition bindB {A C} (m : B A) (k : A -> B C) : B C :=
  fun heapCounter =>
    match m heapCounter with
    | inl err => inl err
    | inr (a, heapCounter') => k a heapCounter'
    end.

(** A method of the engine called by the binding resolver. *)
Definition engine {A} (m : M A) : B A :=
  fun heapCounter =>
    match m heapCounter with
    | inl err => inl (Raised err)
    | inr r => inr r
    end.

Notation "'let+' x ':=' m 'in' k" := (bindB m (fun x => k))
  (at level 10, x name, m at level 100, k at level 200).
Notation "'let+' ' p ':=' m 'in' k" := (bindB m (fun x => let 'p := x in k))
  (at level 10, p pattern, m at level 100, k at level 200).

(** [applyDefaultValue(value, defaultValueExpression)].  The value it
    goes on with is an object in every case, so the test that guards its
    rejection ([!updatedValue], or [updatedValue === undefined] for a
    literal) never holds. *)
Definition applyDefaultValue (value : Output) (defaultValueExpression : EvaluatedExpr)
    : M NodeResults :=
  let* defaultValueState := evalExpr defaultValueExpression in
  let defaultValue := getAslStateOutput defaultValueState in
  match value with
  | LiteralValue VUndefined _ => ret defaultValueState
  | LiteralValue _ _ => ret (Bare value)
  | ConditionOutput condition =>
      let* '(states, tempHeap) := conditionState condition None None None in
      ret (WithOutput states (JsonPath tempHeap))
  | JsonPath p =>
      let* temp := newHeapVariable in
      let* '(assignValue_, _) := assignValue value (Some temp) in
      let* '(assignDefault, _) := assignValue defaultValue (Some temp) in
      ret (WithOutput
             (SubState "check"
                [ ("check",
                   Node (ChoiceState [(ASL.isPresent p, Name "value")]
                                     (Name "default")));
                  ("value", assignValue_);
                  ("default",
                   default assignDefault
                     (joinSubStates [statesOf defaultValueState; Some assignDefault])) ])
             (JsonPath temp))
  end.

Inductive PatternKind : Type := ObjectBinding | ArrayBinding.

(** A binding name: an identifier, with what [getIdentifierName]
    returns for it (the unique name of its declaration, or the
    [ReferenceError] it raises), or an object or array binding pattern.
    A binding of a pattern is an omitted expression or a binding element;
    [propertyName] is the constant the source computes from
    [binding.propertyName ?? binding.name], when it finds one. *)
Inductive BindingName : Type :=
| Identifier (name : Rejection + string)
| BindingPattern (kind : PatternKind) (bindings : list Binding)
with Binding : Type :=
| OmittedExpr
| BindingElem (name : BindingName) (rest : bool) (propertyName : option Value)
    (initializer : option EvaluatedExpr).

(** [pattern.bindings.find((b) => isBindingElem(b) && b.rest)] finds
    something. *)
Definition hasRest (bindings : list Binding) : bool :=
  existsb (fun binding => match binding with
                          | BindingElem _ rest _ _ => rest
                          | OmittedExpr => false
                          end) bindings.

(** [object[key]] on the fields of an object literal, for its own
    properties. *)
Fixpoint property (key : string) (fields : list (string * Value)) : Value :=
  match fields with
  | [] => VUndefined
  | (k, v) :: rest => if bool_decide (k = key) then v else property key rest
  end.

(** The value the binding at position [i] of a pattern is bound to. *)
Definition elementValue (kind : PatternKind) (value : Output) (i : nat)
    (propertyName : option Value) : B Output :=
  match kind with
  | ArrayBinding =>
      match value with
      | JsonPath p => retB (JsonPath (p +:+ "[" +:+ pretty i +:+ "]"))
      | LiteralValue (VArray items) c =>
          retB (LiteralValue (default VUndefined (items !! i)) c)
      | _ =>
          rejectB (Raised (SynthError Invalid_Input
                             (Some "Expected array binding pattern to be on a reference path or array literal.")))
      end
  | ObjectBinding =>
      match propertyName with
      | Some (VString (String _ _ as propertyName)) =>
          match value with
          | JsonPath p => retB (JsonPath (p +:+ "['" +:+ propertyName +:+ "']"))
          | LiteralValue (VObject fields) c =>
              retB (LiteralValue (property propertyName fields) c)
          | _ =>
              rejectB (Raised (SynthError Invalid_Input
                                 (Some "Expected object binding pattern to be on a reference path or object literal")))
          end
      | _ => rejectB (SynthErrorOf StepFunctions_property_names_must_be_constant)
      end
  end.

(** The value the rest element of an array pattern with [count]
    bindings is bound to. *)
Definition restValue (value : Output) (count : nat) : B Output :=
  match value with
  | JsonPath p => retB (JsonPath (p +:+ "[" +:+ pretty (count - 1)%nat +:+ ":]"))
  | LiteralValue (VArray items) c =>
      retB (LiteralValue
              (VArray (HostArrays.slice items
                         (Some (Num (Z.of_nat count - 1))) None)) c)
  | _ =>
      rejectB (Raised (SynthError Invalid_Input
                         (Some "Expected array binding pattern to be on a reference path or array literal.")))
  end.

Section Callbacks.

(** [this.evalAssignment], as the callbacks below call it. *)
Variable evalAssignment : BindingName -> Output -> B (option Graph).

(** The callback of [pattern.bindings.map((binding, i) => ...)]. *)
Definition assignBinding (kind : PatternKind) (value : Output) (i : nat)
    (binding : Binding) : B (option Graph) :=
  match binding with
  | OmittedExpr => retB None
  | BindingElem name rest propertyName initializer =>
      if rest then retB None
      else
        let+ updatedValue := elementValue kind value i propertyName in
        match initializer with
        | Some initializer =>
            let+ valueStatesWithDefault :=
              engine (applyDefaultValue updatedValue initializer) in
            let+ assignStates :=
              evalAssignment name (getAslStateOutput valueStatesWithDefault) in
            retB (joinSubStates [statesOf valueStatesWithDefault; assignStates])
        | None => evalAssignment name updatedValue
        end
  end.

(** [pattern.bindings.map(...)], from position [i] on. *)
Fixpoint assignBindings (kind : PatternKind) (value : Output) (i : nat)
    (bindings : list Binding) : B (list (option Graph)) :=
  match bindings with
  | [] => retB []
  | binding :: bindings' =>
      let+ assignment := assignBinding kind value i binding in
      let+ assignments := assignBindings kind value (S i) bindings' in
      retB (assignment :: assignments)
  end.

(** [restState]: the assignment of the first rest element of a pattern
    with [count] bindings, if it has one. *)
Fixpoint assignRest (value : Output) (count : nat) (bindings : list Binding)
    : B (option Graph) :=
  match bindings with
  | [] => retB None
  | BindingElem name true _ _ :: _ =>
      let+ rest := restValue value count in
      evalAssignment name rest
  | _ :: bindings' => assignRest value count bindings'
  end.

End Callbacks.

(** [evalAssignment(pattern, value)]. *)
Fixpoint evalAssignment (pattern : BindingName) (value : Output) {struct pattern}
    : B (option Graph) :=
  match pattern with
  | Identifier name =>
      match name with
      | inl err => rejectB (Raised err)
      | inr name =>
          let+ '(states, _) := engine (assignValue value (Some ("$." +:+ name))) in
          retB (Some states)
      end
  | BindingPattern kind bindings =>
      if hasRest bindings
         && match kind with ObjectBinding => true | ArrayBinding => false end
      then rejectB (SynthErrorOf
                      StepFunctions_does_not_support_destructuring_object_with_rest)
      else
        let+ assignments := assignBindings evalAssignment kind value 0 bindings in
        let+ restState := assignRest evalAssignment value (length bindings) bindings in
        retB (joinSubStates (assignments ++ [restState]))
  end.

(** [evalDecl(decl, initialValue)]; [name] is [decl.name] and
    [initializer] is [decl.initializer]. *)
Definition evalDecl (name : BindingName) (initializer : option EvaluatedExpr)
    (initialValue : option Output) : B (option Graph) :=
  match initialValue, initializer with
  | Some initialValue, _ => evalAssignment name initialValue
  | None, None => retB None
  | None, Some initializer =>
      let+ state := engine (evalExpr initializer) in
      let+ exprState := evalAssignment name (getAslStateOutput state) in
      retB (joinSubStates [statesOf state; exprState])
  end.

End Bindings.

(** ** The [for] statement *)

Module Loops.
Import ASLGraph Engine Operators Bindings.

(** A declaration of a [VariableDeclList]. *)
Record VariableDecl : Type := {
  decl_name : BindingName;
  decl_initializer : option EvaluatedExpr;
}.

(** [stmt.initializer.decls.map((x) => this.evalDecl(x))]. *)
Fixpoint evalDecls (decls : list VariableDecl) : B (list (option Graph)) :=
  match decls with
  | [] => retB []
  | decl :: decls' =>
      let+ state := evalDecl (decl_name decl) (decl_initializer decl) None in
      let+ states := evalDecls decls' in
      retB (state :: states)
  end.

(** [this.eval] on an expression a [for] statement may leave out. *)
Definition evalOptionalExpr (expr : option EvaluatedExpr) : B (option NodeResults) :=
  match expr with
  | Some expr => let+ state := engine (evalExpr expr) in retB (Some state)
  | None => retB None
  end.

(** The state [check] of a [for] statement. *)
Definition checkState (condStates : option NodeResults) : Graph :=
  match condStates with
  | Some condStates =>
      let check :=
        match getAslStateOutput condStates with
        | ConditionOutput condition =>
            Node (ChoiceState [(condition, Name "body")] (Name "exit"))
        | JsonPath jsonPath =>
            Node (ChoiceState [(ASL.isTruthy jsonPath, Name "body")] (Name "exit"))
        | LiteralValue value _ =>
            if Host.truthy value
            then Node (PassState (pass (Some (Name "body"))))
            else Node (PassState (pass (Some (Name "exit"))))
        end in
      default check (joinSubStates [statesOf condStates; Some check])
  | None => Node (PassState (pass (Some (Name "body"))))
  end.

(** [evalStmt] on a [for] statement whose initializer is a
    [VariableDeclList] or is left out.  (With an expression as
    initializer the source hands an output to [joinSubStates]; that case
    is not covered.)  The handler of [evalContextToSubState] adds no
    state to its context, so what it returns is the statement's
    lowering. *)
Definition evalForStmt (initializer : option (list VariableDecl))
    (condition incrementor : option EvaluatedExpr) (stmt : Stmt)
    (returnPass : ReturnPass) : B (option Graph) :=
  let+ body := engine (evalStmt stmt returnPass) in
  let+ initializers :=
    match initializer with
    | Some decls => evalDecls decls
    | None => retB [None]
    end in
  let+ condStates := evalOptionalExpr condition in
  let+ increment := evalOptionalExpr incrementor in
  retB (joinSubStates
          [ joinSubStates
              (initializers
               ++ [ Some (SubState "check"
                     [ ("check", checkState condStates);
                       ("body",
                        updateDeferredNextStates "increment"
                          (default (Node (PassState (pass (Some DeferNext)))) body));
                       ("increment",
                        updateDeferredNextStates "check"
                          match increment with
                          | Some (WithOutput states _) => states
                          | _ => Node (PassState (pass (Some DeferNext)))
                          end);
                       ("exit", Node (PassState (pass (Some DeferNext))));
                       (ContinueNext, Node (PassState (pass (Some (Name "check")))));
                       (BreakNext, Node (PassState (pass (Some (Name "exit"))))) ]) ]) ]).

End Loops.

(** ** The heap *)

Module Heap.
Import Engine.

(** [n] calls of [newHeapVariable], one after the other. *)
Fixpoint newHeapVariables (n : nat) : M (list string) :=
  match n with
  | O => ret []
  | S n' =>
      let* variable := newHeapVariable in
      let* variables := newHeapVariables n' in
      ret (variable :: variables)
  end.

End Heap.

Module Expected.
Import ASLGraph Engine Operators Expressions.

(** [typeof] of what a path holds at run time; a missing path reads as
    [undefined]. *)
Definition typeof_at (x : option Value) : string :=
  from_option typeof_name "undefined" x.

(** Whether JavaScript returns the left operand of [left op right],
    for what a path holds at run time. *)
Definition keepsLeft (op : LogicalOp) (x : option Value) : bool :=
  match op with
  | AndAnd => negb (ChoiceRule.truthy x)
  | OrOr => ChoiceRule.truthy x
  | Nullish =>
      match x with
      | None | Some VNull | Some VUndefined => false
      | Some _ => true
      end
  end.

(** The branch of [jsonPathValueToNumber] for what the path holds. *)
Definition numberBranch (x : option Value) : string :=
  match x with
  | Some VNull | Some (VBool false) | Some (VString "") => "zero"
  | Some (VBool true) => "one"
  | Some (VNumber _) => "assign"
  | Some (VString _) => "format"
  | _ => "null"
  end.

(** What that branch assigns: the number itself, the literal
    [Number(x)] of a null, a boolean or the empty string, and the
    engine's null (its NaN) otherwise.  A string that is not empty is
    parsed when the machine runs. *)
Definition numberAssigned (jsonPath : string) (x : option Value) : Output :=
  match x with
  | Some (VNumber _) => JsonPath jsonPath
  | Some ((VNull | VBool _ | VString "") as v) => literalValue (VNumber (Host.Number v))
  | _ => JsonPath context_null
  end.

(** The heap slots an operand of [minus] takes by itself. *)
Definition slots (o : PathOrLiteral) : nat :=
  match o with
  | Path _ => 1
  | Literal _ _ => 0
  end.

(** The [Pass] that assigns a path or a literal to a path. *)
Definition assigns (value : Output) (target : string) : Graph :=
  Node (PassState
          (passWithInput
             {| InputPath := None; Parameters := None; Result := None;
                ResultPath := Some (Some target);
                Next := Some DeferNext; End_ := false |}
             value)).

(** The states that write an output to a path: nothing but a [Pass]
    that goes on when the output is that path already, an assignment of
    a path or a literal, and for a condition a [Choice] between the
    assignments of [true] and [false]. *)
Definition writes (output : Output) (target : string) : Graph :=
  match output with
  | JsonPath p =>
      if bool_decide (p = target)
      then Node (PassState (pass (Some DeferNext)))
      else assigns output target
  | LiteralValue _ _ => assigns output target
  | ConditionOutput condition =>
      SubState "default"
        [ ("default", Node (ChoiceState [(condition, Name "true")] (Name "false")));
          ("true", assigns (LiteralValue (VBool true) false) target);
          ("false", assigns (LiteralValue (VBool false) false) target) ]
  end.

(** A branch of [conditionState]: the states of the operand, then the
    states that write its output. *)
Definition branch (state : option NodeResults) (otherwise : bool)
    (target : string) : Graph :=
  let last :=
    writes match state with
           | Some r => getAslStateOutput r
           | None => LiteralValue (VBool otherwise) false
           end target in
  default last (joinSubStates [state ≫= statesOf; Some last]).




(** A literal operand is a value the host's [Number] is modelled
    exactly on. *)
Definition converted (o : PathOrLiteral) : bool :=
  match o with
  | Path _ => true
  | Literal v _ => Host.converts v
  end.

(** A literal operand is a value the host's [String] and [Number] are
    modelled exactly on. *)
Definition exact (o : PathOrLiteral) : bool :=
  match o with
  | Path _ => true
  | Literal v _ => Host.prints v && Host.converts v
  end.

End Expected.

Module ExpectedMethods.
Import ASLGraph Engine Operators Expressions Methods.

(** A bound of [slice] given as a literal number, or not given. *)
Definition bound (n : option number) : option EvaluatedExpr :=
  (fun n => Sample.literal (VNumber n)) <$> n.

(** The JSON Path slice [p[start:end]]. *)
Definition slicePath (p : string) (start end_ : option number) : string :=
  match start, end_ with
  | Some s, Some e => p +:+ "[" +:+ printNumber s +:+ ":" +:+ printNumber e +:+ "]"
  | Some s, None => p +:+ "[" +:+ printNumber s +:+ ":]"
  | None, Some e => p +:+ "[:" +:+ printNumber e +:+ "]"
  | None, None => p
  end.

End ExpectedMethods.

Module ExpectedTemplates.
Import ASLGraph Engine Operators Expressions Templates.


(** The heap slots given to the outputs that are no literals, in the
    order of the spans: each is the counter its expression leaves. *)
Fixpoint slots (spans : list (Lowering * string)) (h : nat) : list nat :=
  match spans with
  | [] => []
  | (expr, _) :: rest =>
      match expr h with
      | inr (r, h') =>
          if isLiteralValue (getAslStateOutput r)
          then slots rest h'
          else h' :: slots rest (S h')
      | inl _ => []
      end
  end.


(** The texts the spans add to the format string: for each span a
    placeholder or the escaped literal, then the escaped text after the
    expression. *)
Fixpoint spanFormats (escapeFormatLiteral : Output -> string)
    (spans : list (Lowering * string)) (h : nat) : list string :=
  match spans with
  | [] => []
  | (expr, text) :: rest =>
      match expr h with
      | inr (r, h') =>
          match getAslStateOutput r with
          | LiteralValue v c => escapeFormatLiteral (LiteralValue v c)
          | _ => "{}"
          end
          :: escapeFormatLiteral (LiteralValue (VString text) false)
          :: spanFormats escapeFormatLiteral rest
               (if isLiteralValue (getAslStateOutput r) then h' else S h')
      | inl _ => []
      end
  end.

(** The format string of a template. *)
Definition format (escapeFormatLiteral : Output -> string) (head : string)
    (spans : list (Lowering * string)) (h : nat) : string :=
  Host.join ""
    (escapeFormatLiteral (LiteralValue (VString head) false)
     :: spanFormats escapeFormatLiteral spans h).




(** An expression that lowers to a literal and takes no heap slot. *)
Definition constant (v : Value) : Lowering := ret (Bare (LiteralValue v false)).


End ExpectedTemplates.

Module ExpectedBindings.
Import ASLGraph Bindings.

(** The states of a graph, in the order of its keys. *)
Fixpoint leaves (g : Graph) : list NodeState :=
  match g with
  | Node s => [s]
  | SubState _ states => flat_map (fun entry => leaves (snd entry)) states
  end.

(** A state without where it goes next. *)
Definition withoutNext (s : NodeState) : NodeState :=
  match s with
  | PassState f =>
      PassState {| InputPath := InputPath f; Parameters := Parameters f;
                   Result := Result f; ResultPath := ResultPath f;
                   Next := None; End_ := End_ f |}
  | FailState e c => FailState e c
  | ChoiceState choices _ =>
      ChoiceState (map (fun c => (fst c, DeferNext)) choices) DeferNext
  end.

(** The states of what a lowering returns, in order, without where each
    goes next. *)
Definition statesIn (g : option Graph) : list NodeState :=
  match g with
  | Some g => map withoutNext (leaves g)
  | None => []
  end.

(** The [Pass] that copies what is at [from] to [to], without its
    [Next]. *)
Definition copy (read : string * string) : NodeState :=
  PassState {| InputPath := Some (fst read); Parameters := None; Result := None;
               ResultPath := Some (Some (snd read)); Next := None;
               End_ := false |}.

(** The path of the element a binding at position [i] takes from the
    value at [p]. *)
Definition elementPath (kind : PatternKind) (p : string) (i : nat)
    (propertyName : option Value) : string :=
  match kind with
  | ArrayBinding => p +:+ "[" +:+ pretty i +:+ "]"
  | ObjectBinding =>
      p +:+ "['"
        +:+ match propertyName with Some (VString s) => s | _ => "" end
        +:+ "']"
  end.

Section Reads.

Variable reads : BindingName -> string -> list (string * string).

Fixpoint readsOfBindings (kind : PatternKind) (p : string) (i : nat)
    (bindings : list Binding) : list (string * string) :=
  match bindings with
  | [] => []
  | binding :: bindings' =>
      match binding with
      | BindingElem name false propertyName _ =>
          reads name (elementPath kind p i propertyName)
      | _ => []
      end ++ readsOfBindings kind p (S i) bindings'
  end.

Fixpoint readsOfRest (p : string) (count : nat) (bindings : list Binding)
    : list (string * string) :=
  match bindings with
  | [] => []
  | BindingElem name true _ _ :: _ =>
      reads name (p +:+ "[" +:+ pretty (count - 1)%nat +:+ ":]")
  | _ :: bindings' => readsOfRest p count bindings'
  end.

End Reads.

(** What a pattern bound to the value at [p] reads and where it puts
    it: for each identifier of the pattern, in the order of the pattern
    and the rest element last, the path of its element below [p] and the
    variable of its declaration. *)
Fixpoint reads (pattern : BindingName) (p : string) : list (string * string) :=
  match pattern with
  | Identifier (inr name) => [(p, "$." +:+ name)]
  | Identifier (inl _) => []
  | BindingPattern kind bindings =>
      readsOfBindings reads kind p 0 bindings
      ++ readsOfRest reads p (length bindings) bindings
  end.

(** A pattern of declared identifiers without default values, whose
    object patterns have constant, non-empty property names and no rest
    element. *)
Fixpoint plain (pattern : BindingName) : bool :=
  match pattern with
  | Identifier name => match name with inr _ => true | inl _ => false end
  | BindingPattern kind bindings =>
      forallb (fun binding =>
                 match binding with
                 | OmittedExpr => true
                 | BindingElem name rest propertyName initializer =>
                     plain name
                     && match initializer with None => true | Some _ => false end
                     && match kind with
                        | ArrayBinding => true
                        | ObjectBinding =>
                            negb rest
                            && match propertyName with
                               | Some (VString (String _ _)) => true
                               | _ => false
                               end
                        end
                 end) bindings
  end.

(** A pattern bound to a reference is lowered without a heap slot, to
    the copies of [reads]. *)
Definition copiesReads (name : BindingName) : Prop :=
  forall (p : string) (h : nat),
    plain name = true ->
    exists g : option Graph,
      evalAssignment name (JsonPath p) h = inr (g, h)
      /\ statesIn g = map copy (reads name p).

Section BindingInduction.

Variable P : BindingName -> Prop.
Hypothesis HIdentifier : forall name, P (Identifier name).

(** [P] holds of the names a binding binds. *)
Definition boundNames (binding : Binding) : Prop :=
  match binding with
  | OmittedExpr => True
  | BindingElem name _ _ _ => P name
  end.

Hypothesis HPattern : forall kind bindings,
  Forall boundNames bindings -> P (BindingPattern kind bindings).

Fixpoint BindingName_nested_ind (pattern : BindingName) : P pattern :=
  match pattern with
  | Identifier name => HIdentifier name
  | BindingPattern kind bindings =>
      HPattern kind bindings
        ((fix each (l : list Binding) : Forall boundNames l :=
            match l with
            | [] => @List.Forall_nil _ boundNames
            | binding :: l' =>
                @List.Forall_cons _ boundNames binding l'
                  (match binding return boundNames binding with
                   | OmittedExpr => I
                   | BindingElem name _ _ _ => BindingName_nested_ind name
                   end)
                  (each l')
            end) bindings)
  end.

End BindingInduction.

Section GraphInduction.

Variable P : Graph -> Prop.
Hypothesis HNode : forall s, P (Node s).
Hypothesis HSubState : forall start states,
  Forall (fun entry => P (snd entry)) states -> P (SubState start states).

Fixpoint Graph_nested_ind (g : Graph) : P g :=
  match g with
  | Node s => HNode s
  | SubState start states =>
      HSubState start states
        ((fix each (l : list (string * Graph))
            : Forall (fun entry => P (snd entry)) l :=
            match l with
            | [] => @List.Forall_nil _ (fun entry => P (snd entry))
            | entry :: l' =>
                @List.Forall_cons _ (fun entry => P (snd entry)) entry l'
                  (Graph_nested_ind (snd entry)) (each l')
            end) states)
  end.

End GraphInduction.

End ExpectedBindings.

(** * Properties *)

Section ConditionBuilder.
Import ASL.

Lemma defined_present (conds : list Condition) :
  defined (Some <$> conds) = conds.
Proof.
  unfold defined. induction conds as [| c conds IH]; [reflexivity |].
  cbn. f_equal. exact IH.
Qed.

Lemma defined_undefined (before after : list (option Condition)) :
  defined (before ++ None :: after) = defined (before ++ after).
Proof. unfold defined. rewrite !omap_app. reflexivity. Qed.

(** C7. [ASL.and] of no condition is the trivially true predicate
    [{Variable: "$$.Execution.Id", IsNull: false}], of one condition is
    that condition, of two or more is an [And] node over them, in the
    order given; [ASL.or] is symmetric with the trivially false predicate
    [{Variable: "$$.Execution.Id", IsNull: true}] and an [Or] node.  An
    argument that is [undefined] does not count, wherever it stands. *)
Theorem and_or_combinators (c c1 c2 : Condition) (conds : list Condition)
    (before after : list (option Condition)) :
  (ASL.and [] = IsNull false "$$.Execution.Id"
   /\ ASL.and [Some c] = c
   /\ ASL.and (Some c1 :: Some c2 :: (Some <$> conds)) = And (c1 :: c2 :: conds)
   /\ ASL.and (before ++ None :: after) = ASL.and (before ++ after))
  /\ (ASL.or [] = IsNull true "$$.Execution.Id"
      /\ ASL.or [Some c] = c
      /\ ASL.or (Some c1 :: Some c2 :: (Some <$> conds)) = Or (c1 :: c2 :: conds)
      /\ ASL.or (before ++ None :: after) = ASL.or (before ++ after)).
Proof.
  split.
  - split; [reflexivity |]. split; [reflexivity |]. split.
    + unfold ASL.and.
      change (Some c1 :: Some c2 :: (Some <$> conds))
        with (Some <$> c1 :: c2 :: conds).
      rewrite defined_present. reflexivity.
    + unfold ASL.and. rewrite defined_undefined. reflexivity.
  - split; [reflexivity |]. split; [reflexivity |]. split.
    + unfold ASL.or.
      change (Some c1 :: Some c2 :: (Some <$> conds))
        with (Some <$> c1 :: c2 :: conds).
      rewrite defined_present. reflexivity.
    + unfold ASL.or. rewrite defined_undefined. reflexivity.
Qed.

(** C4. The condition built by [ASL.isTruthy v] is the conjunction:
    [v] is present and [v] is not null and ((string and not equal to
    the empty string) or (numeric and not equal to 0) or (boolean and
    equal to true) or none of boolean, numeric, string); as a term, and
    as what the rule decides on every state. *)
Theorem isTruthy_conjunction (v : string) :
  isTruthy v =
    And [ And [IsPresent true v; IsNull false v];
          Or [ And [IsString true v;
                    Not (And [IsString true v; Compare v StringEquals (VString "")])];
               And [IsNumeric true v;
                    Not (And [IsNumeric true v;
                              Compare v NumericEquals (VNumber (Num 0))])];
               And [IsBoolean true v; Compare v BooleanEquals (VBool true)];
               Not (Or [IsBoolean true v; IsNumeric true v; IsString true v]) ] ]
  /\ forall env : ChoiceRule.Env,
       ChoiceRule.eval env (isTruthy v) = Some (Spec.truthy_formula (env v)).
Proof.
  split; [reflexivity|].
  intros env. cbn. unfold ChoiceRule.test, Spec.truthy_formula.
  destruct (env v) as [x|] eqn:Hx; cbn; [|reflexivity].
  destruct x as [| |b|n|s|items|fields]; cbn; try reflexivity.
  - destruct b; reflexivity.
  - destruct n as [|z]; cbn; [reflexivity|].
    destruct (z =? 0)%Z; reflexivity.
  - destruct (bool_decide (s = "")); reflexivity.
Qed.

(** On JSON values the formula of C4 is JavaScript's truthiness. *)
Lemma truthy_formula_truthy (x : option Value) :
  x <> Some (VNumber NaN) -> x <> Some VUndefined ->
  Spec.truthy_formula x = ChoiceRule.truthy x.
Proof.
  intros Hnan Hundef. destruct x as [[| |b|[|z]|s|items|fields]|]; cbn;
    try reflexivity; try congruence.
  - destruct b; reflexivity.
  - destruct (z =? 0)%Z; reflexivity.
  - destruct (bool_decide (s = "")); reflexivity.
Qed.

(** C10. For [!=] and [!==] at every type, and for [<], [<=], [>],
    [>=] at type boolean, [compareValueOfType] and [comparePathOfType]
    return (they raise nothing) the predicate
    [{Variable: "$$.Execution.Id", IsNull: true}], which is false on
    every state whose context object carries its execution id. *)
Theorem comparison_without_atom_is_false
    (variable : string) (operation : ValueComparisonOperator)
    (value : Comparable) (path : string) (type : ComparedType) :
  (Spec.no_comparison_atom operation (comparable_type value) = true ->
     compareValueOfType variable operation value
     = IsNull true "$$.Execution.Id")
  /\ (Spec.no_comparison_atom operation type = true ->
        comparePathOfType variable operation path type
        = IsNull true "$$.Execution.Id")
  /\ (forall (env : ChoiceRule.Env) (id : string),
        env "$$.Execution.Id" = Some (VString id) ->
        ChoiceRule.eval env (IsNull true "$$.Execution.Id") = Some false).
Proof.
  repeat split.
  - unfold compareValueOfType.
    destruct operation, (comparable_type value); cbn;
      intros H; solve [reflexivity | discriminate H].
  - unfold comparePathOfType.
    destruct operation, type; cbn;
      intros H; solve [reflexivity | discriminate H].
  - intros env id Hid. cbn. unfold ChoiceRule.test. rewrite Hid. reflexivity.
Qed.

Lemma comparison_without_atom_is_false_witness :
  compareValueOfType "$.x" OpNeEq (CString "a") = IsNull true "$$.Execution.Id"
  /\ comparePathOfType "$.x" OpLt "$.y" boolean_t = IsNull true "$$.Execution.Id"
  /\ ChoiceRule.eval
       (fun p => if bool_decide (p = "$$.Execution.Id")
                 then Some (VString "arn:exec") else None)
       (IsNull true "$$.Execution.Id") = Some false.
Proof.
  destruct (comparison_without_atom_is_false
              "$.x" OpNeEq (CString "a") "$.y" boolean_t) as (Hv & _ & _).
  destruct (comparison_without_atom_is_false
              "$.x" OpLt (CString "a") "$.y" boolean_t) as (_ & Hp & He).
  split; [apply Hv; reflexivity|].
  split; [apply Hp; reflexivity|].
  apply (He _ "arn:exec"). reflexivity.
Defined.

End ConditionBuilder.

Section ErrorRouter.
Import ASLGraph Engine.

(** How [throw stmt] is lowered once its error name and cause are
    resolved: the states of the argument expressions, then the state of
    [throwState]. *)
Lemma evalStmt_throw (thrown : Thrown) (returnPass : ReturnPass)
    (heapCounter heapCounter' : nat) (states : list Graph)
    (errorName : string) (causeJson : Value) :
  thrown_kind thrown <> OtherExpr ->
  resolveErrorNameAndCause thrown heapCounter
    = inr (states, errorName, causeJson, heapCounter') ->
  evalStmt (ThrowStmt thrown) returnPass heapCounter
    = inr (joinSubStates
             (map Some states
              ++ [Some (Node (throwState errorName causeJson (thrown_node thrown)))]),
           heapCounter').
Proof.
  intros Hkind Hresolve. cbn. unfold evalThrowStmt.
  destruct (thrown_kind thrown); try congruence;
    unfold bind; rewrite Hresolve; reflexivity.
Qed.

(** C1, as amended.  A [throw] with no enclosing catch clause or
    finally block is lowered to a terminal [Fail] with the resolved
    error name and the JSON-stringified cause.  With a handler in the
    closure of the throw, or when the closure is the callback of
    [map], [filter] or [forEach] called on a non-reference, it is
    lowered to a [Pass] whose [Result] is the cause and whose [Next] is
    [__catch]; its [ResultPath] is [$.<generated name>] of the catch
    clause that declares a variable, or of the non-terminal finally
    block of a [try] whose catch clause can throw, and null otherwise.
    With any other function-like closure between the throw and the
    handler it is lowered to the terminal [Fail]. *)
Theorem throw_routing (thrown : Thrown) (returnPass : ReturnPass)
    (heapCounter heapCounter' : nat) (states : list Graph)
    (errorName : string) (causeJson : Value) :
  thrown_kind thrown <> OtherExpr ->
  resolveErrorNameAndCause thrown heapCounter
    = inr (states, errorName, causeJson, heapCounter') ->
  exists final : NodeState,
    evalStmt (ThrowStmt thrown) returnPass heapCounter
      = inr (joinSubStates (map Some states ++ [Some (Node final)]), heapCounter')
    /\ let node := thrown_node thrown in
       (catchOrFinally node = None ->
          final = Spec.terminal errorName causeJson)
       /\ (forall h, catchOrFinally node = Some h ->
             Spec.sameClosure node = true
             \/ (exists c, mapOrParallelClosure node = Some c
                           /\ isArrayMethodCallback c = true) ->
             final = Spec.routed causeJson
                       match h with
                       | ToCatchClause true name => Some ("$." +:+ name)
                       | ToBlockStmt true (Some true) false name =>
                           Some ("$." +:+ name)
                       | _ => None
                       end)
       /\ (forall h c, catchOrFinally node = Some h ->
             mapOrParallelClosure node = Some c ->
             contains_handler c = false ->
             isArrayMethodCallback c = false ->
             final = Spec.terminal errorName causeJson).
Proof.
  intros Hkind Hresolve.
  exists (throwState errorName causeJson (thrown_node thrown)).
  split; [apply evalStmt_throw; assumption|].
  cbn zeta. unfold throwState, throw, Spec.sameClosure.
  repeat split.
  - intros ->. reflexivity.
  - intros h -> [Hsame | (c & -> & Hcb)].
    + destruct (mapOrParallelClosure (thrown_node thrown)) as [c|].
      * rewrite Hsame, orb_true_r. reflexivity.
      * reflexivity.
    + rewrite Hcb. reflexivity.
  - intros h c -> -> -> ->. reflexivity.
Qed.

Lemma throw_routing_witness :
  thrown_kind (Sample.boom Sample.unhandled) <> OtherExpr
  /\ resolveErrorNameAndCause (Sample.boom Sample.unhandled) 0%nat
     = inr ([], "Error", Sample.boomCause, 0%nat)
  /\ evalStmt (ThrowStmt (Sample.boom Sample.unhandled)) Sample.topLevel 0%nat
     = inr (Some (Node (FailState "Error" (JSON_stringify Sample.boomCause))),
            0%nat).
Proof.
  split; [discriminate|]. split; [reflexivity|].
  destruct (throw_routing (Sample.boom Sample.unhandled) Sample.topLevel
              0%nat 0%nat [] "Error" Sample.boomCause)
    as (final & Heval & Hnone & _); [discriminate|reflexivity|].
  rewrite Heval, (Hnone eq_refl). reflexivity.
Defined.

(** C1 as stated fails: a throw in the catch clause (which declares no
    variable) of a [try] with a non-terminal finally block is routed
    with [ResultPath] [$.<generated name of the finally block>], not
    null. *)
Lemma throw_ResultPath_counterexample :
  let node := Sample.inCatchBeforeFinally "finally__0" in
  Spec.sameClosure node = true
  /\ (exists h, catchOrFinally node = Some h
        /\ evalStmt (ThrowStmt (Sample.boom node)) Sample.topLevel 0%nat
           <> inr (Some (Node (Spec.routed Sample.boomCause
                                 (Spec.catch_ResultPath h))), 0%nat))
  /\ evalStmt (ThrowStmt (Sample.boom node)) Sample.topLevel 0%nat
     = inr (Some (Node (Spec.routed Sample.boomCause (Some "$.finally__0"))),
            0%nat).
Proof.
  cbn zeta. split; [reflexivity|]. split; [|reflexivity].
  eexists. split; [reflexivity|]. vm_compute. discriminate.
Qed.

(** A throw in the callback of [xs.forEach] is routed to the handler
    around the call; in the worker of [$SFN.map] it is terminal. *)
Example throw_in_array_callback :
  evalStmt (ThrowStmt (Sample.boom (Sample.inForEachCallback "e")))
    Sample.topLevel 0%nat
  = inr (Some (Node (Spec.routed Sample.boomCause (Some "$.e"))), 0%nat)
  /\ evalStmt (ThrowStmt (Sample.boom (Sample.inMapWorker "e")))
       Sample.topLevel 0%nat
     = inr (Some (Node (Spec.terminal "Error" Sample.boomCause)), 0%nat).
Proof. split; reflexivity. Qed.

End ErrorRouter.

Section TryCatch.
Import ASLGraph Engine.

(** The pre-amble is built exactly when the catch clause declares a
    variable and the try block has a task state. *)
Lemma tryFlowStates_spec (tryFlow_hasTask : bool) (clause : CatchClause) :
  tryFlowStates tryFlow_hasTask (Some clause)
  = if Spec.needsPreamble tryFlow_hasTask clause
    then Some (Spec.preamble (catch_generatedName clause))
    else None.
Proof.
  unfold tryFlowStates, Spec.needsPreamble.
  destruct (tryFlow_hasTask && _); reflexivity.
Qed.

Lemma joinSubStates_head (first : Graph) (second : option Graph) :
  exists joined, joinSubStates [Some first; second] = Some joined.
Proof. destruct second; cbn; eauto. Qed.

(** C5. When a [try] statement with a catch clause is lowered, the
    state [catch] of its catch sub-state is the catch clause's own
    states (the binding of the declared variable, then the block),
    preceded by the pre-amble that parses [$.<generated-name>.Cause] with
    [States.StringToJson] and overwrites the error variable, if and only
    if the clause declares a variable and the flow analysis of the try
    block finds a task state; otherwise it is the clause's own states,
    with nothing before them.  The whole lowering is given: the try
    block with its [__catch] state, the catch sub-state, and the
    [finally] state when there is a finally block, to which the other
    two then go on. *)
Theorem catch_preamble (tryBlock block : Stmt) (tryFlow_hasTask : bool)
    (clause : CatchClause) (finallyBlock : option (FinallyBlock * Stmt))
    (returnPass : ReturnPass) (h0 h1 h2 h3 : nat)
    (tryStates _catch initialize finallyStates : option Graph) :
  evalStmt tryBlock returnPass h0 = inr (tryStates, h1) ->
  evalStmt block returnPass h1 = inr (_catch, h2) ->
  from_option id (inr None) (variableDecl clause) = inr initialize ->
  match finallyBlock with
  | Some (_, finallyStmt) =>
      evalStmt finallyStmt returnPass h2 = inr (finallyStates, h3)
  | None => h3 = h2
  end ->
  let own : Graph :=
    match initialize with
    | Some initialize =>
        SubState "0"
          [ ("0", updateDeferredNextStates "1" initialize);
            ("1", default (deferredPass None) _catch) ]
    | None => default (deferredPass None) _catch
    end in
  let errorVariable := "$." +:+ catch_generatedName clause in
  let parse : Graph :=
    Node (PassState
            {| InputPath := None;
               Parameters :=
                 Some (Fields
                         [("0_ParsedError.$",
                           ICall "States.StringToJson"
                             [IPath (errorVariable +:+ ".Cause")])]);
               Result := None;
               ResultPath := Some (Some errorVariable);
               Next := Some (Name "1"); End_ := false |}) in
  let overwrite : Graph :=
    Node (PassState
            {| InputPath := Some (errorVariable +:+ ".0_ParsedError");
               Parameters := None; Result := None;
               ResultPath := Some (Some errorVariable);
               Next := Some DeferNext; End_ := false |}) in
  let preamble : Graph := SubState "0" [("0", parse); ("1", overwrite)] in
  let toFinally (g : Graph) : Graph :=
    match finallyBlock with
    | Some _ => updateDeferredNextStates "finally" g
    | None => g
    end in
  evalStmt (TryStmt tryBlock tryFlow_hasTask (Some (clause, block)) finallyBlock)
    returnPass h0
  = inr (Some
           (SubState "try"
              (("try",
                toFinally
                  (SubState "try"
                     [ ("try", default (deferredPass (Some None)) tryStates);
                       ("__catch", Node (PassState (pass (Some (Name "catch"))))) ]))
               :: ("catch",
                   toFinally
                     (SubState "catch"
                        (("catch",
                          match variableDecl clause with
                          | Some _ =>
                              if tryFlow_hasTask
                              then SubState "0"
                                     [ ("0", updateDeferredNextStates "1" preamble);
                                       ("1", own) ]
                              else own
                          | None => own
                          end)
                         :: match finallyBlock with
                            | Some _ =>
                                [("__catch",
                                  Node (PassState (pass (Some (Name "finally")))))]
                            | None => []
                            end)))
               :: match finallyBlock with
                  | Some (info, _) =>
                      let finallyBody :=
                        default (deferredPass (Some None)) finallyStates in
                      [("finally",
                        if catch_canThrow clause && negb (finally_isTerminal info)
                        then SubState "0"
                               [ ("0", updateDeferredNextStates "1" finallyBody);
                                 ("1", finallyExit info) ]
                        else finallyBody)]
                  | None => []
                  end)),
         h3).
Proof.
  intros Htry Hcatch Hinit Hfinally. cbn zeta.
  assert (Hlift : match variableDecl clause with
                  | Some decl => lift decl
                  | None => ret None
                  end h2 = inr (initialize, h2)).
  { destruct (variableDecl clause) as [decl|]; cbn in Hinit.
    - unfold lift. rewrite Hinit. reflexivity.
    - unfold ret. congruence. }
  assert (Hdeclared : variableDecl clause = None -> initialize = None).
  { intros Hnone. rewrite Hnone in Hinit. cbn in Hinit. congruence. }
  cbn [evalStmt]. unfold bind at 1. rewrite Htry.
  unfold bind at 1. unfold bind at 1. rewrite Hcatch.
  unfold bind at 1. rewrite Hlift. unfold ret at 1.
  unfold tryFlowStates.
  destruct finallyBlock as [[info finallyStmt]|].
  - unfold bind at 1. unfold bind at 1. rewrite Hfinally. unfold ret.
    destruct (variableDecl clause) as [decl|] eqn:Hdecl.
    + rewrite bool_decide_true by eauto.
      destruct tryFlow_hasTask, initialize, (catch_canThrow clause),
        (finally_isTerminal info); reflexivity.
    + rewrite (Hdeclared eq_refl).
      rewrite bool_decide_false by (intros [x Hx]; discriminate Hx).
      rewrite andb_false_r.
      destruct (catch_canThrow clause), (finally_isTerminal info); reflexivity.
  - subst h3. unfold bind, ret.
    destruct (variableDecl clause) as [decl|] eqn:Hdecl.
    + rewrite bool_decide_true by eauto.
      destruct tryFlow_hasTask, initialize; reflexivity.
    + rewrite (Hdeclared eq_refl).
      rewrite bool_decide_false by (intros [x Hx]; discriminate Hx).
      rewrite andb_false_r. reflexivity.
Qed.

(** [try { task() } catch (e) { return e.message }]: the pre-amble
    runs before the binding of [e] and the block. *)
Lemma catch_preamble_witness :
  evalStmt (TryStmt Sample.callTask true
              (Some (Sample.catchE, BlockStmt [Sample.returnMessage])) None)
    Sample.topLevel 0%nat
  = inr (Some
           (SubState "try"
              [ ("try",
                 SubState "try"
                   [ ("try", deferredPass (Some (Some "$.heap0")));
                     ("__catch", Node (PassState (pass (Some (Name "catch"))))) ]);
                ("catch",
                 SubState "catch"
                   [ ("catch",
                      SubState "0"
                        [ ("0", updateDeferredNextStates "1"
                                  (Spec.preamble "fnl_tmp_0"));
                          ("1", Sample.catchEStates) ]) ]) ]),
         0%nat).
Proof.
  apply (catch_preamble Sample.callTask (BlockStmt [Sample.returnMessage])
           true Sample.catchE None Sample.topLevel 0%nat 0%nat 0%nat 0%nat
           (Some (deferredPass (Some (Some "$.heap0"))))
           (Some (Node (PassState
                          {| InputPath := Some "$.e.message";
                             Parameters := None; Result := None;
                             ResultPath := Some (Some "$");
                             Next := None; End_ := true |})))
           (Some (Node (PassState
                          {| InputPath := Some "$.fnl_tmp_0";
                             Parameters := None; Result := None;
                             ResultPath := Some (Some "$.e");
                             Next := Some DeferNext; End_ := false |})))
           None);
    reflexivity.
Defined.

(** Without a task in the try block nothing precedes the clause's own
    states. *)
Example catch_without_task :
  evalStmt (TryStmt (ThrowStmt (Sample.boom (Sample.inTry "fnl_tmp_0"))) false
              (Some (Sample.catchE, BlockStmt [Sample.returnMessage])) None)
    Sample.topLevel 0%nat
  = inr (Some (SubState "try"
                 [ ("try",
                    SubState "try"
                      [ ("try", Node (Spec.routed Sample.boomCause
                                        (Some "$.fnl_tmp_0")));
                        ("__catch", Node (PassState (pass (Some (Name "catch"))))) ]);
                   ("catch", SubState "catch" [("catch", Sample.catchEStates)]) ]),
         0%nat).
Proof. vm_compute. reflexivity. Qed.

End TryCatch.

Section Rejections.
Import ASLGraph Engine.

Lemma assignPlain_returns (value : Output) (target : option string) (h : nat) :
  exists r, assignPlain value target h = inr r.
Proof. unfold assignPlain. destruct target; cbn; eauto. Qed.

Lemma conditionStateWith_returns assign cond trueState falseState target h :
  (forall v t h', exists r, assign v t h' = inr r) ->
  exists r, conditionStateWith assign cond trueState falseState target h = inr r.
Proof.
  intros Hassign. unfold conditionStateWith.
  assert (Hbranch : forall tempHeap state output h',
             exists r,
               (let* last := match output with
                             | JsonPath p =>
                                 if bool_decide (p = tempHeap)
                                 then ret (Node (PassState (pass (Some DeferNext))))
                                 else (let* a := assign output (Some tempHeap) in
                                       ret (fst a))
                             | _ => (let* a := assign output (Some tempHeap) in
                                     ret (fst a))
                             end in
                ret (default last (joinSubStates [state ≫= statesOf; Some last])))
                 h' = inr r).
  { intros tempHeap state output h'. unfold bind, ret.
    destruct output as [p|v c|c].
    - destruct (bool_decide (p = tempHeap)); [eauto|].
      destruct (Hassign (JsonPath p) (Some tempHeap) h') as [[a h''] ->]. eauto.
    - destruct (Hassign (LiteralValue v c) (Some tempHeap) h') as [[a h''] ->]. eauto.
    - destruct (Hassign (ConditionOutput c) (Some tempHeap) h') as [[a h''] ->]. eauto. }
  unfold bind at 1.
  destruct (match target with Some t => ret t | None => newHeapVariable end h)
    as [err|[tempHeap h1]] eqn:Hheap.
  { destruct target; discriminate Hheap. }
  unfold bind at 1.
  destruct (Hbranch tempHeap trueState
              (match trueState with
               | Some r => getAslStateOutput r
               | None => LiteralValue (VBool true) false
               end) h1) as [[whenTrue h2] ->].
  unfold bind at 1.
  destruct (Hbranch tempHeap falseState
              (match falseState with
               | Some r => getAslStateOutput r
               | None => LiteralValue (VBool false) false
               end) h2) as [[whenFalse h3] ->].
  unfold ret. eauto.
Qed.

Lemma assignValue_returns (value : Output) (target : option string) (h : nat) :
  exists r, assignValue value target h = inr r.
Proof.
  destruct value; cbn; try apply assignPlain_returns.
  apply conditionStateWith_returns. intros. apply assignPlain_returns.
Qed.

Lemma conditionState_returns cond trueState falseState target h :
  exists r, conditionState cond trueState falseState target h = inr r.
Proof.
  apply conditionStateWith_returns. intros. apply assignValue_returns.
Qed.









End Rejections.

Section StateNames.
Import NameAllocator.

Lemma ofAscii_inj (s t : string) : ofAscii s = ofAscii t -> s = t.
Proof.
  unfold ofAscii. intros H.
  assert (Hunits : forall l1 l2 : list ascii,
             N_of_ascii <$> l1 = N_of_ascii <$> l2 -> l1 = l2).
  { induction l1 as [| a l1 IH]; intros [| b l2] Heq;
      try reflexivity; try discriminate Heq.
    injection Heq as Hab Hrest. f_equal; [| exact (IH _ Hrest)].
    rewrite <- (ascii_N_embedding a), <- (ascii_N_embedding b), Hab.
    reflexivity. }
  apply Hunits in H.
  rewrite <- (string_of_list_ascii_of_string s),
    <- (string_of_list_ascii_of_string t), H.
  reflexivity.
Qed.

Lemma formatName_inj (name : JsString) (n m : nat) :
  formatName name n = formatName name m -> n = m.
Proof.
  unfold formatName. intros H.
  apply app_inv_head in H. apply ofAscii_inj in H.
  apply (inj (String.app " ")) in H.
  exact (inj pretty _ _ H).
Qed.

(** Among [size names + 1] consecutive numbers one formats to a name
    that is not in [names]. *)
Lemma unused_exists (names : gset JsString) (name : JsString) (n : nat) :
  exists k, (k < S (size names))%nat /\ formatName name (n + k) ∉ names.
Proof.
  set (candidates := (fun k => formatName name (n + k)) <$> seq 0 (S (size names))).
  destruct (decide (Forall (fun u => u ∈ names) candidates)) as [Hall|Hsome].
  - exfalso.
    assert (Hnodup : NoDup candidates).
    { apply NoDup_fmap_2; [|apply NoDup_seq].
      intros a b Hab. apply formatName_inj in Hab. lia. }
    assert (Hsub : list_to_set (C:=gset JsString) candidates ⊆ names).
    { intros u Hu. apply elem_of_list_to_set in Hu.
      rewrite Forall_forall in Hall. auto. }
    apply subseteq_size in Hsub.
    rewrite size_list_to_set in Hsub by exact Hnodup.
    unfold candidates in Hsub. rewrite length_fmap, length_seq in Hsub. lia.
  - apply not_Forall_Exists in Hsome; [|intros u; apply _].
    apply Exists_exists in Hsome as (u & Hu & Hnot).
    apply list_elem_of_fmap in Hu as (k & -> & Hk).
    apply elem_of_seq in Hk. exists k. split; [lia|exact Hnot].
Qed.

Lemma firstUnused_spec (names : gset JsString) (name : JsString) (fuel n : nat) :
  (exists k, (k < fuel)%nat /\ formatName name (n + k) ∉ names) ->
  let m := firstUnused names name fuel n in
  (formatName name m ∉ names)
  /\ (n <= m)%nat
  /\ forall i, (n <= i < m)%nat -> formatName name i ∈ names.
Proof.
  revert n. induction fuel as [|fuel IH]; intros n (k & Hk & Hfree); [lia|].
  cbn. destruct (decide (formatName name n ∈ names)) as [Hin|Hout].
  - destruct k as [|k]; [rewrite Nat.add_0_r in Hfree; contradiction|].
    destruct (IH (S n)) as (Hm & Hle & Hbelow).
    { exists k. split; [lia|]. replace (S n + k)%nat with (n + S k)%nat by lia.
      exact Hfree. }
    split; [exact Hm|]. split; [lia|].
    intros i Hi. destruct (decide (i = n)) as [->|Hne]; [exact Hin|].
    apply Hbelow. lia.
  - split; [exact Hout|]. split; [lia|]. intros i Hi. lia.
Qed.

(** The truncated name is the name itself when it has 75 code units
    at most, and its first 75 code units otherwise. *)
Lemma truncate_spec (stateName : JsString) :
  ((length stateName <= 75)%nat -> truncate stateName = stateName)
  /\ ((75 < length stateName)%nat ->
      length (truncate stateName) = 75%nat
      /\ exists rest, rest <> [] /\ stateName = truncate stateName ++ rest).
Proof.
  unfold truncate. split.
  - intros Hle. apply Nat.ltb_ge in Hle. rewrite Hle. reflexivity.
  - intros Hlt. pose proof Hlt as Hlt'. apply Nat.ltb_lt in Hlt'. rewrite Hlt'.
    split; [rewrite length_take; lia|].
    exists (drop 75 stateName). split.
    + intros Hnil. apply (f_equal length) in Hnil.
      rewrite length_drop in Hnil. cbn in Hnil. lia.
    + symmetry. apply take_drop.
Qed.

(** What one request returns and registers. *)
Lemma createUniqueStateName_spec (stateName : JsString) (names : gset JsString) :
  let t := truncate stateName in
  let '(unique, names') := createUniqueStateName stateName names in
  names' = {[unique]} ∪ names
  /\ (unique ∉ names)
  /\ (t ∉ names -> unique = t)
  /\ (t ∈ names ->
      exists n, (1 <= n)%nat /\ unique = t ++ ofAscii (" " +:+ pretty n)
                /\ forall i, (1 <= i < n)%nat ->
                             t ++ ofAscii (" " +:+ pretty i) ∈ names).
Proof.
  cbn zeta. unfold createUniqueStateName, getUnique.
  destruct (decide (truncate stateName ∈ names)) as [Hin|Hout].
  - destruct (firstUnused_spec names (truncate stateName) (S (size names)) 1
                (unused_exists names (truncate stateName) 1))
      as (Hfree & Hle & Hbelow).
    split; [reflexivity|]. split; [exact Hfree|].
    split; [intros Hout; contradiction|].
    intros _. eexists. split; [exact Hle|]. split; [reflexivity|exact Hbelow].
  - split; [reflexivity|]. split; [exact Hout|].
    split; [reflexivity|]. intros Hin. contradiction.
Qed.

Lemma allocate_fresh (requests : list JsString) (names : gset JsString) :
  NoDup (allocate requests names)
  /\ forall u, u ∈ allocate requests names -> u ∉ names.
Proof.
  revert names. induction requests as [|stateName rest IH]; intros names.
  - split; [constructor|]. intros u Hu. inversion Hu.
  - cbn [allocate].
    pose proof (createUniqueStateName_spec stateName names) as Hspec.
    cbn zeta in Hspec.
    destruct (createUniqueStateName stateName names) as [unique names'].
    destruct Hspec as (-> & Hfresh & _).
    destruct (IH ({[unique]} ∪ names)) as [Hnodup Hrest]. clear IH.
    split.
    + constructor; [|exact Hnodup].
      intros Hin. apply Hrest in Hin. set_solver.
    + intros u Hu. apply elem_of_cons in Hu as [->|Hu]; [exact Hfresh|].
      apply Hrest in Hu. set_solver.
Qed.

(** C8.  Each request is first truncated: a name of 75 characters
    (UTF-16 code units, which is what [length] counts) at most is kept
    as it is, a longer one is cut to its first 75.  A truncated name
    not seen before is returned unchanged and registered; a colliding
    one is returned with a space and the smallest unused number (from 1)
    appended, and registered too; so a returned name was never returned
    before, and the names returned during one compilation are pairwise
    distinct. *)
Theorem state_names_unique (stateName : JsString) (names : gset JsString)
    (requests : list JsString) :
  (((length stateName <= 75)%nat -> truncate stateName = stateName)
   /\ ((75 < length stateName)%nat ->
       length (truncate stateName) = 75%nat
       /\ exists rest, rest <> [] /\ stateName = truncate stateName ++ rest))
  /\ (let t := truncate stateName in
      let '(unique, names') := createUniqueStateName stateName names in
      names' = {[unique]} ∪ names
      /\ (unique ∉ names)
      /\ (t ∉ names -> unique = t)
      /\ (t ∈ names ->
          exists n, (1 <= n)%nat /\ unique = t ++ ofAscii (" " +:+ pretty n)
                    /\ forall i, (1 <= i < n)%nat ->
                                 t ++ ofAscii (" " +:+ pretty i) ∈ names))
  /\ NoDup (allocate requests ∅).
Proof.
  split; [apply truncate_spec|].
  split; [apply createUniqueStateName_spec|].
  apply allocate_fresh.
Qed.

Example state_names_collide :
  allocate (ofAscii <$> ["Default"; "Default"; "Default 1"; "Default"]) ∅
  = ofAscii <$> ["Default"; "Default 1"; "Default 1 1"; "Default 2"].
Proof. vm_compute. reflexivity. Qed.

(** A name of 40 characters outside ASCII (40 code units, 80 bytes in
    UTF-8) is not cut; a name of 80 characters is cut to 75. *)
Example state_names_truncated :
  truncate (replicate 40 233%N) = replicate 40 233%N
  /\ truncate (replicate 80 233%N) = replicate 75 233%N.
Proof. split; reflexivity. Qed.

Lemma state_names_unique_witness :
  (length (ofAscii "Default") <= 75)%nat
  /\ truncate (ofAscii "Default") = ofAscii "Default"
  /\ NoDup (allocate (ofAscii <$> ["Default"; "Default"; "Default 1"]) ∅).
Proof.
  destruct (state_names_unique (ofAscii "Default") ∅
              (ofAscii <$> ["Default"; "Default"; "Default 1"]))
    as ((Hshort & _) & _ & Hdistinct).
  assert (Hlength : (length (ofAscii "Default") <= 75)%nat) by (cbn; lia).
  split; [exact Hlength|]. split; [exact (Hshort Hlength)|exact Hdistinct].
Defined.

End StateNames.

Section Plus.
Import ASLGraph Engine Operators.

Lemma jsonPathValueToString_returns (jsonPath : string) (resultPath : string)
    (h : nat) :
  exists g, jsonPathValueToString jsonPath (Some resultPath) h
            = inr (g, resultPath +:+ ".str", h).
Proof.
  eexists. cbv [jsonPathValueToString bind ret orDefined]. reflexivity.
Qed.

Lemma jsonPathValueToNumber_returns (jsonPath : string) (resultPath : string)
    (h : nat) :
  exists g, jsonPathValueToNumber jsonPath (Some resultPath) h
            = inr (g, resultPath +:+ ".num", h).
Proof.
  eexists.
  cbv [jsonPathValueToNumber bind ret orDefined assignValue assignPlain].
  reflexivity.
Qed.

Lemma newHeapVariable_eq (h : nat) :
  newHeapVariable h = inr ("$.heap" +:+ pretty h, S h).
Proof. reflexivity. Qed.

(** With an operand that is a path, [numericAdd] ends in the [Pass]
    that computes [States.MathAdd] into a fresh heap slot. *)
Lemma numericAdd_MathAdd (leftOut rightOut : PathOrLiteral) (h : nat) :
  isLiteral leftOut && isLiteral rightOut = false ->
  exists joined : Graph,
    numericAdd leftOut rightOut h
    = inr (WithOutput joined (JsonPath ("$.heap" +:+ pretty h +:+ ".str")), S h)
    /\ Spec.lastJoined joined
       = Some (Spec.compute "$.heap" h "States.MathAdd"
                 [ operand (fun v => VNumber (Host.Number v))
                     ("$.heap" +:+ pretty h) "str.left.num" leftOut;
                   operand (fun v => VNumber (Host.Number v))
                     ("$.heap" +:+ pretty h) "str.right.num" rightOut ]).
Proof.
  intros Hpath. unfold numericAdd. unfold bind at 1.
  rewrite newHeapVariable_eq.
  destruct leftOut as [l|l cl], rightOut as [r|r cr]; try discriminate Hpath;
    unfold coerced, bind;
    repeat match goal with
      | |- context [jsonPathValueToNumber ?p (Some ?rp) ?n] =>
          let g := fresh "g" in
          destruct (jsonPathValueToNumber_returns p rp n) as [g ->]
      end;
    unfold ret; eexists; (split; [reflexivity|reflexivity]).
Qed.

(** With an operand that is a path, [stringConcat] ends in the [Pass]
    that computes [States.Format('{}{}', ...)] into a fresh heap slot. *)
Lemma stringConcat_Format (leftOut rightOut : PathOrLiteral) (h : nat) :
  isLiteral leftOut && isLiteral rightOut = false ->
  exists joined : Graph,
    stringConcat leftOut rightOut h
    = inr (WithOutput joined (JsonPath ("$.heap" +:+ pretty h +:+ ".str")), S h)
    /\ Spec.lastJoined joined
       = Some (Spec.compute "$.heap" h "States.Format"
                 [ ILiteral (VString "{}{}");
                   operand (fun v => VString (Host.String_ v))
                     ("$.heap" +:+ pretty h) "str.left.str" leftOut;
                   operand (fun v => VString (Host.String_ v))
                     ("$.heap" +:+ pretty h) "str.right.str" rightOut ]).
Proof.
  intros Hpath. unfold stringConcat. unfold bind at 1.
  rewrite newHeapVariable_eq.
  destruct leftOut as [l|l cl], rightOut as [r|r cr]; try discriminate Hpath;
    unfold coerced, bind;
    repeat match goal with
      | |- context [jsonPathValueToString ?p (Some ?rp) ?n] =>
          let g := fresh "g" in
          destruct (jsonPathValueToString_returns p rp n) as [g ->]
      end;
    unfold ret; eexists; (split; [reflexivity|reflexivity]).
Qed.

(** [plus] never throws. *)
Lemma plus_returns (leftOut rightOut : PathOrLiteral) (h : nat) :
  exists result h', plus leftOut rightOut h = inr (result, h').
Proof.
  unfold plus.
  destruct (isLiteralStr leftOut || isLiteralStr rightOut) eqn:Hstr;
    [|destruct (isLiteral leftOut && isLiteral rightOut) eqn:Hlit].
  - destruct leftOut as [l|l cl], rightOut as [r|r cr]; try discriminate Hstr;
      do 2 eexists; lazy -[pretty Host.String_]; reflexivity.
  - destruct leftOut as [l|l cl], rightOut as [r|r cr]; try discriminate Hlit.
    do 2 eexists. reflexivity.
  - destruct (stringConcat_Format leftOut rightOut h Hlit) as (concat & Hconcat & _).
    destruct (numericAdd_MathAdd leftOut rightOut (S h) Hlit) as (add & Hadd & _).
    unfold bind at 1. rewrite Hconcat.
    unfold bind at 1. rewrite Hadd. unfold bind at 1.
    match goal with
    | |- context [conditionState ?c ?t ?f ?o ?n] =>
        destruct (conditionState_returns c t f o n) as [[[states tempHeap] h'] ->]
    end.
    unfold ret. eauto.
Qed.

(** A binary [+] that [evalToConstant] folds is lowered to the folded
    literal and no state; the second test of the constant, in the branch
    for binary expressions, is never reached. *)
Lemma evalPlus_constant (value : Value) (allowUndefined : bool)
    (parentName : string) (leftExpr rightExpr : EvaluatedExpr) (h : nat) :
  value <> VUndefined -> value <> VNull ->
  evalPlus (Some value) allowUndefined parentName leftExpr rightExpr h
  = inr (Bare (LiteralValue value false), h).
Proof.
  intros Hundefined Hnull.
  destruct value; cbn; solve [reflexivity | contradiction].
Qed.

(** Operands that are literals without states make [+] a literal
    without states, also when [evalToConstant] folds nothing. *)
Lemma evalPlus_literals (l r : Value) (parentName : string) (h : nat) :
  exists v,
    evalPlus None false parentName (Sample.literal l) (Sample.literal r) h
    = inr (Bare (LiteralValue v false), S h).
Proof.
  unfold evalPlus, evalExprToJsonPathOrLiteral, evalExpr, bind. cbn.
  unfold bind, plus.
  destruct (isLiteralStr (Literal l false) || isLiteralStr (Literal r false));
    cbn; eexists; reflexivity.
Qed.

End Plus.

Section Negate.
Import ASLGraph Engine Operators.

(** A literal number is negated while compiling, and a literal null
    (the engine's NaN) is returned as it is. *)
Lemma negate_literal (n : number) (c : bool) (h : nat) :
  negateJsonPathOrLiteralValue (Literal (VNumber n) c) h
  = inr (Bare (LiteralValue (VNumber (Host.neg n)) false), h)
  /\ negateJsonPathOrLiteralValue (Literal VNull c) h
     = inr (Bare (LiteralValue VNull c), h).
Proof. split; reflexivity. Qed.

(** A path is negated when the machine runs: a [Choice] sends null to
    the state that writes null, a negative number to [States.Format],
    [States.StringSplit] on ["-"] and [States.StringToJson] of the first
    item, and any other number to [States.StringToJson] of
    [States.Format('-{}', ...)]; each writes [num] under a fresh heap
    slot, which is the output. *)
Lemma negate_path (p : string) (h : nat) :
  let heap := "$.heap" +:+ pretty h in
  let assign (i : Intrinsic) (next : Target) : Graph :=
    Node (PassState {| InputPath := None;
                       Parameters := Some (Fields [("num.$", i)]);
                       Result := None; ResultPath := Some (Some heap);
                       Next := Some next; End_ := false |}) in
  negateJsonPathOrLiteralValue (Path p) h
  = inr (WithOutput
           (SubState "check"
              [ ("check",
                 Node (ChoiceState
                         [ (ASL.IsNull true p, Name "NaN");
                           (ASL.Compare p ASL.NumericLessThan (VNumber (Num 0)),
                            Name "negative") ]
                         (Name "positive")));
                ("NaN",
                 Node (PassState
                         {| InputPath := Some "$.fnl_context.null";
                            Parameters := None; Result := None;
                            ResultPath := Some (Some (heap +:+ ".num"));
                            Next := Some DeferNext; End_ := false |}));
                ("negative",
                 SubState "0"
                   [ ("0",
                      assign
                        (ICall "States.StringSplit"
                           [ ICall "States.Format" [ILiteral (VString "{}"); IPath p];
                             ILiteral (VString "-") ])
                        (Name "1"));
                     ("1",
                      assign
                        (ICall "States.StringToJson"
                           [ ICall "States.ArrayGetItem"
                               [ IPath (heap +:+ ".num");
                                 ILiteral (VNumber (Num 0)) ] ])
                        DeferNext) ]);
                ("positive",
                 assign
                   (ICall "States.StringToJson"
                      [ ICall "States.Format" [ILiteral (VString "-{}"); IPath p] ])
                   DeferNext) ])
           (JsonPath (heap +:+ ".num")),
         S h).
Proof. lazy -[pretty]. reflexivity. Qed.

(** The coercion keeps a literal number and converts every other
    literal with [Number]; it never yields null. *)
Lemma literalToNumber_never_null (value : Value) :
  literalToNumber value <> VNull.
Proof. destruct value as [| |b|n|s|items|fields]; cbn; discriminate. Qed.

(** C6, at a literal that is not a number: [-"abc"] is lowered to the
    literal NaN, where the claim (and the comment in [evalToNumber])
    has null. *)
Theorem negate_literal_not_a_number :
  evalToNumber (Some (Sample.literal (VString "abc"))) 0%nat
  = inr (None, Literal (VNumber NaN) false, 0%nat)
  /\ negateExpr (Sample.literal (VString "abc")) 0%nat
     = inr (Bare (LiteralValue (VNumber NaN) false), 0%nat).
Proof. split; reflexivity. Qed.

(** For an operand that is a path, the coercion runs first and the
    negation reads what it wrote. *)
Example negate_path_operand :
  exists number negated : Graph,
    evalToNumber (Some (Sample.path "$.x")) 0%nat
    = inr (Some number, Path "$.heap0.num", 1%nat)
    /\ negateJsonPathOrLiteralValue (Path "$.heap0.num") 1%nat
       = inr (WithOutput negated (JsonPath "$.heap1.num"), 2%nat)
    /\ negateExpr (Sample.path "$.x") 0%nat
       = inr (WithOutput
                (SubState "0"
                   [("0", updateDeferredNextStates "1" number); ("1", negated)])
                (JsonPath "$.heap1.num"),
              2%nat).
Proof. do 2 eexists. repeat split; vm_compute; reflexivity. Qed.

End Negate.

Section Filter.
Import ASLGraph Engine ArrayFilter.













(** [(xs) => xs.filter(x => x === "a")]: the body is one [Pass] that
    reads the filtered path. *)
Example filter_scenario :
  evalStmt
    (BlockStmt
       [ReturnStmt
          {| isUndefinedLiteralExpr := false;
             evaluated :=
               match filterToStateOutput (fun _ _ => ret (Bare (JsonPath "$.heap0")))
                       (Sample.path "$.xs") (FunctionLike Spec.equalsA) 0%nat with
               | inl err => inl err
               | inr (r, _) => inr r
               end |}])
    Sample.topLevel 0%nat
  = inr (Some (Node (PassState
                       {| InputPath := Some "$.xs[?(@=='a')]";
                          Parameters := None; Result := None;
                          ResultPath := Some (Some "$");
                          Next := None; End_ := true |})), 0%nat).
Proof. vm_compute. reflexivity. Qed.

End Filter.

(** * More properties of the lowering *)

Section TypeOf.
Import ASLGraph Engine Operators Expressions.

(** X1. [typeof] of a reference is lowered to a [Choice] that, on
    every state, selects without failing the branch named after
    JavaScript's [typeof] of what the reference holds (a missing
    reference selects [undefined], null an array and an object select
    [object]); that branch writes its name to the fresh heap slot the
    lowering returns. *)
Theorem typeof_decides_at_run_time (p : string) (h : nat) (env : ChoiceRule.Env) :
  env p <> Some VUndefined ->
  exists Choices Default states,
    evalTypeOf (Sample.path p) h
    = inr (WithOutput
             (SubState "choose"
                (("choose", Node (ChoiceState Choices Default)) :: states))
             (JsonPath ("$.heap" +:+ pretty h)),
           S h)
    /\ Runtime.choose env Choices Default
       = Some (Name (Expected.typeof_at (env p)))
    /\ Runtime.stateNamed (Expected.typeof_at (env p)) states
       = Some (Node (PassState
                       {| InputPath := None; Parameters := None;
                          Result := Some (VString (Expected.typeof_at (env p)));
                          ResultPath := Some (Some ("$.heap" +:+ pretty h));
                          Next := Some DeferNext; End_ := false |})).
Proof.
  intros Hjson. do 3 eexists. split; [reflexivity|].
  cbn [Runtime.choose ChoiceRule.eval ASL.and ASL.defined omap id
       ASL.isPresent ASL.isString ASL.isBoolean ASL.isNumeric
       length Nat.ltb Nat.leb Nat.eqb].
  cbn. unfold ChoiceRule.test.
  destruct (env p) as [[| |b|n|s|items|fields]|]; cbn;
    solve [split; reflexivity | contradiction].
Qed.

Lemma typeof_decides_at_run_time_witness :
  exists Choices Default states,
    evalTypeOf (Sample.path "$.x") 0%nat
    = inr (WithOutput
             (SubState "choose"
                (("choose", Node (ChoiceState Choices Default)) :: states))
             (JsonPath "$.heap0"),
           1%nat)
    /\ Runtime.choose
         (fun q => if bool_decide (q = "$.x") then Some (VNumber (Num 1)) else None)
         Choices Default
       = Some (Name "number").
Proof.
  destruct (typeof_decides_at_run_time "$.x" 0%nat
              (fun q => if bool_decide (q = "$.x") then Some (VNumber (Num 1)) else None))
    as (Choices & Default & states & Heval & Hchoose & _); [discriminate|].
  exists Choices, Default, states. split; [exact Heval|exact Hchoose].
Defined.

End TypeOf.

Section ToNumber.
Import ASLGraph Engine Operators Expressions.

(** X2. The [Choice] that starts [jsonPathValueToNumber] never fails,
    also on a missing path, and selects the branch JavaScript's
    [Number] asks for: a number is copied, null, a boolean and the empty
    string get the literal [Number(x)] (0 or 1), any other string is
    parsed by [States.StringToJson], and a missing path, an object or an
    array get the engine's null. *)
Theorem toNumber_decides_at_run_time (p resultPath : string) (h : nat)
    (env : ChoiceRule.Env) :
  exists Choices Default states,
    jsonPathValueToNumber p (Some resultPath) h
    = inr (SubState "check"
             (("check", Node (ChoiceState Choices Default)) :: states),
           resultPath +:+ ".num", h)
    /\ Runtime.choose env Choices Default
       = Some (Name (Expected.numberBranch (env p)))
    /\ Runtime.stateNamed (Expected.numberBranch (env p)) states
       = Some match env p with
              | Some (VString (String _ _)) =>
                  Node (PassState
                          {| InputPath := None;
                             Parameters :=
                               Some (Fields [("num.$",
                                              ICall "States.StringToJson" [IPath p])]);
                             Result := None;
                             ResultPath := Some (Some resultPath);
                             Next := Some (Name "checkStringOutput");
                             End_ := false |})
              | x => Expected.assigns (Expected.numberAssigned p x)
                       (resultPath +:+ ".num")
              end.
Proof.
  do 3 eexists.
  split;
    [cbv [jsonPathValueToNumber bind ret orDefined assignValue assignPlain];
     reflexivity|].
  cbn. unfold ChoiceRule.test.
  destruct (env p) as [[| |[]|n|[|c s]|items|fields]|]; cbn; split; reflexivity.
Qed.

End ToNumber.

Section ConditionState.
Import ASLGraph Engine Operators Expressions.

Lemma assignValue_eq (value : Output) (target : string) (h : nat) :
  assignValue value (Some target) h
  = inr (match value with
         | JsonPath _ | LiteralValue _ _ => Expected.assigns value target
         | ConditionOutput _ => Expected.writes value target
         end, target, h).
Proof. destruct value; reflexivity. Qed.

Lemma conditionState_branch (state : option NodeResults) (otherwise : bool)
    (tempHeap : string) (h : nat) :
  let output := match state with
                | Some r => getAslStateOutput r
                | None => LiteralValue (VBool otherwise) false
                end in
  (let* last := match output with
                | JsonPath p =>
                    if bool_decide (p = tempHeap)
                    then ret (Node (PassState (pass (Some DeferNext))))
                    else (let* a := assignValue output (Some tempHeap) in
                          ret (fst a))
                | _ => (let* a := assignValue output (Some tempHeap) in
                        ret (fst a))
                end in
   ret (default last (joinSubStates [state ≫= statesOf; Some last]))) h
  = inr (Expected.branch state otherwise tempHeap, h).
Proof.
  cbn zeta. unfold Expected.branch.
  set (output := match state with
                 | Some r => getAslStateOutput r
                 | None => LiteralValue (VBool otherwise) false
                 end).
  clearbody output. unfold bind at 1.
  destruct output as [p|v c|c]; cbn [Expected.writes].
  - destruct (bool_decide (p = tempHeap)); [reflexivity|].
    unfold bind. rewrite assignValue_eq. reflexivity.
  - unfold bind. rewrite assignValue_eq. reflexivity.
  - unfold bind. rewrite assignValue_eq. reflexivity.
Qed.

Lemma conditionState_eq (cond : ASL.Condition)
    (trueState falseState : option NodeResults) (outputJsonPath : option string)
    (h : nat) :
  let tempHeap := default ("$.heap" +:+ pretty h) outputJsonPath in
  conditionState cond trueState falseState outputJsonPath h
  = inr (SubState "default"
           [ ("default", Node (ChoiceState [(cond, Name "true")] (Name "false")));
             ("true", Expected.branch trueState true tempHeap);
             ("false", Expected.branch falseState false tempHeap) ],
         tempHeap,
         match outputJsonPath with Some _ => h | None => S h end).
Proof.
  cbn zeta. unfold conditionState, conditionStateWith.
  unfold bind at 1.
  destruct outputJsonPath as [t|]; cbn [default from_option id];
    [unfold ret at 1|rewrite newHeapVariable_eq].
  - unfold bind at 1.
    rewrite (conditionState_branch trueState true t h).
    unfold bind at 1.
    rewrite (conditionState_branch falseState false t h). reflexivity.
  - unfold bind at 1.
    rewrite (conditionState_branch trueState true _ (S h)).
    unfold bind at 1.
    rewrite (conditionState_branch falseState false _ (S h)). reflexivity.
Qed.

Lemma normalizeToPathOrLiteral_returns (output : Output) (h : nat) :
  exists r, normalizeToPathOrLiteral output h = inr r.
Proof.
  destruct output as [p|v c|c]; cbn [normalizeToPathOrLiteral]; [eexists; reflexivity..|].
  unfold bind. rewrite conditionState_eq. eexists. reflexivity.
Qed.

End ConditionState.

Section PlusLowering.
Import ASLGraph Engine Operators Expressions.








End PlusLowering.

Section Logical.
Import ASLGraph Engine Operators Expressions.

Lemma isTruthy_eval (env : ChoiceRule.Env) (v : string) :
  ChoiceRule.eval env (ASL.isTruthy v) = Some (Spec.truthy_formula (env v)).
Proof.
  cbn. unfold ChoiceRule.test, Spec.truthy_formula.
  destruct (env v) as [x|] eqn:Hx; cbn; [|reflexivity].
  destruct x as [| |b|n|s|items|fields]; cbn; try reflexivity.
  - destruct b; reflexivity.
  - destruct n as [|z]; cbn; [reflexivity|].
    destruct (z =? 0)%Z; reflexivity.
  - destruct (bool_decide (s = "")); reflexivity.
Qed.

Lemma isTruthy_eval_truthy (env : ChoiceRule.Env) (v : string) :
  env v <> Some VUndefined -> env v <> Some (VNumber NaN) ->
  ChoiceRule.eval env (ASL.isTruthy v) = Some (ChoiceRule.truthy (env v)).
Proof.
  intros Hundefined Hnan. rewrite isTruthy_eval. f_equal.
  apply truthy_formula_truthy; assumption.
Qed.

(** X3. With a reference on the left, [&&], [||] and [??] are lowered
    to a [Choice] whose rule holds, on every state, exactly when
    JavaScript returns the left operand (left falsy for [&&], truthy for
    [||], neither null nor missing for [??]); it never fails, its branch
    [true] copies the left operand to the fresh heap slot that is the
    output, and the states of the right operand run in the branch
    [false] only, followed by the states that write its output to the
    same slot. *)
Theorem logical_decides_at_run_time (op : LogicalOp) (p : string)
    (right : EvaluatedExpr) (r : NodeResults) (h : nat) (env : ChoiceRule.Env) :
  env p <> Some VUndefined -> env p <> Some (VNumber NaN) ->
  evaluated right = inr r ->
  exists rule,
    evalLogical op (Sample.path p) right h
    = inr (WithOutput
             (SubState "default"
                [ ("default",
                   Node (ChoiceState [(rule, Name "true")] (Name "false")));
                  ("true", Expected.writes (JsonPath p) ("$.heap" +:+ pretty h));
                  ("false",
                   default (Expected.writes (getAslStateOutput r)
                              ("$.heap" +:+ pretty h))
                     (joinSubStates
                        [ statesOf r;
                          Some (Expected.writes (getAslStateOutput r)
                                  ("$.heap" +:+ pretty h)) ])) ])
             (JsonPath ("$.heap" +:+ pretty h)),
           S h)
    /\ Runtime.choose env [(rule, Name "true")] (Name "false")
       = Some (Name (if Expected.keepsLeft op (env p) then "true" else "false")).
Proof.
  intros Hundefined Hnan Hright.
  unfold evalLogical, evalExpr. cbn [Sample.path evaluated]. rewrite Hright.
  unfold bind at 1. unfold bind at 1. unfold bind at 1. cbn [getAslStateOutput].
  unfold bind at 1. rewrite conditionState_eq.
  cbn [default from_option id]. unfold ret.
  cbn [statesOf withStates app getAslStateOutput joinSubStates omap id
       option_bind mbind].
  eexists. split; [reflexivity|].
  cbn [Runtime.choose].
  destruct op; cbn [Expected.keepsLeft].
  - change (ChoiceRule.eval env (ASL.not (ASL.isTruthy p)))
      with (negb <$> ChoiceRule.eval env (ASL.isTruthy p)).
    rewrite isTruthy_eval_truthy by assumption. cbn.
    destruct (ChoiceRule.truthy (env p)); reflexivity.
  - rewrite isTruthy_eval_truthy by assumption.
    destruct (ChoiceRule.truthy (env p)); reflexivity.
  - cbn. unfold ChoiceRule.test.
    destruct (env p) as [[| |b|n|s|items|fields]|]; cbn;
      solve [reflexivity | contradiction].
Qed.

End Logical.

Section Minus.
Import ASLGraph Engine Operators Expressions.

Lemma chain_cons (i : nat) (a b : Graph) (rest : list Graph) :
  chain i (a :: b :: rest)
  = (pretty i, updateDeferredNextStates (pretty (S i)) a) :: chain (S i) (b :: rest).
Proof. reflexivity. Qed.

Lemma chain_last (i : nat) (l : list Graph) (g : Graph) :
  last (chain i (l ++ [g])) = Some (pretty (i + length l)%nat, g).
Proof.
  revert i. induction l as [|a l IH]; intros i.
  - cbn. rewrite Nat.add_0_r. reflexivity.
  - cbn [app length]. specialize (IH (S i)).
    destruct (l ++ [g]) as [|b rest] eqn:Hrest.
    { destruct l; discriminate Hrest. }
    rewrite chain_cons, last_cons, IH.
    replace (S i + length l)%nat with (i + S (length l))%nat by lia. reflexivity.
Qed.

(** The last part of a joined sequence that ends in a state. *)
Lemma lastJoined_join (states : list (option Graph)) (s : NodeState) :
  exists joined,
    joinSubStates (states ++ [Some (Node s)]) = Some joined
    /\ Spec.lastJoined joined = Some (Node s).
Proof.
  unfold joinSubStates. rewrite omap_app.
  change (omap id [Some (Node s)]) with [Node s].
  destruct (omap id states) as [|a l] eqn:Hsome.
  - eexists. split; reflexivity.
  - change ((a :: l) ++ [Node s]) with (a :: l ++ [Node s]).
    destruct (l ++ [Node s]) as [|b rest] eqn:Hrest.
    { destruct l; discriminate Hrest. }
    eexists. split; [reflexivity|].
    cbn [Spec.lastJoined]. rewrite <- Hrest.
    change (a :: l ++ [Node s]) with ((a :: l) ++ [Node s]).
    rewrite chain_last. reflexivity.
Qed.

Lemma jsonPathValueToNumber_fresh (p : string) (h : nat) :
  exists g, jsonPathValueToNumber p None h
            = inr (g, "$.heap" +:+ pretty h +:+ ".num", S h).
Proof.
  eexists.
  cbv [jsonPathValueToNumber bind ret orDefined assignValue assignPlain
       newHeapVariable newHeapVariableName].
  reflexivity.
Qed.

Lemma negate_path_fresh (p : string) (h : nat) :
  exists g, negateJsonPathOrLiteralValue (Path p) h
            = inr (WithOutput g (JsonPath ("$.heap" +:+ pretty h +:+ ".num")), S h).
Proof.
  eexists.
  cbv [negateJsonPathOrLiteralValue bind ret assignValue assignPlain
       newHeapVariable newHeapVariableName jsonPath].
  reflexivity.
Qed.

Ltac finish_minus :=
  unfold withStates, ASLGraph.assignJsonPathOrIntrinsic, intrinsicMathAdd,
    argument, toOutput, jsonPath;
  cbn [statesOf getAslStateOutput];
  match goal with
  | |- context [joinSubStates (?l ++ [Some (Node ?s)])] =>
      let joined := fresh "joined" in
      let Hjoin := fresh "Hjoin" in
      let Hlast := fresh "Hlast" in
      destruct (lastJoined_join l s) as (joined & Hjoin & Hlast);
      rewrite Hjoin; exists joined; split; [reflexivity|exact Hlast]
  end.

(** X4. On operands whose literals the host's [Number] is modelled
    exactly on (safe integers, decimal integer numerals, strings that
    hold a character of no number, and what is no number or string),
    [minus] gives the literal null, with no state and no heap
    slot, exactly when its left operand is a literal that [Number] does
    not convert.  In every other case, also for two literals and for a
    right literal that does not convert, it ends in the [Pass] that
    computes [States.MathAdd(left, -right)] under [out] of a fresh heap
    slot, which is its output: a literal operand is converted (and the
    right one negated) while compiling, a reference is coerced by
    [jsonPathValueToNumber] (and the right one negated) by states that
    run before; each reference on the left takes one more heap slot and
    each on the right two. *)
Theorem minus_lowering (leftOut rightOut : PathOrLiteral) (h : nat) :
  Expected.converted leftOut = true ->
  Expected.converted rightOut = true ->
  (forall l c, leftOut = Literal l c -> Host.Number l = NaN ->
     minus leftOut rightOut h = inr (Bare (LiteralValue VNull false), h))
  /\ ((forall l c, leftOut = Literal l c -> Host.Number l <> NaN) ->
      let out := (h + Expected.slots leftOut + 2 * Expected.slots rightOut)%nat in
      exists joined,
        minus leftOut rightOut h
        = inr (WithOutput joined
                 (JsonPath ("$.heap" +:+ pretty out +:+ ".out")),
               S out)
        /\ Spec.lastJoined joined
           = Some (Node (PassState
                           {| InputPath := None;
                              Parameters :=
                                Some (Fields
                                  [("out.$",
                                    ICall "States.MathAdd"
                                      [ match leftOut with
                                        | Literal l _ =>
                                            ILiteral (VNumber (Host.Number l))
                                        | Path _ =>
                                            IPath ("$.heap" +:+ pretty h +:+ ".num")
                                        end;
                                        match rightOut with
                                        | Literal r _ =>
                                            ILiteral
                                              (VNumber (Host.neg (Host.Number r)))
                                        | Path _ =>
                                            IPath ("$.heap"
                                                   +:+ pretty (h + Expected.slots leftOut + 1)%nat
                                                   +:+ ".num")
                                        end ])]);
                              Result := None;
                              ResultPath := Some (Some ("$.heap" +:+ pretty out));
                              Next := Some DeferNext; End_ := false |}))).
Proof.
  intros _ _. split.
  - intros l c -> Hnan. unfold minus, evalContext, numberOf.
    unfold bind at 1. unfold bind at 1. unfold ret at 1.
    rewrite Hnan. reflexivity.
  - intros Hleft. cbn zeta. unfold minus, evalContext.
    unfold bind at 1. unfold bind at 1.
    destruct leftOut as [p|l cl]; cbn [numberOf Expected.slots].
    + unfold bind at 1.
      destruct (jsonPathValueToNumber_fresh p h) as [left ->].
      unfold ret at 1. unfold bind at 1.
      destruct rightOut as [q|r cr]; cbn [numberOf Expected.slots].
      * unfold bind at 1.
        destruct (jsonPathValueToNumber_fresh q (S h)) as [right ->].
        unfold ret at 1. unfold bind at 1.
        destruct (negate_path_fresh ("$.heap" +:+ pretty (S h) +:+ ".num") (S (S h)))
          as [negated ->].
        cbn [getAslStateOutput]. unfold bind at 1.
        unfold assignJsonPathOrIntrinsic. unfold bind at 1.
        rewrite newHeapVariable_eq. unfold ret.
        cbn [default from_option id].
        replace (h + 1 + 2 * 1)%nat with (S (S (S h))) by lia.
        replace (h + 1 + 1)%nat with (S (S h)) by lia.
        finish_minus.
      * unfold ret at 1. unfold bind at 1.
        cbn [negateJsonPathOrLiteralValue]. unfold ret at 1.
        cbn [getAslStateOutput literalValue]. unfold bind at 1.
        unfold assignJsonPathOrIntrinsic. unfold bind at 1.
        rewrite newHeapVariable_eq. unfold ret.
        cbn [default from_option id].
        replace (h + 1 + 2 * 0)%nat with (S h) by lia.
        finish_minus.
    + specialize (Hleft l cl eq_refl). unfold ret at 1.
      destruct (Host.Number l) as [|z] eqn:Hl; [contradiction|].
      unfold bind at 1.
      destruct rightOut as [q|r cr]; cbn [numberOf Expected.slots].
      * unfold bind at 1.
        destruct (jsonPathValueToNumber_fresh q h) as [right ->].
        unfold ret at 1. unfold bind at 1.
        destruct (negate_path_fresh ("$.heap" +:+ pretty h +:+ ".num") (S h))
          as [negated ->].
        cbn [getAslStateOutput]. unfold bind at 1.
        unfold assignJsonPathOrIntrinsic. unfold bind at 1.
        rewrite newHeapVariable_eq. unfold ret.
        cbn [default from_option id].
        replace (h + 0 + 2 * 1)%nat with (S (S h)) by lia.
        replace (h + 0 + 1)%nat with (S h) by lia.
        finish_minus.
      * unfold ret at 1. unfold bind at 1.
        cbn [negateJsonPathOrLiteralValue]. unfold ret at 1.
        cbn [getAslStateOutput literalValue]. unfold bind at 1.
        unfold assignJsonPathOrIntrinsic. unfold bind at 1.
        rewrite newHeapVariable_eq. unfold ret.
        cbn [default from_option id].
        replace (h + 0 + 2 * 0)%nat with h by lia.
        finish_minus.
Qed.

End Minus.

Section ToStringAndBoolean.
Import ASLGraph Engine Operators Expressions.

(** X5. [conditionState] returns the sub-state [default] / [true] /
    [false] whose output is the path it was given or else a fresh heap
    slot (the only one it takes).  Each branch runs the states of its
    operand and ends by writing the operand's output (the literal [true]
    or [false] when there is no operand) to that path: a path or a
    literal by one [Pass], a condition by a nested [Choice] between the
    literals, and nothing is copied when the operand already is that
    path. *)
Theorem conditionState_writes_output (cond : ASL.Condition)
    (trueState falseState : option NodeResults) (outputJsonPath : option string)
    (h : nat) :
  exists tempHeap h',
    conditionState cond trueState falseState outputJsonPath h
    = inr (SubState "default"
             [ ("default", Node (ChoiceState [(cond, Name "true")] (Name "false")));
               ("true", Expected.branch trueState true tempHeap);
               ("false", Expected.branch falseState false tempHeap) ],
           tempHeap, h')
    /\ match outputJsonPath with
       | Some given => tempHeap = given /\ h' = h
       | None => tempHeap = "$.heap" +:+ pretty h /\ h' = S h
       end
    /\ (forall p, Expected.writes (JsonPath p) tempHeap
                  = if bool_decide (p = tempHeap)
                    then Node (PassState (pass (Some DeferNext)))
                    else Node (PassState
                                 {| InputPath := Some p; Parameters := None;
                                    Result := None;
                                    ResultPath := Some (Some tempHeap);
                                    Next := Some DeferNext; End_ := false |}))
    /\ (forall v, Expected.writes (LiteralValue v false) tempHeap
                  = Node (PassState
                            {| InputPath := None; Parameters := None;
                               Result := Some v;
                               ResultPath := Some (Some tempHeap);
                               Next := Some DeferNext; End_ := false |})).
Proof.
  do 2 eexists. split; [apply conditionState_eq|].
  split; [destruct outputJsonPath; split; reflexivity|].
  split; [intros p; cbn; destruct (bool_decide _); reflexivity|].
  intros v. reflexivity.
Qed.

(** X6. [String()] is the literal empty string.  [String] of an
    expression that lowers to a literal is the literal the host's
    [String] gives for it (stated for the literals whose numbers are safe
    integers, which the model prints as the host does), with the states
    of the expression and no heap slot.  [String] of an expression that lowers to a reference runs,
    after the states of the expression, a [Choice] on [IsString] that
    copies a string and formats anything else with
    [States.JsonToString], both to [str] under a fresh heap slot, which
    is the output. *)
Theorem evalToString_lowering (expr : EvaluatedExpr) (state : NodeResults)
    (h : nat) :
  evaluated expr = inr state ->
  evalToString None h = inr (Bare (LiteralValue (VString "") false), h)
  /\ (forall v c, getAslStateOutput state = LiteralValue v c ->
        Host.prints v = true ->
        evalToString (Some expr) h
        = inr (withStates [statesOf state]
                 (Bare (LiteralValue (VString (Host.String_ v)) false)), h))
  /\ (forall p, getAslStateOutput state = JsonPath p ->
        let heap := "$.heap" +:+ pretty h in
        evalToString (Some expr) h
        = inr (withStates [statesOf state]
                 (WithOutput
                    (SubState "checkString"
                       [ ("checkString",
                          Node (ChoiceState [(ASL.IsString true p, Name "assign")]
                                            (Name "format")));
                         ("format",
                          Node (PassState
                                  {| InputPath := None;
                                     Parameters :=
                                       Some (Fields
                                               [("str.$",
                                                 ICall "States.JsonToString" [IPath p])]);
                                     Result := None;
                                     ResultPath := Some (Some heap);
                                     Next := Some DeferNext; End_ := false |}));
                         ("assign",
                          Node (PassState
                                  {| InputPath := Some p; Parameters := None;
                                     Result := None;
                                     ResultPath := Some (Some (heap +:+ ".str"));
                                     Next := Some DeferNext; End_ := false |})) ])
                    (JsonPath (heap +:+ ".str"))),
               S h)).
Proof.
  intros Hstate. split; [reflexivity|].
  unfold evalToString, evalExprToJsonPathOrLiteralWith, evalExprWith, evalExpr.
  rewrite Hstate. split.
  - intros v c Hout _. unfold bind at 1. unfold bind at 1. rewrite Hout.
    cbn [normalizeToPathOrLiteral]. unfold bind, ret.
    unfold withStates. cbn [statesOf app joinSubStates omap id].
    destruct (statesOf state); reflexivity.
  - intros p Hout. cbn zeta. unfold bind at 1. unfold bind at 1. rewrite Hout.
    cbn [normalizeToPathOrLiteral normalizeOutputToJsonPath].
    unfold bind at 1. unfold ret at 1. unfold bind at 1. unfold bind at 1.
    unfold ret at 1. unfold bind at 1.
    cbv [jsonPathValueToString bind ret orDefined newHeapVariable
         newHeapVariableName].
    unfold withStates. cbn [statesOf app getAslStateOutput].
    unfold joinSubStates. cbn [omap id].
    destruct (statesOf state); reflexivity.
Qed.

Lemma evalToString_lowering_witness :
  evalToString (Some (Sample.literal (VNumber (Num 12)))) 0%nat
  = inr (Bare (LiteralValue (VString "12") false), 0%nat)
  /\ evalToString (Some (Sample.literal (VArray [VNull; VBool true]))) 0%nat
     = inr (Bare (LiteralValue (VString ",true") false), 0%nat).
Proof.
  split.
  - destruct (evalToString_lowering (Sample.literal (VNumber (Num 12)))
                (Bare (LiteralValue (VNumber (Num 12)) false)) 0%nat eq_refl)
      as (_ & Hliteral & _).
    exact (Hliteral _ _ eq_refl eq_refl).
  - destruct (evalToString_lowering (Sample.literal (VArray [VNull; VBool true]))
                (Bare (LiteralValue (VArray [VNull; VBool true]) false)) 0%nat eq_refl)
      as (_ & Hliteral & _).
    exact (Hliteral _ _ eq_refl eq_refl).
Defined.

(** X7. [Boolean(x)] folds a literal while compiling to the boolean
    that the rule it builds for a reference decides when the machine
    runs and the reference holds that value: the two lowerings agree. *)
Theorem Boolean_folds_as_it_runs (v : Value) (p : string) (h : nat)
    (env : ChoiceRule.Env) :
  v <> VUndefined -> v <> VNumber NaN -> env p = Some v ->
  evalBoolean (Some (Sample.literal v)) h
  = inr (Bare (LiteralValue (VBool (Host.truthy v)) false), h)
  /\ exists rule,
       evalBoolean (Some (Sample.path p)) h = inr (Bare (ConditionOutput rule), h)
       /\ ChoiceRule.eval env rule = Some (Host.truthy v).
Proof.
  intros Hundefined Hnan Hp. split; [reflexivity|].
  exists (ASL.isTruthy p). split; [reflexivity|].
  rewrite isTruthy_eval_truthy by (rewrite Hp; congruence).
  rewrite Hp. reflexivity.
Qed.

Lemma Boolean_folds_as_it_runs_witness :
  evalBoolean (Some (Sample.literal (VString ""))) 0%nat
  = inr (Bare (LiteralValue (VBool false) false), 0%nat)
  /\ exists rule,
       evalBoolean (Some (Sample.path "$.x")) 0%nat
       = inr (Bare (ConditionOutput rule), 0%nat)
       /\ ChoiceRule.eval
            (fun q => if bool_decide (q = "$.x") then Some (VString "") else None)
            rule
          = Some false.
Proof.
  apply (Boolean_folds_as_it_runs (VString "") "$.x" 0%nat
           (fun q => if bool_decide (q = "$.x") then Some (VString "") else None));
    [discriminate|discriminate|reflexivity].
Defined.

End ToStringAndBoolean.

Section IfChain.
Import ASLGraph Engine Operators Expressions Statements.

Lemma setKey_fresh {A} (key : string) (value : A) (entries : list (string * A)) :
  key ∉ (fst <$> entries) -> setKey key value entries = entries ++ [(key, value)].
Proof.
  induction entries as [|[k v] rest IH]; intros Hfresh; [reflexivity|].
  cbn in Hfresh |- *. apply not_elem_of_cons in Hfresh as [Hne Hrest].
  rewrite bool_decide_false by congruence. rewrite IH by exact Hrest. reflexivity.
Qed.

Lemma fromEntries_NoDup_go {A} (entries object : list (string * A)) :
  NoDup (fst <$> (object ++ entries)) ->
  fold_left (fun object entry => setKey (fst entry) (snd entry) object) entries object
  = object ++ entries.
Proof.
  revert object. induction entries as [|[k v] rest IH]; intros object Hnodup.
  - cbn. rewrite app_nil_r. reflexivity.
  - cbn [fold_left fst snd]. rewrite setKey_fresh.
    + rewrite IH; rewrite <- app_assoc; [reflexivity|exact Hnodup].
    + rewrite fmap_app in Hnodup. apply NoDup_app in Hnodup as (_ & Hdisjoint & _).
      intros Hin. apply (Hdisjoint k Hin). cbn. left.
Qed.

(** [Object.fromEntries] keeps entries whose keys are distinct as
    they are. *)
Lemma fromEntries_NoDup {A} (entries : list (string * A)) :
  NoDup (fst <$> entries) -> fromEntries entries = entries.
Proof. intros Hnodup. apply (fromEntries_NoDup_go entries []). exact Hnodup. Qed.

Lemma ifStateName_inj : Inj (=) (=) ifStateName.
Proof.
  intros [|i] [|j] Heq; cbn in Heq; try reflexivity; try discriminate Heq.
  injection Heq as Heq. exact (inj pretty _ _ Heq).
Qed.

Lemma ifStateName_not_else (i : nat) : ifStateName i <> "else".
Proof. destruct i; discriminate. Qed.

Lemma collect_nonempty (stmt : IfStmt) :
  exists first rest, fst (collect stmt) = first :: rest.
Proof.
  destruct stmt as [w t [|next|s]]; cbn; eauto.
  destruct (collect next). cbn. eauto.
Qed.

(** What [ifEntries] returns, entry by entry. *)
Lemma ifEntries_spec (isTruthyOutput : Output -> ASL.Condition) (count : nat)
    (els : option Stmt) (returnPass : ReturnPass) (ifs : list IfStmt) :
  forall i h entries h',
    ifEntries isTruthyOutput count els returnPass i ifs h = inr (entries, h') ->
    fst <$> entries = ifStateName <$> seq i (length ifs)
    /\ forall k _if, ifs !! k = Some _if ->
         exists c stmtStates hk hk',
           evaluated (when _if) = inr c
           /\ evalStmt (then_ _if) returnPass hk = inr (stmtStates, hk')
           /\ let choice :=
                Node (ChoiceState
                        [(isTruthyOutput (getAslStateOutput c), Name "body")]
                        (if (i + k + 1 <? count)%nat
                         then Name ("if_" +:+ pretty (i + k + 1)%nat)
                         else if bool_decide (is_Some els) then Name "else"
                         else DeferNext)) in
              entries !! k
              = Some (ifStateName (i + k),
                      SubState "condition"
                        [ ("condition",
                           default choice
                             (joinSubStates [statesOf c; Some choice]));
                          ("body",
                           default (Node (PassState (pass (Some DeferNext))))
                             stmtStates) ]).
Proof.
  induction ifs as [|_if rest IH]; intros i h entries h' Hev.
  - injection Hev as <- <-. split; [reflexivity|]. intros k x Hk. discriminate Hk.
  - cbn [ifEntries] in Hev. unfold bind at 1 in Hev. unfold evalExpr in Hev.
    destruct (evaluated (when _if)) as [err|c] eqn:Hc; [discriminate Hev|].
    unfold bind at 1 in Hev.
    destruct (evalStmt (then_ _if) returnPass h) as [err|[stmtStates h1]] eqn:Hthen;
      [discriminate Hev|].
    unfold bind at 1 in Hev.
    destruct (ifEntries isTruthyOutput count els returnPass (S i) rest h1)
      as [err|[entries' h2]] eqn:Hrest; [discriminate Hev|].
    injection Hev as <- <-.
    destruct (IH _ _ _ _ Hrest) as [Hnames Hentries].
    split.
    + cbn. rewrite Hnames. reflexivity.
    + intros [|k] x Hk.
      * injection Hk as <-. exists c, stmtStates, h, h1.
        split; [exact Hc|]. split; [exact Hthen|].
        cbn zeta. rewrite Nat.add_0_r. reflexivity.
      * destruct (Hentries k x Hk) as (c' & body & hk & hk' & Hc' & Hbody & He).
        exists c', body, hk, hk'.
        replace (i + S k)%nat with (S i + k)%nat by lia.
        split; [exact Hc'|]. split; [exact Hbody|exact He].
Qed.

(** X8. An [if] statement with [n - 1] [else if]s is lowered to the
    sub-state [if] with the states [if], [if_1], ..., [if_(n-1)] and
    [else], in this order and under distinct names.  The state at
    position [i] is the sub-state [condition] / [body]: [body] is what
    the [i]-th branch lowers to (a [Pass] that goes on when it lowers to
    nothing), and [condition] is the states of the [i]-th condition
    followed by the [Choice] that goes to [body] when the output of the
    condition is truthy and otherwise to the next [if], or after the last
    [if] to [else] when the chain has an [else] and to whatever follows
    the statement when it has none.  The state [else] is there in both
    cases: what the [else] branch lowers to, and without an [else] (or
    when it lowers to nothing) a [Pass] that goes on. *)
Theorem if_chain_lowering (isTruthyOutput : Output -> ASL.Condition)
    (stmt : IfStmt) (returnPass : ReturnPass) (h h' : nat) (g : option Graph) :
  evalIfStmt isTruthyOutput stmt returnPass h = inr (g, h') ->
  let ifs := fst (collect stmt) in
  let els := snd (collect stmt) in
  exists states elseState,
    g = Some (SubState "if" (states ++ [("else", elseState)]))
    /\ fst <$> states = ifStateName <$> seq 0 (length ifs)
    /\ NoDup (fst <$> (states ++ [("else", elseState)]))
    /\ (forall k _if, ifs !! k = Some _if ->
          exists c stmtStates hk hk',
            evaluated (when _if) = inr c
            /\ evalStmt (then_ _if) returnPass hk = inr (stmtStates, hk')
            /\ let choice :=
                 Node (ChoiceState
                         [(isTruthyOutput (getAslStateOutput c), Name "body")]
                         (if (k + 1 <? length ifs)%nat
                          then Name (ifStateName (k + 1))
                          else if bool_decide (is_Some els) then Name "else"
                          else DeferNext)) in
               states !! k
               = Some (ifStateName k,
                       SubState "condition"
                         [ ("condition",
                            default choice
                              (joinSubStates [statesOf c; Some choice]));
                           ("body",
                            default (Node (PassState (pass (Some DeferNext))))
                              stmtStates) ]))
    /\ match els with
       | Some els =>
           exists elsState h1,
             evalStmt els returnPass h1 = inr (elsState, h')
             /\ elseState
                = default (Node (PassState (pass (Some DeferNext)))) elsState
       | None => elseState = Node (PassState (pass (Some DeferNext)))
       end.
Proof.
  intros Hev. cbn zeta. unfold evalIfStmt in Hev.
  destruct (collect stmt) as [ifs els] eqn:Hcollect. cbn [fst snd].
  unfold bind at 1 in Hev.
  destruct (ifEntries isTruthyOutput (length ifs) els returnPass 0 ifs h)
    as [err|[ifStates h1]] eqn:Hifs; [discriminate Hev|].
  unfold bind at 1 in Hev.
  destruct (match els with
            | Some els0 => evalStmt els0 returnPass
            | None => ret None
            end h1) as [err|[elsState h2]] eqn:Hels; [discriminate Hev|].
  injection Hev as <- <-.
  destruct (ifEntries_spec _ _ _ _ _ _ _ _ _ Hifs) as [Hnames Hentries].
  assert (Hnodup : NoDup (fst <$> ifStates)).
  { rewrite Hnames. apply NoDup_fmap_2; [apply ifStateName_inj|apply NoDup_seq]. }
  assert (Helse : "else" ∉ (fst <$> ifStates)).
  { rewrite Hnames. intros Hin. apply list_elem_of_fmap in Hin as (i & Heq & _).
    symmetry in Heq. exact (ifStateName_not_else i Heq). }
  rewrite fromEntries_NoDup by exact Hnodup.
  rewrite setKey_fresh by exact Helse.
  exists ifStates, (default (Node (PassState (pass (Some DeferNext)))) elsState).
  split; [reflexivity|]. split; [exact Hnames|].
  split.
  { rewrite fmap_app. apply NoDup_app. split; [exact Hnodup|].
    split; [|apply NoDup_singleton].
    intros x Hx Hin. cbn in Hin. apply list_elem_of_singleton in Hin. subst x.
    exact (Helse Hx). }
  split.
  - intros k x Hk.
    destruct (Hentries k x Hk) as (c & body & hk & hk' & Hc & Hbody & He).
    exists c, body, hk, hk'. cbn [Nat.add] in He.
    split; [exact Hc|]. split; [exact Hbody|].
    cbn zeta in He |- *. rewrite He.
    destruct (k + 1 <? length ifs)%nat eqn:Hlt; [|reflexivity].
    replace (k + 1)%nat with (S k) by lia. reflexivity.
  - destruct els as [els|].
    + exists elsState, h1. split; [exact Hels|reflexivity].
    + injection Hels as <- _. reflexivity.
Qed.

End IfChain.

Section IfChainWitness.
Import ASLGraph Engine Operators Expressions Statements.

Lemma if_chain_lowering_witness :
  exists states elseState,
    evalIfStmt (fun _ => ASL.trueCondition)
      (If (Sample.path "$.a") Sample.returnMessage
          (ElseIf (If (Sample.path "$.b") Sample.returnMessage NoElse)))
      Sample.topLevel 0%nat
    = inr (Some (SubState "if" (states ++ [("else", elseState)])), 0%nat)
    /\ fst <$> states = ["if"; "if_1"]
    /\ elseState = Node (PassState (pass (Some DeferNext))).
Proof.
  edestruct (if_chain_lowering (fun _ => ASL.trueCondition)
               (If (Sample.path "$.a") Sample.returnMessage
                   (ElseIf (If (Sample.path "$.b") Sample.returnMessage NoElse)))
               Sample.topLevel 0%nat)
    as (states & elseState & Hg & Hnames & _ & _ & Helse);
    [vm_compute; reflexivity|].
  exists states, elseState. rewrite <- Hg.
  split; [reflexivity|]. split; [exact Hnames|]. exact Helse.
Defined.

End IfChainWitness.

Section Loops.
Import ASLGraph Engine Operators Expressions Statements.

(** X9. A [while] and a [do] statement are lowered alike: whatever
    the kind, the condition is checked first, by the states of the
    condition followed by the sub-state [check] whose [Choice] enters
    [whenTrue] (the body, which returns to [check]) when the condition
    is truthy and leaves the loop otherwise; [continue] is routed to
    [check] and [break] out of the loop.  A loop whose body lowers to no
    state is rejected with [Unexpected_Error], before the condition is
    looked at. *)
Theorem while_and_do_lowering (isTruthyOutput : Output -> ASL.Condition)
    (kindName : string) (condition : EvaluatedExpr) (stmt : Stmt)
    (returnPass : ReturnPass) (h : nat) :
  (forall h', evalStmt stmt returnPass h = inr (None, h') ->
     evalWhileOrDoStmt isTruthyOutput kindName condition stmt returnPass h
     = inl (SynthError Unexpected_Error
              (Some ("a " +:+ kindName +:+ " block must have at least one Stmt"))))
  /\ (forall blockState h' state,
        evalStmt stmt returnPass h = inr (Some blockState, h') ->
        evaluated condition = inr state ->
        evalWhileOrDoStmt isTruthyOutput kindName condition stmt returnPass h
        = inr (joinSubStates
                 [ statesOf state;
                   Some (SubState "check"
                           [ ("check",
                              Node (ChoiceState
                                      [(isTruthyOutput (getAslStateOutput state),
                                        Name "whenTrue")]
                                      DeferNext));
                             ("whenTrue", updateDeferredNextStates "check" blockState);
                             ("__ContinueNext",
                              Node (PassState (pass (Some (Name "check")))));
                             ("__BreakNext",
                              Node (PassState (pass (Some DeferNext)))) ]) ],
               h'))
  /\ (forall blockState h' otherKind,
        evalStmt stmt returnPass h = inr (Some blockState, h') ->
        evalWhileOrDoStmt isTruthyOutput kindName condition stmt returnPass h
        = evalWhileOrDoStmt isTruthyOutput otherKind condition stmt returnPass h).
Proof.
  unfold evalWhileOrDoStmt. repeat split.
  - intros h' Hbody. unfold bind. rewrite Hbody. reflexivity.
  - intros blockState h' state Hbody Hcond. unfold bind at 1. rewrite Hbody.
    unfold evalExprToSubState, evalExpr, bind, ret. rewrite Hcond. reflexivity.
  - intros blockState h' otherKind Hbody. unfold bind. rewrite Hbody.
    reflexivity.
Qed.

Lemma while_and_do_lowering_witness :
  evalWhileOrDoStmt (fun _ => ASL.trueCondition) "DoStmt" (Sample.path "$.more")
    EmptyStmt Sample.topLevel 0%nat
  = inl (SynthError Unexpected_Error
           (Some "a DoStmt block must have at least one Stmt"))
  /\ evalWhileOrDoStmt (fun _ => ASL.trueCondition) "DoStmt" (Sample.path "$.more")
       (BreakStmt true) Sample.topLevel 0%nat
     = evalWhileOrDoStmt (fun _ => ASL.trueCondition) "WhileStmt"
         (Sample.path "$.more") (BreakStmt true) Sample.topLevel 0%nat.
Proof.
  split.
  - destruct (while_and_do_lowering (fun _ => ASL.trueCondition) "DoStmt"
                (Sample.path "$.more") EmptyStmt Sample.topLevel 0%nat)
      as (Hempty & _).
    exact (Hempty 0%nat eq_refl).
  - destruct (while_and_do_lowering (fun _ => ASL.trueCondition) "DoStmt"
                (Sample.path "$.more") (BreakStmt true) Sample.topLevel 0%nat)
      as (_ & _ & Hsame).
    exact (Hsame _ 0%nat "WhileStmt" eq_refl).
Defined.

End Loops.

Section SubArray.
Import ASLGraph Engine Operators Expressions Methods.

Lemma evalOptional_bound (n : option number) (h : nat) :
  evalOptional (ExpectedMethods.bound n) h
  = inr ((match n with Some _ => [None; None] | None => [] end,
          (fun n => Literal (VNumber n) false) <$> n), h).
Proof. destruct n; reflexivity. Qed.

Lemma withStates_nothing (states : list (option Graph)) (first : option Graph)
    (output : Output) :
  omap id states = [] ->
  withStates (first :: states) (Bare output) = withStates [first] (Bare output).
Proof.
  intros Hnone. unfold withStates, joinSubStates.
  change ((first :: states) ++ [statesOf (Bare output)])
    with ([first] ++ states ++ [None]).
  rewrite !omap_app, Hnone. reflexivity.
Qed.

(** X10. [slice] with bounds that are literal numbers or not given is
    lowered without a state of its own and without a heap slot.  On a
    reference [p] the output is the JSON Path [p[start:end]], [p[start:]],
    [p[:end]] or [p] itself (the bounds printed as the host prints them,
    stated for bounds that are safe integers or NaN); on an array literal it is the literal the
    host's [slice] gives, a run of consecutive items of the array (all of
    them when no bound is given).  An array operand that is a literal
    but no array is rejected with [Invalid_Input]. *)
Theorem subArray_constant_bounds (array : EvaluatedExpr) (state : NodeResults)
    (start end_ : option number) (h : nat) :
  evaluated array = inr state ->
  (forall p, getAslStateOutput state = JsonPath p ->
     from_option Host.safe true start = true ->
     from_option Host.safe true end_ = true ->
     subArray array (ExpectedMethods.bound start) (ExpectedMethods.bound end_) h
     = inr (withStates [statesOf state]
              (Bare (JsonPath (ExpectedMethods.slicePath p start end_))), h))
  /\ (forall items c, getAslStateOutput state = LiteralValue (VArray items) c ->
        subArray array (ExpectedMethods.bound start) (ExpectedMethods.bound end_) h
        = inr (withStates [statesOf state]
                 (Bare (LiteralValue (VArray (HostArrays.slice items start end_)) false)),
               h)
        /\ (exists before after,
              items = before ++ HostArrays.slice items start end_ ++ after)
        /\ HostArrays.slice items None None = items)
  /\ (forall v c, getAslStateOutput state = LiteralValue v c ->
        (forall items, v <> VArray items) ->
        subArray array (ExpectedMethods.bound start) (ExpectedMethods.bound end_) h
        = inl (SynthError Invalid_Input
                 (Some "Expected subArray array to be an array literal or a reference"))).
Proof.
  intros Hstate.
  assert (Hbounds : forall n : option number,
             unlessUndefined ((fun n => Literal (VNumber n) false) <$> n)
             = (fun n => Literal (VNumber n) false) <$> n).
  { intros [n|]; reflexivity. }
  assert (Hvalue : forall n : option number,
             boundValue ((fun n => Literal (VNumber n) false) <$> n) = n).
  { intros [n|]; reflexivity. }
  assert (Hnumber : forall n : option number,
             literalNotNumber ((fun n => Literal (VNumber n) false) <$> n) = false).
  { intros [n|]; reflexivity. }
  assert (Hliteral : forall n : option number,
             literalOrAbsent ((fun n => Literal (VNumber n) false) <$> n) = true).
  { intros [n|]; reflexivity. }
  assert (Hnone : omap id
                    (([None] ++ match start with Some _ => [None; None] | None => [] end
                      ++ match end_ with Some _ => [None; None] | None => [] end)
                     : list (option Graph))
                  = []).
  { destruct start, end_; reflexivity. }
  unfold subArray, evalContext, evalExprToJsonPathOrLiteral, evalExpr.
  rewrite Hstate.
  split; [|split; [intros items c Hout; split; [|split]|]].
  - intros p Hout _ _. unfold bind at 1. unfold bind at 1. unfold bind at 1.
    unfold bind at 1. rewrite Hout. cbn [normalizeToPathOrLiteral].
    unfold bind at 1. unfold ret at 1. unfold ret at 1.
    unfold bind at 1. rewrite evalOptional_bound.
    unfold bind at 1. rewrite evalOptional_bound.
    rewrite !Hbounds, !Hvalue, !Hnumber, !Hliteral.
    cbn [arrayOperand andb]. unfold ret.
    change ([statesOf state; None] ++ ?x ++ ?y)
      with (statesOf state :: ([None] ++ x ++ y)).
    rewrite withStates_nothing by exact Hnone. reflexivity.
  - unfold bind at 1. unfold bind at 1. unfold bind at 1.
    unfold bind at 1. rewrite Hout. cbn [normalizeToPathOrLiteral].
    unfold bind at 1. unfold ret at 1. unfold ret at 1.
    unfold bind at 1. rewrite evalOptional_bound.
    unfold bind at 1. rewrite evalOptional_bound.
    rewrite !Hbounds, !Hvalue, !Hnumber, !Hliteral.
    cbn [arrayOperand andb]. unfold ret.
    change ([statesOf state; None] ++ ?x ++ ?y)
      with (statesOf state :: ([None] ++ x ++ y)).
    rewrite withStates_nothing by exact Hnone. reflexivity.
  - unfold HostArrays.slice.
    exists (take (Z.to_nat (HostArrays.relativeIndex (Z.of_nat (length items)) start 0))
              items).
    eexists. rewrite take_drop. rewrite take_drop. reflexivity.
  - unfold HostArrays.slice. cbn [HostArrays.relativeIndex].
    rewrite Z.sub_0_r, Nat2Z.id. cbn [Z.to_nat drop]. apply firstn_all.
  - intros v c Hout Hnot. unfold bind at 1. unfold bind at 1. unfold bind at 1.
    unfold bind at 1. rewrite Hout. cbn [normalizeToPathOrLiteral].
    unfold bind at 1. unfold ret at 1. unfold ret at 1.
    unfold bind at 1. rewrite evalOptional_bound.
    unfold bind at 1. rewrite evalOptional_bound.
    destruct v; try reflexivity. destruct (Hnot items eq_refl).
Qed.

Lemma subArray_constant_bounds_witness :
  subArray (Sample.path "$.xs") (ExpectedMethods.bound (Some (Num 1)))
    (ExpectedMethods.bound None) 0%nat
  = inr (Bare (JsonPath "$.xs[1:]"), 0%nat)
  /\ subArray (Sample.literal (VArray [VBool true; VNull; VString "c"]))
       (ExpectedMethods.bound (Some (Num (-2))))
       (ExpectedMethods.bound (Some (Num 5))) 0%nat
     = inr (Bare (LiteralValue (VArray [VNull; VString "c"]) false), 0%nat).
Proof.
  split.
  - destruct (subArray_constant_bounds (Sample.path "$.xs") (Bare (JsonPath "$.xs"))
                (Some (Num 1)) None 0%nat eq_refl) as (Hpath & _).
    exact (Hpath _ eq_refl eq_refl eq_refl).
  - destruct (subArray_constant_bounds
                (Sample.literal (VArray [VBool true; VNull; VString "c"]))
                (Bare (LiteralValue (VArray [VBool true; VNull; VString "c"]) false))
                (Some (Num (-2))) (Some (Num 5)) 0%nat eq_refl)
      as (_ & Hliteral & _).
    destruct (Hliteral _ _ eq_refl) as (Heval & _). exact Heval.
Defined.

End SubArray.

Section SplitAndJoin.
Import ASLGraph Engine Operators Expressions Methods.

Lemma append_nil_r (s : string) : s +:+ "" = s.
Proof.
  induction s as [|c s IH]; [reflexivity|].
  change (String c (s +:+ "") = String c s). rewrite IH. reflexivity.
Qed.

Lemma append_assoc (s t u : string) : (s +:+ t) +:+ u = s +:+ (t +:+ u).
Proof.
  induction s as [|c s IH]; [reflexivity|].
  change (String c ((s +:+ t) +:+ u) = String c (s +:+ (t +:+ u))).
  rewrite IH. reflexivity.
Qed.

Lemma join_fold (separator : string) (rest : list string) (s t : string) :
  fold_left (fun acc q => acc +:+ separator +:+ q) rest (s +:+ t)
  = s +:+ fold_left (fun acc q => acc +:+ separator +:+ q) rest t.
Proof.
  revert t. induction rest as [|q rest IH]; intros t; [reflexivity|].
  cbn [fold_left]. rewrite append_assoc. apply IH.
Qed.

Lemma join_cons (separator a b : string) (rest : list string) :
  Host.join separator (a :: b :: rest)
  = a +:+ separator +:+ Host.join separator (b :: rest).
Proof.
  unfold Host.join. cbn [fold_left].
  rewrite join_fold. f_equal. rewrite join_fold. reflexivity.
Qed.

Lemma prefix_app (separator s : string) :
  String.prefix separator s = true -> exists rest, s = separator +:+ rest.
Proof.
  revert s. induction separator as [|a separator IH]; intros s Hprefix.
  - exists s. reflexivity.
  - destruct s as [|b s]; [discriminate Hprefix|]. cbn in Hprefix.
    destruct (ascii_dec a b) as [->|]; [|discriminate Hprefix].
    destruct (IH s Hprefix) as [rest ->]. exists rest. reflexivity.
Qed.

Lemma pieces_skip (separator t rest piece : string) :
  HostArrays.pieces separator (String.length t) piece (t +:+ rest)
  = HostArrays.pieces separator 0 piece rest.
Proof.
  induction t as [|c t IH]; [reflexivity|]. exact IH.
Qed.

Lemma pieces_cons (separator : string) (skip : nat) (piece s : string) :
  exists first rest, HostArrays.pieces separator skip piece s = first :: rest.
Proof.
  revert skip piece. induction s as [|c s IH]; intros skip piece;
    cbn [HostArrays.pieces]; [eauto|].
  destruct skip as [|skip]; [|apply IH].
  destruct (String.prefix separator (String c s)); [eauto|apply IH].
Qed.

Lemma length_append (s t : string) :
  String.length (s +:+ t) = (String.length s + String.length t)%nat.
Proof.
  induction s as [|c s IH]; [reflexivity|].
  change (S (String.length (s +:+ t)) = S (String.length s + String.length t)).
  rewrite IH. reflexivity.
Qed.

Lemma join_pieces (a : ascii) (separator : string) (n : nat) :
  forall s piece, (String.length s <= n)%nat ->
    Host.join (String a separator)
      (HostArrays.pieces (String a separator) 0 piece s)
    = piece +:+ s.
Proof.
  induction n as [|n IH]; intros s piece Hlen.
  - destruct s; [|cbn in Hlen; lia].
    cbn [HostArrays.pieces Host.join fold_left]. rewrite append_nil_r. reflexivity.
  - destruct s as [|c s];
      [cbn [HostArrays.pieces Host.join fold_left]; rewrite append_nil_r;
       reflexivity|].
    cbn [HostArrays.pieces].
    destruct (String.prefix (String a separator) (String c s)) eqn:Hprefix.
    + apply prefix_app in Hprefix as [rest Hrest]. cbn in Hrest.
      injection Hrest as -> ->.
      replace (String.length (String a separator) - 1)%nat
        with (String.length separator) by (cbn [String.length]; lia).
      rewrite pieces_skip.
      destruct (pieces_cons (String a separator) 0 "" rest) as (first & more & Hp).
      rewrite Hp, join_cons, <- Hp, IH.
      * reflexivity.
      * cbn in Hlen. rewrite length_append in Hlen. lia.
    + rewrite IH by (cbn in Hlen; lia).
      rewrite append_assoc. reflexivity.
Qed.

Lemma join_characters (s : string) :
  Host.join "" ((fun c => String c "") <$> list_ascii_of_string s) = s.
Proof.
  induction s as [|c s IH]; [reflexivity|].
  cbn [list_ascii_of_string fmap list_fmap].
  destruct s as [|d s]; [reflexivity|].
  cbn [list_ascii_of_string fmap list_fmap] in IH |- *.
  rewrite join_cons. cbn [String.append]. rewrite IH. reflexivity.
Qed.

Lemma join_strings (items : list string) (separator : string) :
  HostArrays.join (VString <$> items) separator = Host.join separator items.
Proof.
  unfold HostArrays.join. f_equal.
  induction items as [|item items IH]; [reflexivity|].
  cbn [fmap list_fmap] in IH |- *. rewrite IH. reflexivity.
Qed.

(** The host's [join] undoes the host's [split]. *)
Lemma join_split (s separator : string) :
  HostArrays.join (VString <$> HostArrays.split s separator) separator = s.
Proof.
  rewrite join_strings. unfold HostArrays.split.
  destruct separator as [|a separator]; [apply join_characters|].
  apply (join_pieces a separator (String.length s)). lia.
Qed.

(** X11. [s.split(separator).join(separator)] on literal strings:
    the literal array that [split] is lowered to, lowered again by
    [join] with the same separator, is the literal [s], with no state and
    no heap slot on the way. *)
Theorem join_of_split_is_identity
    (joinAtRunTime : string -> PathOrLiteral -> M NodeResults)
    (s separator : string) (h : nat) :
  exists items,
    evalSplit (Sample.literal (VString s))
      (Some (Sample.literal (VString separator))) None h
    = inr (Bare (LiteralValue (VArray items) false), h)
    /\ joinToStateOutput joinAtRunTime (Sample.literal (VArray items))
         (Some (Sample.literal (VString separator))) h
       = inr (Bare (LiteralValue (VString s) false), h).
Proof.
  exists (VString <$> HostArrays.split s separator).
  split; [reflexivity|].
  unfold joinToStateOutput, evalContext, evalExpr, bind. cbn.
  rewrite join_split. reflexivity.
Qed.

(** X12. [split] without a splitter is rejected with [Invalid_Input].
    On two literal strings a limit is never accepted: whatever it lowers
    to, the call is rejected with [Unsupported_Feature].  When the string
    or the splitter lowers to a reference (and the other to a reference or
    a literal string) the call is lowered to the states of the two
    expressions followed by one [Pass] that computes [States.StringSplit]
    under [out] of a fresh heap slot, and the limit is not looked at: the
    lowering is the same with and without it. *)
Theorem split_lowering (value splitter : EvaluatedExpr)
    (limit : option EvaluatedExpr) (h : nat) :
  evalSplit value None limit h
  = inl (SynthError Invalid_Input
           (Some "Step Functions String Split splitter argument is required"))
  /\ (forall s separator given l,
        evaluated value = inr (Bare (LiteralValue (VString s) false)) ->
        evaluated splitter = inr (Bare (LiteralValue (VString separator) false)) ->
        limit = Some given -> evaluated given = inr l ->
        exists message,
          evalSplit value (Some splitter) limit h
          = inl (SynthError Unsupported_Feature (Some message)))
  /\ (forall valueState splitterState valueOut splitterOut,
        evaluated value = inr valueState ->
        evaluated splitter = inr splitterState ->
        getAslStateOutput valueState = toOutput valueOut ->
        getAslStateOutput splitterState = toOutput splitterOut ->
        (forall v c, valueOut = Literal v c -> exists s, v = VString s) ->
        (forall v c, splitterOut = Literal v c ->
                     exists separator, v = VString separator) ->
        isLiteral valueOut && isLiteral splitterOut = false ->
        evalSplit value (Some splitter) limit h
        = inr (withStates [statesOf valueState; statesOf splitterState]
                 (WithOutput
                    (Node (PassState
                             {| InputPath := None;
                                Parameters :=
                                  Some (Fields
                                          [("out.$",
                                            ICall "States.StringSplit"
                                              [ argument (toOutput valueOut);
                                                argument (toOutput splitterOut) ])]);
                                Result := None;
                                ResultPath := Some (Some ("$.heap" +:+ pretty h));
                                Next := Some DeferNext; End_ := false |}))
                    (JsonPath ("$.heap" +:+ pretty h +:+ ".out"))),
               S h)
        /\ evalSplit value (Some splitter) limit h
           = evalSplit value (Some splitter) None h).
Proof.
  split; [reflexivity|]. split.
  - intros s separator given l Hvalue Hsplitter -> Hlimit.
    unfold evalSplit, evalContext, evalExprToJsonPathOrLiteral, evalExpr.
    rewrite Hvalue, Hsplitter. cbn [evalOptional].
    unfold evalExprToJsonPathOrLiteral, evalExpr. rewrite Hlimit.
    unfold bind at 1. unfold bind at 1. unfold bind at 1. unfold bind at 1.
    cbn [getAslStateOutput normalizeToPathOrLiteral].
    unfold bind at 1. unfold ret at 1. unfold ret at 1.
    unfold bind at 1. unfold bind at 1. unfold bind at 1.
    cbn [getAslStateOutput normalizeToPathOrLiteral].
    unfold bind at 1. unfold ret at 1. unfold ret at 1.
    cbn [isLiteral isLiteralStr toOutput isLiteralValue isLiteralString andb negb].
    unfold bind at 1. unfold bind at 1. unfold bind at 1. unfold bind at 1.
    destruct (normalizeToPathOrLiteral_returns (getAslStateOutput l) h)
      as [[[normalized limitOut] h1] ->].
    unfold ret at 1. unfold ret at 1.
    destruct (negb (isLiteralNum limitOut)); eexists; reflexivity.
  - intros valueState splitterState valueOut splitterOut Hvalue Hsplitter
      HvalueOut HsplitterOut Hstring Hseparator Hreference.
    unfold evalSplit, evalContext, evalExprToJsonPathOrLiteral, evalExpr.
    rewrite Hvalue, Hsplitter.
    destruct valueState as [valueOutput|valueStates valueOutput],
             splitterState as [splitterOutput|splitterStates splitterOutput];
      cbn [getAslStateOutput] in HvalueOut, HsplitterOut; subst;
      (destruct valueOut as [p|v c], splitterOut as [q|v' c'];
       try discriminate Hreference;
       [ split; reflexivity
       | destruct (Hseparator v' c' eq_refl) as [separator ->]; split; reflexivity
       | destruct (Hstring v c eq_refl) as [s ->]; split; reflexivity ]).
Qed.

Lemma split_lowering_witness :
  (exists message,
     evalSplit (Sample.literal (VString "a,b"))
       (Some (Sample.literal (VString ","))) (Some (Sample.literal (VNumber (Num 1))))
       0%nat
     = inl (SynthError Unsupported_Feature (Some message)))
  /\ evalSplit (Sample.path "$.s") (Some (Sample.literal (VString ",")))
       (Some (Sample.literal (VNumber (Num 1)))) 0%nat
     = evalSplit (Sample.path "$.s") (Some (Sample.literal (VString ","))) None 0%nat.
Proof.
  split.
  - destruct (split_lowering (Sample.literal (VString "a,b"))
                (Sample.literal (VString ","))
                (Some (Sample.literal (VNumber (Num 1)))) 0%nat) as (_ & Hlimit & _).
    exact (Hlimit "a,b" "," _ _ eq_refl eq_refl eq_refl eq_refl).
  - destruct (split_lowering (Sample.path "$.s") (Sample.literal (VString ","))
                (Some (Sample.literal (VNumber (Num 1)))) 0%nat) as (_ & _ & Hpath).
    destruct (Hpath _ _ (Path "$.s") (Literal (VString ",") false)
                eq_refl eq_refl eq_refl eq_refl)
      as [_ Hsame].
    + intros v c Hliteral. discriminate Hliteral.
    + intros v c [= <- <-]. eauto.
    + reflexivity.
    + exact Hsame.
Defined.

End SplitAndJoin.

Section Update.
Import ASLGraph Engine Operators Expressions Methods.

(** X13. [++x] and [x++] (and [--]) on a variable [p]: both compute
    [States.MathAdd(p, 1)] (or [-1]) under [out] of a fresh heap slot
    and end by writing that result back to [p].  The prefix form returns
    the slot of the new value; the postfix form first copies [p] to a
    second fresh slot and returns that copy, the value before the update.
    An operand that is no variable reference, or that lowers to a
    literal or a condition, is rejected with [Unexpected_Error]. *)
Theorem update_lowering (op : UpdateOp) (p : string) (h : nat) :
  let heap := "$.heap" +:+ pretty h in
  let compute :=
    Node (PassState
            {| InputPath := None;
               Parameters :=
                 Some (Fields
                         [("out.$",
                           ICall "States.MathAdd"
                             [ IPath p;
                               ILiteral (VNumber (Num match op with
                                                      | PlusPlus => 1
                                                      | MinusMinus => -1
                                                      end)) ])]);
               Result := None; ResultPath := Some (Some heap);
               Next := Some DeferNext; End_ := false |}) in
  let writeBack := Expected.assigns (JsonPath (heap +:+ ".out")) p in
  evalUpdate op true true (Sample.path p) h
  = inr (WithOutput
           (SubState "0"
              [ ("0", updateDeferredNextStates "1" compute); ("1", writeBack) ])
           (JsonPath (heap +:+ ".out")),
         S h)
  /\ evalUpdate op false true (Sample.path p) h
     = inr (WithOutput
              (SubState "0"
                 [ ("0", updateDeferredNextStates "1"
                           (Expected.assigns (JsonPath p)
                              ("$.heap" +:+ pretty (S h))));
                   ("1", updateDeferredNextStates "2" compute);
                   ("2", writeBack) ])
              (JsonPath ("$.heap" +:+ pretty (S h))),
            S (S h))
  /\ (forall isUnaryExpr operand,
        evalUpdate op isUnaryExpr false operand h
        = inl (SynthError Unexpected_Error
                 (Some "Expected left side of assignment to be a variable.")))
  /\ (forall isUnaryExpr v,
        exists message,
          evalUpdate op isUnaryExpr true (Sample.literal v) h
          = inl (SynthError Unexpected_Error (Some message))).
Proof.
  cbn zeta. split; [|split; [|split]].
  - destruct op; reflexivity.
  - destruct op; reflexivity.
  - intros isUnaryExpr operand. reflexivity.
  - intros isUnaryExpr v. eexists. reflexivity.
Qed.

End Update.

Section Template.
Import ASLGraph Engine Operators Expressions Templates.














End Template.

Section DeclarationNames.
Import VariableNames.

Lemma variable_formatName_inj (name : string) (n m : nat) :
  formatName name n = formatName name m -> n = m.
Proof.
  unfold formatName. intros H.
  apply (inj (String.append name)) in H.
  apply (inj (String.append "__")) in H.
  exact (inj pretty _ _ H).
Qed.

Lemma variable_unused_exists (names : gset string) (name : string) (n : nat) :
  exists k, (k < S (size names))%nat /\ formatName name (n + k) ∉ names.
Proof.
  set (candidates := (fun k => formatName name (n + k)) <$> seq 0 (S (size names))).
  destruct (decide (Forall (fun u => u ∈ names) candidates)) as [Hall|Hsome].
  - exfalso.
    assert (Hnodup : NoDup candidates).
    { apply NoDup_fmap_2; [|apply NoDup_seq].
      intros a b Hab. apply variable_formatName_inj in Hab. lia. }
    assert (Hsub : list_to_set (C:=gset string) candidates ⊆ names).
    { intros u Hu. apply elem_of_list_to_set in Hu.
      rewrite Forall_forall in Hall. auto. }
    apply subseteq_size in Hsub.
    rewrite size_list_to_set in Hsub by exact Hnodup.
    unfold candidates in Hsub. rewrite length_fmap, length_seq in Hsub. lia.
  - apply not_Forall_Exists in Hsome; [|intros u; apply _].
    apply Exists_exists in Hsome as (u & Hu & Hnot).
    apply list_elem_of_fmap in Hu as (k & -> & Hk).
    apply elem_of_seq in Hk. exists k. split; [lia|exact Hnot].
Qed.

Lemma variable_firstUnused_free (names : gset string) (name : string)
    (fuel n : nat) :
  (exists k, (k < fuel)%nat /\ formatName name (n + k) ∉ names) ->
  formatName name (firstUnused names name fuel n) ∉ names.
Proof.
  revert n. induction fuel as [|fuel IH]; intros n (k & Hk & Hfree); [lia|].
  cbn. destruct (decide (formatName name n ∈ names)) as [Hin|Hout]; [|exact Hout].
  destruct k as [|k]; [rewrite Nat.add_0_r in Hfree; contradiction|].
  apply IH. exists k. split; [lia|].
  replace (S n + k)%nat with (n + S k)%nat by lia. exact Hfree.
Qed.

Lemma append_not_empty (s t : string) : s <> "" -> s +:+ t <> "".
Proof. destruct s; [congruence|discriminate]. Qed.

(** What one request to the generator returns and registers. *)
Lemma variable_getUnique_spec (name : string) (names : gset string) :
  let '(unique, names') := getUnique name names in
  names' = {[unique]} ∪ names
  /\ (unique ∉ names)
  /\ (name ∉ names -> unique = name)
  /\ (name <> "" -> unique <> "").
Proof.
  unfold getUnique. destruct (decide (name ∈ names)) as [Hin|Hout].
  - split; [reflexivity|]. split.
    + apply variable_firstUnused_free, variable_unused_exists.
    + split; [intros Hout; contradiction|].
      intros Hname. apply append_not_empty. exact Hname.
  - split; [reflexivity|]. split; [exact Hout|]. split; [reflexivity|]. auto.
Qed.

Lemma getDeclarationName_spec (binding : Declaration) (names : Names) :
  consistent names -> name binding <> "" ->
  exists unique names',
    getDeclarationName binding names = (Some unique, names')
    /\ consistent names'
    /\ variableNamesMap names' !! node binding = Some unique
    /\ (forall k n, variableNamesMap names !! k = Some n ->
                    variableNamesMap names' !! k = Some n)
    /\ (forall n, variableNamesMap names !! node binding = Some n ->
                  names' = names).
Proof.
  intros (Hgenerated & Hinjective & Hnonempty) Hname. unfold getDeclarationName.
  destruct (variableNamesMap names !! node binding) as [kept|] eqn:Hkept.
  - destruct kept as [|c kept]; [destruct (Hnonempty _ _ Hkept eq_refl)|].
    exists (String c kept), names. rewrite Hkept.
    split; [reflexivity|]. split; [split; [|split]; assumption|].
    split; [reflexivity|]. split; [auto|]. reflexivity.
  - pose proof (variable_getUnique_spec (name binding) (generated names)) as Hspec.
    destruct (getUnique (name binding) (generated names)) as [unique generated'].
    destruct Hspec as (-> & Hfresh & _ & Hunique). specialize (Hunique Hname).
    exists unique,
      {| generated := {[unique]} ∪ generated names;
         variableNamesMap := <[node binding := unique]> (variableNamesMap names) |}.
    cbn [variableNamesMap]. rewrite lookup_insert_eq.
    split; [reflexivity|]. split; [|split; [reflexivity|split]].
    + split; [|split]; cbn [variableNamesMap generated].
      * intros k n Hk. destruct (decide (k = node binding)) as [->|Hne].
        -- rewrite lookup_insert_eq in Hk. injection Hk as <-. set_solver.
        -- rewrite lookup_insert_ne in Hk by congruence.
           apply Hgenerated in Hk. set_solver.
      * intros k1 k2 n H1 H2.
        destruct (decide (k1 = node binding)) as [->|Hne1],
                 (decide (k2 = node binding)) as [->|Hne2]; [reflexivity|..].
        -- rewrite lookup_insert_eq in H1. injection H1 as <-.
           rewrite lookup_insert_ne in H2 by congruence.
           destruct (Hfresh (Hgenerated _ _ H2)).
        -- rewrite lookup_insert_eq in H2. injection H2 as <-.
           rewrite lookup_insert_ne in H1 by congruence.
           destruct (Hfresh (Hgenerated _ _ H1)).
        -- rewrite lookup_insert_ne in H1, H2 by congruence. eauto.
      * intros k n Hk. destruct (decide (k = node binding)) as [->|Hne].
        -- rewrite lookup_insert_eq in Hk. injection Hk as <-. exact Hunique.
        -- rewrite lookup_insert_ne in Hk by congruence. eauto.
    + intros k n Hk. destruct (decide (k = node binding)) as [->|Hne];
        [congruence|]. rewrite lookup_insert_ne by congruence. exact Hk.
    + intros n Hn. discriminate Hn.
Qed.

Lemma declare_spec (bindings : list Declaration) :
  forall names,
    consistent names -> Forall (fun b => name b <> "") bindings ->
    exists final,
      consistent final
      /\ (forall k n, variableNamesMap names !! k = Some n ->
                      variableNamesMap final !! k = Some n)
      /\ forall i b, bindings !! i = Some b ->
           exists unique,
             declare bindings names !! i = Some (Some unique)
             /\ variableNamesMap final !! node b = Some unique.
Proof.
  induction bindings as [|binding rest IH]; intros names Hnames Hok.
  - exists names. split; [exact Hnames|]. split; [auto|].
    intros i b Hi. discriminate Hi.
  - apply Forall_cons in Hok as [Hname Hrest].
    destruct (getDeclarationName_spec binding names Hnames Hname)
      as (unique & names' & Heq & Hnames' & Hkept & Hpreserved & _).
    destruct (IH names' Hnames' Hrest) as (final & Hfinal & Hkeeps & Heach).
    exists final. split; [exact Hfinal|]. split; [auto|].
    intros [|i] b Hi; cbn [declare]; rewrite Heq.
    + injection Hi as <-. exists unique. split; [reflexivity|]. auto.
    + exact (Heach i b Hi).
Qed.

Lemma consistent_initial : consistent initial.
Proof.
  split; [|split]; intros *; cbn; rewrite lookup_empty; discriminate.
Qed.

(** X15. During one compilation every declaration (with a name that
    is not empty) is given a name, and two requests return the same name
    exactly when they are for the same declaration: the name of a
    declaration is stable, and no two declarations share a name.  A
    request for a declaration that already has a name registers
    nothing. *)
Theorem declaration_names_stable_and_distinct (bindings : list Declaration)
    (i j : nat) (b1 b2 : Declaration) :
  Forall (fun b => name b <> "") bindings ->
  bindings !! i = Some b1 -> bindings !! j = Some b2 ->
  (exists n1 n2,
     declare bindings initial !! i = Some (Some n1)
     /\ declare bindings initial !! j = Some (Some n2)
     /\ (n1 = n2 <-> node b1 = node b2))
  /\ (forall names kept,
        variableNamesMap names !! node b1 = Some kept -> kept <> "" ->
        getDeclarationName b1 names = (Some kept, names)).
Proof.
  intros Hok Hi Hj. split.
  - destruct (declare_spec bindings initial consistent_initial Hok)
      as (final & (_ & Hinjective & _) & _ & Heach).
    destruct (Heach i b1 Hi) as (n1 & Hn1 & Hf1).
    destruct (Heach j b2 Hj) as (n2 & Hn2 & Hf2).
    exists n1, n2. split; [exact Hn1|]. split; [exact Hn2|].
    split; [intros ->; eauto|]. intros Hnode. rewrite Hnode in Hf1. congruence.
  - intros names kept Hkept Hnonempty. unfold getDeclarationName. rewrite Hkept.
    destruct kept; [congruence|]. rewrite Hkept. reflexivity.
Qed.

Lemma declaration_names_stable_and_distinct_witness :
  declare [ {| node := 1; name := "a" |}; {| node := 2; name := "a" |};
            {| node := 1; name := "a" |}; {| node := 3; name := "a__1" |} ]
    initial
  = [Some "a"; Some "a__1"; Some "a"; Some "a__1__1"]
  /\ exists n1 n2,
       declare [ {| node := 1; name := "a" |}; {| node := 2; name := "a" |} ]
         initial !! 0%nat = Some (Some n1)
       /\ declare [ {| node := 1; name := "a" |}; {| node := 2; name := "a" |} ]
            initial !! 1%nat = Some (Some n2)
       /\ (n1 = n2 <-> 1%nat = 2%nat).
Proof.
  split; [vm_compute; reflexivity|].
  apply (declaration_names_stable_and_distinct
           [ {| node := 1; name := "a" |}; {| node := 2; name := "a" |} ]
           0 1 {| node := 1; name := "a" |} {| node := 2; name := "a" |});
    [repeat constructor; discriminate|reflexivity|reflexivity].
Defined.

End DeclarationNames.

Section MoreWitnesses.
Import ASLGraph Engine Operators Expressions.

Lemma logical_decides_at_run_time_witness :
  exists rule,
    evalLogical Nullish (Sample.path "$.x") (Sample.literal (VNumber (Num 0))) 0%nat
    = inr (WithOutput
             (SubState "default"
                [ ("default",
                   Node (ChoiceState [(rule, Name "true")] (Name "false")));
                  ("true", Expected.assigns (JsonPath "$.x") "$.heap0");
                  ("false",
                   Expected.assigns (LiteralValue (VNumber (Num 0)) false) "$.heap0") ])
             (JsonPath "$.heap0"),
           1%nat)
    /\ Runtime.choose
         (fun q => if bool_decide (q = "$.x") then Some VNull else None)
         [(rule, Name "true")] (Name "false")
       = Some (Name "false").
Proof.
  destruct (logical_decides_at_run_time Nullish "$.x"
              (Sample.literal (VNumber (Num 0)))
              (Bare (LiteralValue (VNumber (Num 0)) false)) 0%nat
              (fun q => if bool_decide (q = "$.x") then Some VNull else None))
    as (rule & Heval & Hchoose); [discriminate|discriminate|reflexivity|].
  exists rule. split; [exact Heval|exact Hchoose].
Defined.

Lemma minus_lowering_witness :
  minus (Literal (VString "five") false) (Path "$.x") 0%nat
  = inr (Bare (LiteralValue VNull false), 0%nat)
  /\ exists joined,
       minus (Literal (VNumber (Num 5)) false) (Literal (VString "five") false)
         0%nat
       = inr (WithOutput joined (JsonPath "$.heap0.out"), 1%nat)
       /\ Spec.lastJoined joined
          = Some (Node (PassState
                          {| InputPath := None;
                             Parameters :=
                               Some (Fields
                                       [("out.$",
                                         ICall "States.MathAdd"
                                           [ ILiteral (VNumber (Num 5));
                                             ILiteral (VNumber NaN) ])]);
                             Result := None;
                             ResultPath := Some (Some "$.heap0");
                             Next := Some DeferNext; End_ := false |})).
Proof.
  split.
  - destruct (minus_lowering (Literal (VString "five") false) (Path "$.x") 0%nat
                eq_refl eq_refl)
      as (Hnull & _).
    exact (Hnull _ _ eq_refl eq_refl).
  - destruct (minus_lowering (Literal (VNumber (Num 5)) false)
                (Literal (VString "five") false) 0%nat eq_refl eq_refl)
      as (_ & Hsum).
    apply Hsum. intros l c [= <- <-]. discriminate.
Defined.

End MoreWitnesses.

(** ** Destructuring *)

Section Destructuring.
Import ASLGraph Engine Operators Bindings ExpectedBindings.

Lemma withoutNext_update (next : string) (s : NodeState) :
  withoutNext (updateDeferredNextState next s) = withoutNext s.
Proof.
  destruct s as [f | e c | choices d]; cbn; try reflexivity.
  f_equal. rewrite map_map. reflexivity.
Qed.

Lemma leaves_update (next : string) (g : Graph) :
  map withoutNext (leaves (updateDeferredNextStates next g))
  = map withoutNext (leaves g).
Proof.
  induction g as [s | start states IH] using Graph_nested_ind.
  - cbn. rewrite withoutNext_update. reflexivity.
  - cbn [updateDeferredNextStates leaves].
    induction IH as [| entry states Hentry _ IHstates]; [reflexivity |].
    cbn [map flat_map fst snd]. rewrite !map_app, Hentry, IHstates. reflexivity.
Qed.

Lemma leaves_chain (subs : list Graph) (i : nat) :
  map withoutNext (flat_map (fun entry => leaves (snd entry)) (chain i subs))
  = flat_map (fun g => map withoutNext (leaves g)) subs.
Proof.
  revert i. induction subs as [| g subs IH]; intro i; [reflexivity |].
  destruct subs as [| g' subs].
  - change (chain i [g]) with [(pretty i, g)].
    cbn [flat_map snd]. rewrite map_app. reflexivity.
  - change (chain i (g :: g' :: subs))
      with ((pretty i, updateDeferredNextStates (pretty (S i)) g)
              :: chain (S i) (g' :: subs)).
    cbn [flat_map snd]. rewrite map_app, leaves_update, IH. reflexivity.
Qed.

Lemma statesIn_omap (subStates : list (option Graph)) :
  flat_map statesIn subStates
  = flat_map (fun g => map withoutNext (leaves g)) (omap id subStates).
Proof.
  induction subStates as [| [g |] l IH]; [reflexivity | |].
  - cbn [flat_map]. rewrite IH. reflexivity.
  - cbn [flat_map]. rewrite IH. reflexivity.
Qed.

Lemma statesIn_joinSubStates (subStates : list (option Graph)) :
  statesIn (joinSubStates subStates) = flat_map statesIn subStates.
Proof.
  rewrite statesIn_omap. unfold joinSubStates.
  destruct (omap id subStates) as [| g [| g' subs]].
  - reflexivity.
  - cbn. rewrite app_nil_r. reflexivity.
  - cbn [statesIn leaves]. apply leaves_chain.
Qed.

Lemma flat_map_statesIn_app (l1 l2 : list (option Graph)) :
  flat_map statesIn (l1 ++ l2) = flat_map statesIn l1 ++ flat_map statesIn l2.
Proof. apply flat_map_app. Qed.

Lemma elementValue_path (kind : PatternKind) (p : string) (i : nat)
    (propertyName : option Value) (h : nat) :
  match kind with
  | ArrayBinding => true
  | ObjectBinding => match propertyName with
                     | Some (VString (String _ _)) => true
                     | _ => false
                     end
  end = true ->
  elementValue kind (JsonPath p) i propertyName h
  = inr (JsonPath (elementPath kind p i propertyName), h).
Proof.
  destruct kind; [| reflexivity].
  destruct propertyName as [[| | | | [|] | |] |]; try discriminate.
  reflexivity.
Qed.

Lemma assignBindings_reads (kind : PatternKind) (p : string)
    (bindings : list Binding) :
  Forall (boundNames copiesReads) bindings ->
  plain (BindingPattern kind bindings) = true ->
  forall (i h : nat),
    exists gs : list (option Graph),
      assignBindings evalAssignment kind (JsonPath p) i bindings h = inr (gs, h)
      /\ flat_map statesIn gs = map copy (readsOfBindings reads kind p i bindings).
Proof.
  intros IH. induction IH as [| binding bindings Hbinding _ IHbindings];
    intros Hplain i h.
  - exists []. split; reflexivity.
  - cbn [plain forallb] in Hplain. apply andb_prop in Hplain as [Hhead Htail].
    destruct (IHbindings Htail (S i) h) as [gs [Hgs Hstates]].
    cbn [assignBindings readsOfBindings]. unfold bindB at 1.
    destruct binding as [| name rest propertyName initializer].
    + cbn [assignBinding]. unfold retB at 1. unfold bindB. rewrite Hgs.
      exists (None :: gs). split; [reflexivity |]. exact Hstates.
    + apply andb_prop in Hhead as [Hhead Hkind].
      apply andb_prop in Hhead as [Hname Hinit].
      destruct initializer; [discriminate |].
      cbn [assignBinding]. destruct rest.
      * unfold retB at 1. unfold bindB. rewrite Hgs.
        exists (None :: gs). split; [reflexivity |]. exact Hstates.
      * unfold bindB at 1. rewrite elementValue_path.
        2:{ destruct kind; [| reflexivity]. exact Hkind. }
        destruct (Hbinding (elementPath kind p i propertyName) h Hname)
          as [g [Hg Hcopy]].
        rewrite Hg. unfold bindB. rewrite Hgs.
        exists (g :: gs). split; [reflexivity |].
        cbn [flat_map]. rewrite map_app, Hcopy, Hstates. reflexivity.
Qed.

Lemma assignRest_reads (p : string) (count : nat) (bindings : list Binding)
    (kind : PatternKind) :
  Forall (boundNames copiesReads) bindings ->
  plain (BindingPattern kind bindings) = true ->
  forall h : nat,
    exists g : option Graph,
      assignRest evalAssignment (JsonPath p) count bindings h = inr (g, h)
      /\ statesIn g = map copy (readsOfRest reads p count bindings).
Proof.
  intros IH. induction IH as [| binding bindings Hbinding _ IHbindings];
    intros Hplain h.
  - exists None. split; reflexivity.
  - cbn [plain forallb] in Hplain. apply andb_prop in Hplain as [Hhead Htail].
    destruct binding as [| name [|] propertyName initializer].
    + exact (IHbindings Htail h).
    + apply andb_prop in Hhead as [Hhead _].
      apply andb_prop in Hhead as [Hname _].
      cbn [assignRest readsOfRest]. unfold bindB, restValue, retB.
      exact (Hbinding _ h Hname).
    + exact (IHbindings Htail h).
Qed.

Lemma plain_no_object_rest (kind : PatternKind) (bindings : list Binding) :
  plain (BindingPattern kind bindings) = true ->
  hasRest bindings
  && match kind with ObjectBinding => true | ArrayBinding => false end = false.
Proof.
  destruct kind; [| intros _; apply andb_false_r].
  rewrite andb_true_r. cbn [plain]. unfold hasRest.
  induction bindings as [| binding bindings IH]; [reflexivity |].
  cbn [forallb existsb]. intros H. apply andb_prop in H as [Hhead Htail].
  rewrite (IH Htail), orb_false_r.
  destruct binding as [| name rest propertyName initializer]; [reflexivity |].
  apply andb_prop in Hhead as [_ Hkind]. apply andb_prop in Hkind as [Hrest _].
  destruct rest; [discriminate | reflexivity].
Qed.

(** X16.  Destructuring a value that is a reference copies, and does
    nothing else.  For a pattern of declared identifiers without default
    values (object patterns with constant, non-empty property names and no
    rest element) bound to the value at path [p], [evalAssignment]
    returns, uses no heap slot, and the states it returns are, in the
    order of the pattern with the rest element last, one [Pass] for each
    identifier, which copies the path of the identifier's element below
    [p] ([p[i]] in an array pattern, [p['name']] in an object pattern,
    [p[n-1:]] for the rest element of a pattern with [n] bindings) to the
    identifier's variable. *)
Theorem destructuring_copies_paths (pattern : BindingName) (p : string) (h : nat) :
  plain pattern = true ->
  exists g : option Graph,
    evalAssignment pattern (JsonPath p) h = inr (g, h)
    /\ statesIn g = map copy (reads pattern p).
Proof.
  revert p h.
  induction pattern as [name | kind bindings IH] using BindingName_nested_ind;
    intros p h Hplain.
  - destruct name as [err | name]; [discriminate |].
    eexists. split; reflexivity.
  - cbn [evalAssignment]. rewrite (plain_no_object_rest _ _ Hplain).
    destruct (assignBindings_reads kind p bindings IH Hplain 0%nat h)
      as [gs [Hgs Hstates]].
    destruct (assignRest_reads p (length bindings) bindings kind IH Hplain h)
      as [g [Hg Hrest]].
    unfold bindB. rewrite Hgs, Hg. unfold retB.
    eexists. split; [reflexivity |].
    rewrite statesIn_joinSubStates, flat_map_statesIn_app, Hstates.
    cbn [flat_map reads]. rewrite app_nil_r, Hrest, map_app. reflexivity.
Qed.

(** [const [first, , { key: [inner] }, ...others] = input]. *)
Lemma destructuring_copies_paths_witness :
  exists g : option Graph,
    evalAssignment
      (BindingPattern ArrayBinding
         [ BindingElem (Identifier (inr "first")) false None None;
           OmittedExpr;
           BindingElem
             (BindingPattern ObjectBinding
                [ BindingElem
                    (BindingPattern ArrayBinding
                       [BindingElem (Identifier (inr "inner")) false None None])
                    false (Some (VString "key")) None ])
             false None None;
           BindingElem (Identifier (inr "others")) true None None ])
      (JsonPath "$.input") 0%nat = inr (g, 0%nat)
    /\ statesIn g
       = map copy [ ("$.input[0]", "$.first");
                    ("$.input[2]['key'][0]", "$.inner");
                    ("$.input[3:]", "$.others") ].
Proof.
  apply (destructuring_copies_paths
           (BindingPattern ArrayBinding
              [ BindingElem (Identifier (inr "first")) false None None;
                OmittedExpr;
                BindingElem
                  (BindingPattern ObjectBinding
                     [ BindingElem
                         (BindingPattern ArrayBinding
                            [BindingElem (Identifier (inr "inner")) false None None])
                         false (Some (VString "key")) None ])
                  false None None;
                BindingElem (Identifier (inr "others")) true None None ])
           "$.input" 0%nat).
  reflexivity.
Defined.

End Destructuring.

(** ** The [for] statement *)

Section ForLoop.
Import ASLGraph Engine Operators Bindings Loops.

Lemma joinSubStates_one (state : option Graph) :
  joinSubStates [state] = state.
Proof. destruct state; reflexivity. Qed.

Lemma evalOptionalExpr_returns (expr : option EvaluatedExpr)
    (state : option NodeResults) (h : nat) :
  evaluated <$> expr = inr <$> state ->
  evalOptionalExpr expr h = inr (state, h).
Proof.
  destruct expr as [expr |], state as [state |]; try discriminate.
  - intros [= Hexpr]. cbn [evalOptionalExpr]. unfold bindB, engine, evalExpr.
    rewrite Hexpr. reflexivity.
  - reflexivity.
Qed.

Lemma checkState_last (states : option Graph) (s : NodeState) :
  Spec.lastJoined (default (Node s) (joinSubStates [states; Some (Node s)]))
  = Some (Node s).
Proof.
  destruct (lastJoined_join [states] s) as [joined [Hjoined Hlast]].
  change ([states] ++ [Some (Node s)]) with [states; Some (Node s)] in Hjoined.
  rewrite Hjoined. exact Hlast.
Qed.

(** X17. A [for] statement whose body, declarations, condition and
    incrementor lower is lowered to the states of its declarations
    followed by the sub-state [check] / [body] / [increment] / [exit] /
    [__ContinueNext] / [__BreakNext].  The body goes on to [increment]
    and the incrementor to [check]; [break] goes to [exit]; [continue]
    goes to [check], so the incrementor does not run after a [continue].
    [check] ends, after the states of the condition, in a [Pass] to
    [body] when there is no condition, in a [Pass] to [body] or to [exit]
    decided while compiling when the condition lowers to a literal, and
    otherwise in a [Choice]; for a condition that is a reference this
    [Choice] goes, on every state, to [body] when the reference holds a
    truthy value and to [exit] when it does not. *)
Theorem for_lowering (initializer : option (list VariableDecl))
    (condition incrementor : option EvaluatedExpr) (stmt : Stmt)
    (returnPass : ReturnPass) (h h1 h2 : nat) (body : option Graph)
    (initializers : list (option Graph)) (condStates increment : option NodeResults) :
  evalStmt stmt returnPass h = inr (body, h1) ->
  match initializer with
  | Some decls => evalDecls decls
  | None => retB [None]
  end h1 = inr (initializers, h2) ->
  evaluated <$> condition = inr <$> condStates ->
  evaluated <$> incrementor = inr <$> increment ->
  exists check : Graph,
    evalForStmt initializer condition incrementor stmt returnPass h
    = inr (joinSubStates
             (initializers
              ++ [ Some (SubState "check"
                    [ ("check", check);
                      ("body",
                       updateDeferredNextStates "increment"
                         (default (Node (PassState (pass (Some DeferNext)))) body));
                      ("increment",
                       updateDeferredNextStates "check"
                         (default (Node (PassState (pass (Some DeferNext))))
                            (increment ≫= statesOf)));
                      ("exit", Node (PassState (pass (Some DeferNext))));
                      ("__ContinueNext", Node (PassState (pass (Some (Name "check")))));
                      ("__BreakNext", Node (PassState (pass (Some (Name "exit"))))) ]) ]),
           h2)
    /\ match getAslStateOutput <$> condStates with
       | None => check = Node (PassState (pass (Some (Name "body"))))
       | Some (LiteralValue value _) =>
           Spec.lastJoined check
           = Some (Node (PassState
                           (pass (Some (Name (if Host.truthy value
                                              then "body" else "exit"))))))
       | Some (ConditionOutput rule) =>
           Spec.lastJoined check
           = Some (Node (ChoiceState [(rule, Name "body")] (Name "exit")))
       | Some (JsonPath p) =>
           exists rule,
             Spec.lastJoined check
             = Some (Node (ChoiceState [(rule, Name "body")] (Name "exit")))
             /\ forall env : ChoiceRule.Env,
                  env p <> Some VUndefined -> env p <> Some (VNumber NaN) ->
                  Runtime.choose env [(rule, Name "body")] (Name "exit")
                  = Some (Name (if ChoiceRule.truthy (env p)
                                then "body" else "exit"))
       end.
Proof.
  intros Hbody Hinitializers Hcondition Hincrement.
  exists (checkState condStates). split.
  - unfold evalForStmt. unfold bindB at 1. unfold engine. rewrite Hbody.
    unfold bindB at 1. rewrite Hinitializers.
    unfold bindB at 1. rewrite (evalOptionalExpr_returns _ _ _ Hcondition).
    unfold bindB. rewrite (evalOptionalExpr_returns _ _ _ Hincrement).
    unfold retB. rewrite joinSubStates_one.
    destruct increment as [[output | states output] |]; reflexivity.
  - destruct condStates as [condStates |]; [| reflexivity].
    cbn [fmap option_fmap option_map checkState].
    destruct (getAslStateOutput condStates) as [p | value c | rule].
    + exists (ASL.isTruthy p). split; [apply checkState_last |].
      intros env Hundefined Hnan. cbn [Runtime.choose].
      rewrite isTruthy_eval_truthy by assumption.
      destruct (ChoiceRule.truthy (env p)); reflexivity.
    + destruct (Host.truthy value); apply checkState_last.
    + apply checkState_last.
Qed.

(** [for (; more; ) continue;] *)
Lemma for_lowering_witness :
  exists check : Graph,
    evalForStmt None (Some (Sample.path "$.more")) None (ContinueStmt true)
      Sample.topLevel 0%nat
    = inr (Some (SubState "check"
                   [ ("check", check);
                     ("body",
                      Node (PassState
                              {| InputPath := None; Parameters := None;
                                 Result := None; ResultPath := Some None;
                                 Next := Some (Name "__ContinueNext");
                                 End_ := false |}));
                     ("increment", Node (PassState (pass (Some (Name "check")))));
                     ("exit", Node (PassState (pass (Some DeferNext))));
                     ("__ContinueNext", Node (PassState (pass (Some (Name "check")))));
                     ("__BreakNext", Node (PassState (pass (Some (Name "exit"))))) ]),
           0%nat)
    /\ exists rule,
         Spec.lastJoined check
         = Some (Node (ChoiceState [(rule, Name "body")] (Name "exit")))
         /\ forall env : ChoiceRule.Env,
              env "$.more" <> Some VUndefined -> env "$.more" <> Some (VNumber NaN) ->
              Runtime.choose env [(rule, Name "body")] (Name "exit")
              = Some (Name (if ChoiceRule.truthy (env "$.more")
                            then "body" else "exit")).
Proof.
  apply (for_lowering None (Some (Sample.path "$.more")) None (ContinueStmt true)
           Sample.topLevel 0%nat 0%nat 0%nat
           (Some (Node (PassState
                          {| InputPath := None; Parameters := None;
                             Result := None; ResultPath := Some None;
                             Next := Some (Name "__ContinueNext");
                             End_ := false |})))
           [None] (Some (Bare (JsonPath "$.more"))) None);
    reflexivity.
Defined.

End ForLoop.

(** ** Default values of bindings *)

Section DefaultValues.
Import ASLGraph Engine Operators Bindings.

(** X18. [applyDefaultValue] with a default that lowers never
    rejects, also when the value and the default are both the literal
    [undefined].  A value that is the literal [undefined] gives what the
    default lowers to, any other literal gives the literal and drops the
    states of the default, and a condition gives the boolean it is
    materialised to: none of these looks at the default when the machine
    runs.  For a value that is a reference [p] the choice is made when the
    machine runs, by a [Choice] that never fails and takes the branch
    [value], which copies [p] to a fresh heap slot, exactly when [p] is
    present, and otherwise the branch [default], which runs the states of
    the default and then writes its output to the same slot; that slot is
    the output. *)
Theorem default_value_applies_when_missing (value : Output)
    (defaultValueExpression : EvaluatedExpr) (defaultValueState : NodeResults)
    (h : nat) :
  evaluated defaultValueExpression = inr defaultValueState ->
  match value with
  | LiteralValue VUndefined _ =>
      applyDefaultValue value defaultValueExpression h = inr (defaultValueState, h)
  | LiteralValue _ _ =>
      applyDefaultValue value defaultValueExpression h = inr (Bare value, h)
  | ConditionOutput condition =>
      applyDefaultValue value defaultValueExpression h
      = inr (WithOutput
               (SubState "default"
                  [ ("default",
                     Node (ChoiceState [(condition, Name "true")] (Name "false")));
                    ("true", Expected.branch None true ("$.heap" +:+ pretty h));
                    ("false", Expected.branch None false ("$.heap" +:+ pretty h)) ])
               (JsonPath ("$.heap" +:+ pretty h)),
             S h)
  | JsonPath p =>
      let temp := "$.heap" +:+ pretty h in
      let assignDefault :=
        match getAslStateOutput defaultValueState with
        | ConditionOutput condition =>
            Expected.writes (ConditionOutput condition) temp
        | defaultValue => Expected.assigns defaultValue temp
        end in
      exists rule,
        applyDefaultValue value defaultValueExpression h
        = inr (WithOutput
                 (SubState "check"
                    [ ("check",
                       Node (ChoiceState [(rule, Name "value")] (Name "default")));
                      ("value", Expected.assigns (JsonPath p) temp);
                      ("default",
                       default assignDefault
                         (joinSubStates
                            [statesOf defaultValueState; Some assignDefault])) ])
                 (JsonPath temp),
               S h)
        /\ forall env : ChoiceRule.Env,
             Runtime.choose env [(rule, Name "value")] (Name "default")
             = Some (Name (match env p with
                           | Some _ => "value"
                           | None => "default"
                           end))
  end.
Proof.
  intros Hdefault. unfold applyDefaultValue, evalExpr. unfold bind at 1.
  rewrite Hdefault.
  destruct value as [p | v c | condition].
  - exists (ASL.isPresent p). split.
    + unfold bind at 1. rewrite newHeapVariable_eq.
      unfold bind at 1. rewrite assignValue_eq.
      unfold bind at 1. rewrite assignValue_eq.
      destruct (getAslStateOutput defaultValueState); reflexivity.
    + intros env. cbn [Runtime.choose ChoiceRule.eval ASL.isPresent].
      destruct (env p) as [x |].
      * rewrite bool_decide_true by (eexists; reflexivity). reflexivity.
      * rewrite bool_decide_false by (intros [x Hx]; discriminate Hx).
        reflexivity.
  - destruct v; reflexivity.
  - unfold bind. rewrite conditionState_eq. reflexivity.
Qed.

(** [const { limit = 10 } = input], at the element [$.input['limit']]. *)
Lemma default_value_applies_when_missing_witness :
  exists rule,
    applyDefaultValue (JsonPath "$.input['limit']")
      (Sample.literal (VNumber (Num 10))) 0%nat
    = inr (WithOutput
             (SubState "check"
                [ ("check",
                   Node (ChoiceState [(rule, Name "value")] (Name "default")));
                  ("value",
                   Expected.assigns (JsonPath "$.input['limit']") "$.heap0");
                  ("default",
                   Expected.assigns (LiteralValue (VNumber (Num 10)) false)
                     "$.heap0") ])
             (JsonPath "$.heap0"),
           1%nat)
    /\ forall env : ChoiceRule.Env,
         Runtime.choose env [(rule, Name "value")] (Name "default")
         = Some (Name (match env "$.input['limit']" with
                       | Some _ => "value"
                       | None => "default"
                       end)).
Proof.
  apply (default_value_applies_when_missing (JsonPath "$.input['limit']")
           (Sample.literal (VNumber (Num 10)))
           (Bare (LiteralValue (VNumber (Num 10)) false)) 0%nat).
  reflexivity.
Defined.

End DefaultValues.

(** ** Heap slots *)

Section HeapSlots.
Import Engine Heap VariableNames.

Lemma newHeapVariables_spec (n h : nat) :
  newHeapVariables n h
  = inr (map (fun i => "$.heap" +:+ pretty i) (seq h n), (h + n)%nat).
Proof.
  revert h. induction n as [| n IH]; intro h.
  - cbn. rewrite Nat.add_0_r. reflexivity.
  - cbn [newHeapVariables]. unfold bind at 1. rewrite newHeapVariable_eq.
    unfold bind. rewrite IH. cbn [seq map]. unfold ret.
    replace (S h + n)%nat with (h + S n)%nat by lia. reflexivity.
Qed.

Lemma heap_slot_inj (i j : nat) :
  "$.heap" +:+ pretty i = "$.heap" +:+ pretty j -> i = j.
Proof.
  intros H. injection H as H. exact (pretty_nat_inj _ _ H).
Qed.

(** X19. The heap slots handed out during one compilation are pairwise
    distinct: [n] calls of [newHeapVariable] from the counter [h] return
    [$.heap<h>], ..., [$.heap<h+n-1>] and leave the counter at [h + n].
    They are not kept apart from the variables of the program: a
    declaration named [heap<i>], when that name has not been given out
    before, is given this very name, so that its variable [$.heap<i>] is
    the heap slot numbered [i]. *)
Theorem heap_slots_distinct_not_reserved (n h : nat) :
  exists slots : list string,
    newHeapVariables n h = inr (slots, (h + n)%nat)
    /\ NoDup slots
    /\ length slots = n
    /\ forall (i : nat) (slot : string),
         slots !! i = Some slot ->
         slot = "$.heap" +:+ pretty (h + i)%nat
         /\ forall (node : nat) (names : Names),
              "heap" +:+ pretty (h + i)%nat ∉ generated names ->
              variableNamesMap names !! node = None ->
              exists declared,
                fst (getDeclarationName
                       {| node := node; name := "heap" +:+ pretty (h + i)%nat |}
                       names) = Some declared
                /\ "$." +:+ declared = slot.
Proof.
  exists (map (fun i => "$.heap" +:+ pretty i) (seq h n)).
  split; [apply newHeapVariables_spec |].
  split.
  { apply NoDup_fmap_2; [intros i j; apply heap_slot_inj | apply NoDup_seq]. }
  split; [rewrite length_map, length_seq; reflexivity |].
  intros i slot Hslot.
  change (map (fun i => "$.heap" +:+ pretty i) (seq h n))
    with ((fun i => "$.heap" +:+ pretty i) <$> seq h n) in Hslot.
  rewrite list_lookup_fmap in Hslot.
  destruct (seq h n !! i) as [k |] eqn:Hk; [| discriminate].
  apply lookup_seq in Hk as [-> _]. injection Hslot as <-.
  split; [reflexivity |].
  intros node names Hfresh Hnode.
  exists ("heap" +:+ pretty (h + i)%nat). split; [| reflexivity].
  unfold getDeclarationName. cbn [VariableNames.node VariableNames.name].
  rewrite Hnode. unfold getUnique.
  destruct (decide ("heap" +:+ pretty (h + i)%nat ∈ generated names));
    [contradiction |].
  cbn [variableNamesMap fst]. apply lookup_insert_eq.
Qed.

End HeapSlots.
